(** * WAN resilience exercises: a shallow embedding of the C++ sources

    The repository holds five ns-3 programs.  The parts with behaviour of
    their own are embedded here, one module per class:

    - [RateLimiter]      (exercise 3, the fixed-window admission controller),
    - [PbrController]    (exercise 5, the policy steering controller),
    - [Simulator], [VoipApplication], [DDoSAttacker]
                         (exercises 2 and 3, the paced traffic generators on
                          top of the event scheduler),
    - [FlowAnalysis]     (the per-flow throughput computation of the three
                          statistics loops),
    - [Routing]          (the routing table with primary and backup entries),
    - [AdmissionLog], [PbrTables], [FloodRun], [VoiceRun], [PacketMarks],
      [SendInterval], [TopRate]
                         (the same classes over sequences of calls and whole
                          runs),
    - [FlowReports], [BusinessImpact], [SecurityAnalysis]
                         (the loss, delay and jitter figures and the grades of
                          the statistics loops, and the totals of exercise 3),
    - [EavesdroppingNode], [Sniffer]
                         (exercise 3, the eavesdropper and the sniffer callback),
    - [LatencyTrace]     (exercise 1, the latency callbacks).

    Unsigned C++ integers are integers of [Z] with the wrap-around written
    at every operation; [double] is the kernel's binary64 [float]. *)

From Stdlib Require Import ZArith Lia Bool List Floats.
From stdpp Require Import base list.
From stdpp Require gmap.

Open Scope Z_scope.

(** ** Machine integers *)

Definition UINT32_MOD : Z := 2 ^ 32.
Definition UINT64_MOD : Z := 2 ^ 64.

Definition wrap32 (z : Z) : Z := z mod UINT32_MOD.
Definition wrap64 (z : Z) : Z := z mod UINT64_MOD.

Definition is_uint32 (z : Z) : Prop := 0 <= z < UINT32_MOD.
Definition is_uint64 (z : Z) : Prop := 0 <= z < UINT64_MOD.

(** [(double) z] for an unsigned integer [z]: exact below [2^53], otherwise
    rounded to the nearest multiple of the unit in the last place, ties to
    the even significand.  The result is an integer, kept in [Z]. *)
Definition to_double (z : Z) : Z :=
  if z <? 2 ^ 53 then z
  else
    let sh := Z.log2 z - 52 in
    let q := z / 2 ^ sh in
    let r := z mod 2 ^ sh in
    let half := 2 ^ (sh - 1) in
    let q' := if (half <? r) || ((r =? half) && Z.odd q) then q + 1 else q in
    q' * 2 ^ sh.

(** [(double) z] as a binary64 value: the correctly rounded conversion. *)
Definition double_of_Z (z : Z) : float :=
  SF2Prim (binary_normalize prec emax z 0 false).

(** A non-negative finite binary64 value truncated to an integer. *)
Definition float_to_Z (f : float) : Z :=
  match Prim2SF f with
  | S754_finite false m e =>
      if e <? 0 then Z.pos m / 2 ^ (- e) else Z.pos m * 2 ^ e
  | _ => 0
  end.

(** [(uint64_t) d] for an integer-valued double [d]. *)
Definition to_uint64 (d : Z) : Z := wrap64 d.

(** The framework's [Time] is a signed count of ticks. *)
Definition Time : Type := Z.

(** ** exercise 3: [class RateLimiter] *)

Module RateLimiter.

Record Packet : Type := mkPacket { GetSize : Z }.

Record t : Type := mk {
  m_rateLimit : Z;        (* DataRate: bits per second, uint64_t *)
  m_windowSize : Time;
  m_bytesInWindow : Z;    (* uint64_t *)
  m_windowStart : Time;
  m_droppedPackets : Z    (* uint32_t *)
}.

(** The verdicts of a stream of [n] packets of which the first [k] pass and
    all later ones are turned away. *)
Definition verdicts (n : nat) (k : Z) : list bool :=
  repeat true (Nat.min n (Z.to_nat k)) ++
  repeat false (n - Nat.min n (Z.to_nat k)).

Section WithResolution.

(** The framework's time resolution: the ticks of [Seconds(1.0)]. *)
Variable second : Time.

(** [Time::GetSeconds()], for a whole number of seconds (the only window
    the class can have is the second its constructor sets). *)
Definition GetSeconds (w : Time) : Z := w / second.

(** [RateLimiter::RateLimiter()]: 1Mbps, a window of one second. *)
Definition ctor : t :=
  {| m_rateLimit := 1000000;
     m_windowSize := second;
     m_bytesInWindow := 0;
     m_windowStart := 0;
     m_droppedPackets := 0 |}.

Definition SetLimit (rate : Z) (st : t) : t :=
  {| m_rateLimit := rate;
     m_windowSize := m_windowSize st;
     m_bytesInWindow := m_bytesInWindow st;
     m_windowStart := m_windowStart st;
     m_droppedPackets := m_droppedPackets st |}.

Definition GetDroppedPackets (st : t) : Z := m_droppedPackets st.

(** [if (now - m_windowStart >= m_windowSize) { ... }] *)
Definition window_expired (now : Time) (st : t) : bool :=
  m_windowSize st <=? now - m_windowStart st.

Definition ResetWindow (now : Time) (st : t) : t :=
  if window_expired now st then
    {| m_rateLimit := m_rateLimit st;
       m_windowSize := m_windowSize st;
       m_bytesInWindow := 0;
       m_windowStart := now;
       m_droppedPackets := m_droppedPackets st |}
  else st.

(** [uint64_t maxBytes = m_rateLimit.GetBitRate() / 8 * m_windowSize.GetSeconds();]
    the quotient is an integer division, the product a [double]. *)
Definition maxBytes (st : t) : Z :=
  to_uint64 (to_double (to_double (m_rateLimit st / 8) * GetSeconds (m_windowSize st))).

(** The admission test and its two branches, on the state the reset left. *)
Definition Admit (packet : Packet) (st : t) : bool * t :=
  if wrap64 (m_bytesInWindow st + GetSize packet) <=? maxBytes st then
    (true,
     {| m_rateLimit := m_rateLimit st;
        m_windowSize := m_windowSize st;
        m_bytesInWindow := wrap64 (m_bytesInWindow st + GetSize packet);
        m_windowStart := m_windowStart st;
        m_droppedPackets := m_droppedPackets st |})
  else
    (false,
     {| m_rateLimit := m_rateLimit st;
        m_windowSize := m_windowSize st;
        m_bytesInWindow := m_bytesInWindow st;
        m_windowStart := m_windowStart st;
        m_droppedPackets := wrap32 (m_droppedPackets st + 1) |}).

(** [bool RateLimiter::AllowPacket(Ptr<const Packet> packet, const Address& from)]
    at [now = Simulator::Now()].  The source address is not read. *)
Definition AllowPacket (packet : Packet) (from : Z) (now : Time) (st : t) : bool * t :=
  Admit packet (ResetWindow now st).

(** A stream of packets of one size, offered at the given times. *)
Fixpoint Offer (packet : Packet) (from : Z) (times : list Time) (st : t) : list bool * t :=
  match times with
  | [] => ([], st)
  | now :: rest =>
      let '(ok, st1) := AllowPacket packet from now st in
      let '(oks, st2) := Offer packet from rest st1 in
      (ok :: oks, st2)
  end.

(** What the constructor, [SetLimit] and [AllowPacket] keep true. *)
Definition wf (st : t) : Prop :=
  is_uint64 (m_rateLimit st) /\
  m_windowSize st = second /\
  0 <= m_bytesInWindow st <= 2 ^ 63 /\
  is_uint32 (m_droppedPackets st).

Definition wf_packet (p : Packet) : Prop := is_uint32 (GetSize p).

(** The states the class can be in. *)
Inductive reachable : t -> Prop :=
| reach_ctor : reachable ctor
| reach_SetLimit rate st :
    is_uint64 rate -> reachable st -> reachable (SetLimit rate st)
| reach_AllowPacket p from now st :
    wf_packet p -> reachable st -> reachable (snd (AllowPacket p from now st)).

End WithResolution.

(** The stream opens a window: its first packet finds the window empty,
    or expired (and resets it), and every packet arrives before the window
    so opened ends. *)
Definition opens_window (times : list Time) (st : t) : Prop :=
  match times with
  | [] => True
  | first :: _ =>
      m_bytesInWindow (ResetWindow first st) = 0 /\
      Forall (fun now =>
                now - m_windowStart (ResetWindow first st) < m_windowSize st) times
  end.

(** Concrete inputs: nanosecond ticks, the limiter as constructed, the same
    with a limit of zero, and one whose counter of drops is at its maximum. *)
Definition ns_per_second : Time := 1000000000.

Definition limiter_1Mbps : t := ctor ns_per_second.

Definition limiter_zero : t := SetLimit 0 (ctor ns_per_second).

Definition limiter_full_counter : t :=
  {| m_rateLimit := 1000000;
     m_windowSize := ns_per_second;
     m_bytesInWindow := 0;
     m_windowStart := 0;
     m_droppedPackets := 4294967295 |}.

End RateLimiter.

(** ** exercise 5: the static routing table and [class PbrController] *)

Module Ipv4StaticRouting.

(** An IPv4 address or mask: 32 bits. *)
Definition Ipv4Address : Type := Z.

Definition ipv4 (a b c d : Z) : Ipv4Address :=
  Z.lor (Z.shiftl a 24) (Z.lor (Z.shiftl b 16) (Z.lor (Z.shiftl c 8) d)).

Record Ipv4RoutingTableEntry : Type := mkEntry {
  GetDestNetwork : Ipv4Address;
  GetDestNetworkMask : Ipv4Address;
  GetGateway : Ipv4Address;
  GetInterface : Z
}.

(** Modelled from the spec: the framework's static routing table
    ([Ipv4StaticRouting], not part of the sources) is the spec's
    insertion-ordered collection of route entries; the controller reads it
    by index, removes by index and adds at the end. *)
Abbreviation t := (list Ipv4RoutingTableEntry).

(** [uint32_t GetNRoutes()] *)
Definition GetNRoutes (rt : t) : Z := wrap32 (Z.of_nat (length rt)).

Definition GetRoute (i : nat) (rt : t) : option Ipv4RoutingTableEntry := rt !! i.

Definition RemoveRoute (i : nat) (rt : t) : t := delete i rt.

Definition AddNetworkRouteTo
    (network mask nextHop : Ipv4Address) (interface : Z) (rt : t) : t :=
  rt ++ [mkEntry network mask nextHop interface].

End Ipv4StaticRouting.

Module PbrController.
Import Ipv4StaticRouting.

(** The controller's own state; [m_router] and [m_ipv4] only lead to the
    router's table, which is passed beside it. *)
Record t : Type := mk { m_state : bool }.

(** [PbrController(router, ipv4) : ..., m_state(true)] *)
Definition ctor : t := {| m_state := true |}.

Definition destNet : Ipv4Address := ipv4 10 200 0 0.
Definition mask : Ipv4Address := ipv4 255 255 255 0.
Definition primaryHop : Ipv4Address := ipv4 10 100 1 2.
Definition secondaryHop : Ipv4Address := ipv4 10 100 2 2.

(** [e.GetDestNetwork() == destNet && e.GetDestNetworkMask() == mask] *)
Definition watched (e : Ipv4RoutingTableEntry) : bool :=
  (GetDestNetwork e =? destNet) && (GetDestNetworkMask e =? mask).

(** [(int) n] for a [uint32_t n]. *)
Definition to_int (n : Z) : Z := if n <? 2 ^ 31 then n else n - 2 ^ 32.

(** [for (int i = (int)n - 1; i >= 0; --i)]: the argument is [i + 1], the
    number of indices still to visit. *)
Fixpoint remove_loop (k : nat) (rt : Ipv4StaticRouting.t) : Ipv4StaticRouting.t :=
  match k with
  | O => rt
  | S i =>
      remove_loop i
        match GetRoute i rt with
        | Some e => if watched e then RemoveRoute i rt else rt
        | None => rt
        end
  end.

(** [void Toggle()], without its message on the console and the event for
    its next run five seconds later. *)
Definition Toggle (c : t) (rt : Ipv4StaticRouting.t) : t * Ipv4StaticRouting.t :=
  let n := GetNRoutes rt in
  let rt1 := remove_loop (Z.to_nat (to_int n)) rt in
  let rt2 :=
    if m_state c
    then AddNetworkRouteTo destNet mask primaryHop 1 rt1
    else AddNetworkRouteTo destNet mask secondaryHop 2 rt1 in
  ({| m_state := negb (m_state c) |}, rt2).

(** The controller and the table after [k] runs of [Toggle]. *)
Fixpoint toggles (k : nat) (c : t) (rt : Ipv4StaticRouting.t) : t * Ipv4StaticRouting.t :=
  match k with
  | O => (c, rt)
  | S k' => let '(c1, rt1) := toggles k' c rt in Toggle c1 rt1
  end.

(** [main]: the route to cloudA that the router gets before the controller
    starts, added to the routes [rt] the framework installed. *)
Definition main_routes (rt : Ipv4StaticRouting.t) : Ipv4StaticRouting.t :=
  AddNetworkRouteTo (ipv4 10 200 0 0) (ipv4 255 255 255 0) (ipv4 10 100 1 2) 1 rt.

(** The entries for the watched destination, and their next hops. *)
Definition watched_routes (rt : Ipv4StaticRouting.t) : Ipv4StaticRouting.t :=
  filter (fun e => watched e = true) rt.

Definition other_routes (rt : Ipv4StaticRouting.t) : Ipv4StaticRouting.t :=
  filter (fun e => watched e <> true) rt.

Definition next_hops (rt : Ipv4StaticRouting.t) : list Ipv4Address :=
  map GetGateway (watched_routes rt).

(** The next hop after the [k]-th toggle as the specification words it
    (A for even [k], B for odd [k]), and as the controller installs it. *)
Definition next_hop_by_parity (k : nat) : Ipv4Address :=
  if Nat.even k then primaryHop else secondaryHop.

Definition next_hop_installed (k : nat) : Ipv4Address :=
  match k with
  | O => primaryHop
  | S _ => if Nat.odd k then primaryHop else secondaryHop
  end.

(** The entry a toggle installs when it is the [k]-th, [k >= 1]. *)
Definition installed (k : nat) : Ipv4RoutingTableEntry :=
  if Nat.odd k
  then mkEntry destNet mask primaryHop 1
  else mkEntry destNet mask secondaryHop 2.

(** The routes of the router's three interfaces, as an example of what the
    framework installs (any table without a route to [destNet] does). *)
Definition connected_routes : Ipv4StaticRouting.t :=
  [ mkEntry (ipv4 10 0 1 0) (ipv4 255 255 255 0) 0 1;
    mkEntry (ipv4 10 100 1 0) (ipv4 255 255 255 0) 0 2;
    mkEntry (ipv4 10 100 2 0) (ipv4 255 255 255 0) 0 3 ].

End PbrController.

(** ** exercises 2 and 3: the traffic generators *)

Module Simulator.

(** The member function an event invokes on the application. *)
Inductive EventImpl : Type := EvStart | EvStop | EvSend.

#[global] Instance EventImpl_eq_dec : EqDecision EventImpl.
Proof. solve_decision. Defined.

Record Event : Type := mkEvent {
  ev_ts : Time;
  ev_uid : nat;
  ev_impl : EventImpl
}.

(** [EventId]: a handle on a scheduled event; a default-constructed one
    holds none. *)
Definition EventId : Type := option nat.

(** What a run shows: the events invoked, and the packets handed to a
    socket with their size and type-of-service mark. *)
Inductive Obs : Type :=
| Invoked (impl : EventImpl) (at_time : Time)
| Sent (size : Z) (tos : option Z) (at_time : Time).

(** The scheduler: the current time, the next event number, the pending
    events in the order they will run, and the observations, newest first. *)
Record t : Type := mk {
  Now : Time;
  m_uid : nat;
  m_events : list Event;
  m_trace : list Obs
}.

(** Modelled from the spec: the framework's scheduling primitive (not part
    of the sources).  Events run in non-decreasing order of timestamp, and
    events of one timestamp in the order they were scheduled. *)
Fixpoint Insert (e : Event) (q : list Event) : list Event :=
  match q with
  | [] => [e]
  | x :: q' => if ev_ts e <? ev_ts x then e :: q else x :: Insert e q'
  end.

(** Modelled from the spec: [Simulator::Schedule(delay, callback)] registers
    the callback at [Now + delay] and returns its handle. *)
Definition Schedule (delay : Time) (impl : EventImpl) (s : t) : EventId * t :=
  (Some (m_uid s),
   {| Now := Now s;
      m_uid := S (m_uid s);
      m_events := Insert (mkEvent (Now s + delay) (m_uid s) impl) (m_events s);
      m_trace := m_trace s |}).

(** Modelled from the spec: [EventId::IsRunning()], the event is pending: it
    has neither run nor been cancelled. *)
Definition IsRunning (id : EventId) (s : t) : bool :=
  match id with
  | None => false
  | Some u => bool_decide (Exists (fun e => ev_uid e = u) (m_events s))
  end.

(** Modelled from the spec: [Simulator::Cancel(id)], a cancelled event never
    fires. *)
Definition Cancel (id : EventId) (s : t) : t :=
  match id with
  | None => s
  | Some u =>
      {| Now := Now s;
         m_uid := m_uid s;
         m_events := filter (fun e => ev_uid e <> u) (m_events s);
         m_trace := m_trace s |}
  end.

Definition observe (o : Obs) (s : t) : t :=
  {| Now := Now s;
     m_uid := m_uid s;
     m_events := m_events s;
     m_trace := o :: m_trace s |}.

(** A UDP socket, as far as the generators drive it. *)
Inductive Socket : Type := Unbound | Bound | Connected (peer : Z) | Closed.

(** [m_socket->Send(packet)]: the packet is observed at the current time. *)
Definition Send (size : Z) (tos : option Z) (s : t) : t :=
  observe (Sent size tos (Now s)) s.

Definition is_sent (o : Obs) : bool :=
  match o with Sent _ _ _ => true | Invoked _ _ => false end.

Definition is_stop (o : Obs) : bool :=
  match o with Invoked EvStop _ => true | _ => false end.

(** The times of the sends of a trace, newest first. *)
Fixpoint send_times (tr : list Obs) : list Time :=
  match tr with
  | [] => []
  | Sent _ _ at_time :: older => at_time :: send_times older
  | Invoked _ _ :: older => send_times older
  end.

(** No send is observed once [StopApplication] has been invoked: whenever a
    send is observed, no invocation of the stop is among the older
    observations. *)
Fixpoint no_send_after_stop (tr : list Obs) : Prop :=
  match tr with
  | [] => True
  | o :: older =>
      (is_sent o = true -> existsb is_stop older = false) /\
      no_send_after_stop older
  end.

End Simulator.

Module VoipApplication.
Import Simulator.

Record t : Type := mk {
  m_socket : option Socket;
  m_peer : Z;
  m_packetSize : Z;          (* uint32_t *)
  m_nPackets : Z;            (* uint32_t *)
  m_dataRate : Z;            (* DataRate: bits per second, uint64_t *)
  m_sendEvent : EventId;
  m_running : bool;
  m_packetsSent : Z          (* uint32_t *)
}.

Definition ctor : t :=
  {| m_socket := None; m_peer := 0; m_packetSize := 0; m_nPackets := 0;
     m_dataRate := 0; m_sendEvent := None; m_running := false;
     m_packetsSent := 0 |}.

Definition Setup (socket : Socket) (address packetSize nPackets dataRate : Z)
    (a : t) : t :=
  {| m_socket := Some socket; m_peer := address; m_packetSize := packetSize;
     m_nPackets := nPackets; m_dataRate := dataRate;
     m_sendEvent := m_sendEvent a; m_running := m_running a;
     m_packetsSent := m_packetsSent a |}.

(** [m_packetSize * 8 / static_cast<double>(m_dataRate.GetBitRate())]: the
    product is a [uint32_t], the quotient a [double]. *)
Definition interval_seconds (a : t) : float :=
  (double_of_Z (wrap32 (m_packetSize a * 8)) / double_of_Z (m_dataRate a))%float.

Section WithSeconds.

(** The framework's conversion of a number of seconds to a [Time]. *)
Variable Seconds : float -> Time.

(** [void VoipApplication::ScheduleTx()] *)
Definition ScheduleTx (a : t) (s : Simulator.t) : t * Simulator.t :=
  if m_running a then
    let tNext := Seconds (interval_seconds a) in
    let '(id, s1) := Schedule tNext EvSend s in
    ({| m_socket := m_socket a; m_peer := m_peer a;
        m_packetSize := m_packetSize a; m_nPackets := m_nPackets a;
        m_dataRate := m_dataRate a; m_sendEvent := id;
        m_running := m_running a; m_packetsSent := m_packetsSent a |}, s1)
  else (a, s).

(** [void VoipApplication::SendPacket()]: the packet carries the
    type-of-service mark [0xB8]. *)
Definition SendPacket (a : t) (s : Simulator.t) : t * Simulator.t :=
  let s1 := Send (m_packetSize a) (Some 184) s in
  let a1 :=
    {| m_socket := m_socket a; m_peer := m_peer a;
       m_packetSize := m_packetSize a; m_nPackets := m_nPackets a;
       m_dataRate := m_dataRate a; m_sendEvent := m_sendEvent a;
       m_running := m_running a;
       m_packetsSent := wrap32 (m_packetsSent a + 1) |} in
  if m_packetsSent a1 <? m_nPackets a1 then ScheduleTx a1 s1 else (a1, s1).

(** [void VoipApplication::StartApplication()], for a flow that [Setup]
    gave its socket; without one the code stops at the null pointer. *)
Definition StartApplication (a : t) (s : Simulator.t) : t * Simulator.t :=
  let a1 :=
    {| m_socket := option_map (fun _ => Connected (m_peer a)) (m_socket a);
       m_peer := m_peer a;
       m_packetSize := m_packetSize a; m_nPackets := m_nPackets a;
       m_dataRate := m_dataRate a; m_sendEvent := m_sendEvent a;
       m_running := true;
       m_packetsSent := 0 |} in
  SendPacket a1 s.

(** [void VoipApplication::StopApplication()] *)
Definition StopApplication (a : t) (s : Simulator.t) : t * Simulator.t :=
  let s1 := if IsRunning (m_sendEvent a) s then Cancel (m_sendEvent a) s else s in
  ({| m_socket := option_map (fun _ => Closed) (m_socket a);
      m_peer := m_peer a;
      m_packetSize := m_packetSize a; m_nPackets := m_nPackets a;
      m_dataRate := m_dataRate a; m_sendEvent := m_sendEvent a;
      m_running := false;
      m_packetsSent := m_packetsSent a |}, s1).

End WithSeconds.

End VoipApplication.

Module DDoSAttacker.
Import Simulator.

Record t : Type := mk {
  m_socket : option Socket;
  m_targetAddress : Z;
  m_targetPort : Z;          (* uint16_t *)
  m_attackRate : Z;          (* DataRate: bits per second, uint64_t *)
  m_packetSize : Z;          (* uint32_t *)
  m_sendEvent : EventId;
  m_running : bool;
  m_packetsSent : Z          (* uint32_t *)
}.

Definition ctor : t :=
  {| m_socket := None; m_targetAddress := 0; m_targetPort := 0;
     m_attackRate := 0; m_packetSize := 1024; m_sendEvent := None;
     m_running := false; m_packetsSent := 0 |}.

Definition Setup (targetAddress targetPort attackRate : Z) (a : t) : t :=
  {| m_socket := m_socket a; m_targetAddress := targetAddress;
     m_targetPort := targetPort; m_attackRate := attackRate;
     m_packetSize := m_packetSize a; m_sendEvent := m_sendEvent a;
     m_running := m_running a; m_packetsSent := m_packetsSent a |}.

(** [m_packetSize * 8 / static_cast<double>(m_attackRate.GetBitRate())] *)
Definition interval_seconds (a : t) : float :=
  (double_of_Z (wrap32 (m_packetSize a * 8)) / double_of_Z (m_attackRate a))%float.

Section WithSeconds.

Variable Seconds : float -> Time.

(** [void DDoSAttacker::ScheduleNextPacket()] *)
Definition ScheduleNextPacket (a : t) (s : Simulator.t) : t * Simulator.t :=
  if m_running a then
    let tNext := Seconds (interval_seconds a) in
    let '(id, s1) := Schedule tNext EvSend s in
    ({| m_socket := m_socket a; m_targetAddress := m_targetAddress a;
        m_targetPort := m_targetPort a; m_attackRate := m_attackRate a;
        m_packetSize := m_packetSize a; m_sendEvent := id;
        m_running := m_running a; m_packetsSent := m_packetsSent a |}, s1)
  else (a, s).

(** [void DDoSAttacker::SendAttackPacket()] *)
Definition SendAttackPacket (a : t) (s : Simulator.t) : t * Simulator.t :=
  let s1 := Send (m_packetSize a) None s in
  let a1 :=
    {| m_socket := m_socket a; m_targetAddress := m_targetAddress a;
       m_targetPort := m_targetPort a; m_attackRate := m_attackRate a;
       m_packetSize := m_packetSize a; m_sendEvent := m_sendEvent a;
       m_running := m_running a;
       m_packetsSent := wrap32 (m_packetsSent a + 1) |} in
  ScheduleNextPacket a1 s1.

(** [void DDoSAttacker::StartApplication()]: the socket is created here. *)
Definition StartApplication (a : t) (s : Simulator.t) : t * Simulator.t :=
  let a1 :=
    {| m_socket := Some (Connected (m_targetAddress a));
       m_targetAddress := m_targetAddress a;
       m_targetPort := m_targetPort a; m_attackRate := m_attackRate a;
       m_packetSize := m_packetSize a; m_sendEvent := m_sendEvent a;
       m_running := true;
       m_packetsSent := 0 |} in
  SendAttackPacket a1 s.

(** [void DDoSAttacker::StopApplication()] *)
Definition StopApplication (a : t) (s : Simulator.t) : t * Simulator.t :=
  let s1 := if IsRunning (m_sendEvent a) s then Cancel (m_sendEvent a) s else s in
  ({| m_socket := option_map (fun _ => Closed) (m_socket a);
      m_targetAddress := m_targetAddress a;
      m_targetPort := m_targetPort a; m_attackRate := m_attackRate a;
      m_packetSize := m_packetSize a; m_sendEvent := m_sendEvent a;
      m_running := false;
      m_packetsSent := m_packetsSent a |}, s1).

End WithSeconds.

End DDoSAttacker.

(** The generators under the scheduler. *)
Module Generator.
Import Simulator.

(** The two variants behind the one interface of [Application]. *)
Inductive t : Type :=
| Voip (a : VoipApplication.t)
| Flood (a : DDoSAttacker.t).

Definition sendEvent (g : t) : EventId :=
  match g with
  | Voip a => VoipApplication.m_sendEvent a
  | Flood a => DDoSAttacker.m_sendEvent a
  end.

Definition running (g : t) : bool :=
  match g with
  | Voip a => VoipApplication.m_running a
  | Flood a => DDoSAttacker.m_running a
  end.

Definition packetsSent (g : t) : Z :=
  match g with
  | Voip a => VoipApplication.m_packetsSent a
  | Flood a => DDoSAttacker.m_packetsSent a
  end.

Definition interval_seconds (g : t) : float :=
  match g with
  | Voip a => VoipApplication.interval_seconds a
  | Flood a => DDoSAttacker.interval_seconds a
  end.

Record World : Type := mkWorld { sim : Simulator.t; app : t }.

Section WithSeconds.

Variable Seconds : float -> Time.

Definition lift {A : Type} (wrap : A -> t) (r : A * Simulator.t) : World :=
  {| sim := snd r; app := wrap (fst r) |}.

(** The virtual call an event makes. *)
Definition invoke (impl : EventImpl) (w : World) : World :=
  match impl, app w with
  | EvStart, Voip a => lift Voip (VoipApplication.StartApplication Seconds a (sim w))
  | EvStop, Voip a => lift Voip (VoipApplication.StopApplication a (sim w))
  | EvSend, Voip a => lift Voip (VoipApplication.SendPacket Seconds a (sim w))
  | EvStart, Flood a => lift Flood (DDoSAttacker.StartApplication Seconds a (sim w))
  | EvStop, Flood a => lift Flood (DDoSAttacker.StopApplication a (sim w))
  | EvSend, Flood a => lift Flood (DDoSAttacker.SendAttackPacket Seconds a (sim w))
  end.

(** Modelled from the spec: one turn of [Simulator::Run()], the earliest
    pending event leaves the queue, the clock moves to its timestamp and its
    callback runs; with nothing pending the run is over. *)
Definition step (w : World) : option World :=
  match m_events (sim w) with
  | [] => None
  | e :: q =>
      let s1 :=
        {| Now := ev_ts e;
           m_uid := m_uid (sim w);
           m_events := q;
           m_trace := Invoked (ev_impl e) (ev_ts e) :: m_trace (sim w) |} in
      Some (invoke (ev_impl e) {| sim := s1; app := app w |})
  end.

Fixpoint run (fuel : nat) (w : World) : World :=
  match fuel with
  | O => w
  | S fuel' =>
      match step w with
      | None => w
      | Some w' => run fuel' w'
      end
  end.

End WithSeconds.

(** Modelled from the spec: the framework starts a generator at its start
    time and, when it has a stop time, stops it at that time; the two events
    are scheduled in this order before the run. *)
Definition boot (g : t) (start : Time) (stop : option Time) : World :=
  let s0 := {| Now := 0; m_uid := 0; m_events := []; m_trace := [] |} in
  let s1 := snd (Schedule start EvStart s0) in
  let s2 := match stop with
            | Some stop_time => snd (Schedule stop_time EvStop s1)
            | None => s1
            end in
  {| sim := s2; app := g |}.

(** The sends of a trace are [count] sends, the first at [first] and each
    next one [delta] later. *)
Definition paced (first delta : Time) (tr : list Obs) : Prop :=
  rev (send_times tr) =
    map (fun k => first + Z.of_nat k * delta) (seq 0 (length (send_times tr))).

(** Concrete generators: the flood of exercise 3 (1024 bytes at 2Mbps), the
    voice flow of exercise 2 (160 bytes at 64kbps, 1500 packets), the same
    with a limit of no packets and with three, and a voice flow with packets
    of [2^29] bytes. *)
Definition flood_2Mbps : t :=
  Flood (DDoSAttacker.Setup 167838210 9 2000000 DDoSAttacker.ctor).

Definition voip_with (packetSize nPackets : Z) : t :=
  Voip (VoipApplication.Setup Unbound 167838210 packetSize nPackets 64000
          VoipApplication.ctor).

(** Two conversions of a non-negative number of seconds to nanosecond
    ticks, both exact on the value of the double: to the nearest tick, and
    to the tick below. *)
Definition exact_ratio (f : float) : Z * Z :=
  match Prim2SF f with
  | S754_finite false m e =>
      if e <? 0 then (Z.pos m, 2 ^ (- e)) else (Z.pos m * 2 ^ e, 1)
  | _ => (0, 1)
  end.

Definition nanoseconds (seconds : float) : Time :=
  let '(p, q) := exact_ratio seconds in (2 * p * 1000000000 + q) / (2 * q).

Definition nanoseconds_below (seconds : float) : Time :=
  let '(p, q) := exact_ratio seconds in (p * 1000000000) / q.

End Generator.

(** Invariants of a run of a generator. *)
Module GeneratorInv.
Import Simulator Generator.

Definition pending (impl : EventImpl) (s : Simulator.t) : list Event :=
  filter (fun e => ev_impl e = impl) (m_events s).

Definition stop_seen (s : Simulator.t) : bool := existsb is_stop (m_trace s).

(** After the start: no start is pending; at most one send is pending and
    the generator holds its handle; once the stop has run no send is
    pending; and no send was observed after the stop. *)
Definition started (w : World) : Prop :=
  pending EvStart (sim w) = [] /\
  (pending EvSend (sim w) = [] \/
   exists e, pending EvSend (sim w) = [e] /\ sendEvent (app w) = Some (ev_uid e)) /\
  (stop_seen (sim w) = true -> pending EvSend (sim w) = []) /\
  no_send_after_stop (m_trace (sim w)).

(** The start time may not be later than the stop time, if there is one. *)
Definition boot_ok (start : Time) (stop : option Time) : Prop :=
  match stop with
  | Some stop_time => start <= stop_time
  | None => True
  end.

(** The sends so far are paced from [first] by [delta], and a pending send
    is due one [delta] after the last. *)
Definition on_pace (first delta : Time) (w : World) : Prop :=
  paced first delta (m_trace (sim w)) /\
  send_times (m_trace (sim w)) <> [] /\
  forall e, e ∈ pending EvSend (sim w) ->
    ev_ts e = first + Z.of_nat (length (send_times (m_trace (sim w)))) * delta.

(** Started, on pace, and with the interval the generator was set up with. *)
Definition pacing (Seconds : float -> Time) (first delta : Time) (w : World) : Prop :=
  started w /\ on_pace first delta w /\ Seconds (interval_seconds (app w)) = delta.

(** A voice flow with a limit of [n] packets that has started and is never
    stopped: its counter is the number of sends observed, and a send is
    pending exactly while the counter is below the limit. *)
Definition counting (n : Z) (w : World) : Prop :=
  exists a,
    app w = Voip a /\
    VoipApplication.m_running a = true /\
    VoipApplication.m_nPackets a = n /\
    VoipApplication.m_packetsSent a =
      Z.of_nat (length (send_times (m_trace (sim w)))) /\
    1 <= VoipApplication.m_packetsSent a <= Z.max 1 n /\
    ((VoipApplication.m_packetsSent a < n /\
      exists e, m_events (sim w) = [e] /\ ev_impl e = EvSend) \/
     (n <= VoipApplication.m_packetsSent a /\ m_events (sim w) = [])).

End GeneratorInv.

(** ** The per-flow statistics loops of exercises 1, 2 and 4 *)

Module FlowAnalysis.

(** [FlowMonitor::FlowStats], the fields the loops read. *)
Record FlowStats : Type := mkFlowStats {
  txPackets : Z;
  rxPackets : Z;
  lostPackets : Z;
  rxBytes : Z;                    (* uint64_t *)
  timeFirstTxPacket : Time;
  timeLastRxPacket : Time;
  delaySum : Time;
  jitterSum : Time
}.

Section WithGetSeconds.

(** The framework's [Time::GetSeconds()]. *)
Variable GetSeconds : Time -> float.

(** [s.timeLastRxPacket.GetSeconds() - s.timeFirstTxPacket.GetSeconds()] *)
Definition duration (s : FlowStats) : float :=
  (GetSeconds (timeLastRxPacket s) - GetSeconds (timeFirstTxPacket s))%float.

(** exercise1_multi_site_wan.cc:
    [if (duration <= 0.0) duration = 1e-9;] *)
Definition multi_site_divisor (s : FlowStats) : float :=
  if (duration s <=? 0)%float then 0x1.12e0be826d695p-30%float else duration s.


(** Exercise 2 (the QoS program): the difference itself is the divisor. *)
Definition qos_divisor (s : FlowStats) : float := duration s.


(** exercise4_multi_hop_wan.cc: the same, in Kbps. *)
Definition multi_hop_divisor (s : FlowStats) : float := duration s.


End WithGetSeconds.


(** A conversion of nanosecond ticks to seconds, for the examples. *)
Definition seconds_of_ns (t : Time) : float :=
  (double_of_Z t / 1000000000)%float.


End FlowAnalysis.

(** ** The routing table with primary and backup entries *)

Module Routing.

Inductive LinkState : Type := Up | Down.

(** The devices of a network, each with its MTU. *)
Definition Devices : Type := nat -> Z.

(** [a->SetMtu(v)] *)
Definition SetMtu (d : nat) (v : Z) (devs : Devices) : Devices :=
  fun x => if Nat.eqb x d then v else devs x.

(** [void FailLink(Ptr<NetDevice> a, Ptr<NetDevice> b)] of exercise 1,
    without its message on the console. *)
Definition FailLink (a b : nat) (devs : Devices) : Devices :=
  SetMtu b 0 (SetMtu a 0 devs).

(** A link joins two devices. *)
Record Link : Type := mkLink { end_a : nat; end_b : nat }.

(** Modelled from the spec: the state of a link, which the sources do not
    hold; a link disabled by zeroing the transmission unit size on both
    ends is Down. *)
Definition link_state (devs : Devices) (l : Link) : LinkState :=
  if (devs (end_a l) =? 0) && (devs (end_b l) =? 0) then Down else Up.

Inductive Tag : Type := primary | backup.

(** Modelled from the spec: a route entry (destination network, mask, next
    hop, egress link, metric, optional tag). *)
Record RouteEntry : Type := mkRoute {
  destination : Z;
  mask : Z;
  nextHop : Z;
  link : Link;
  metric : Z;
  tag : option Tag
}.

(** Modelled from the spec: the routing table, an insertion-ordered
    collection of entries. *)
Abbreviation RoutingTable := (list RouteEntry).

(** Modelled from the spec: [AddRoute] inserts an entry, with no uniqueness
    constraint. *)
Definition AddRoute (e : RouteEntry) (rt : RoutingTable) : RoutingTable := rt ++ [e].

(** Modelled from the spec: [RemoveRoute] removes all entries matching
    exactly. *)
Definition RemoveRoute (dest msk : Z) (rt : RoutingTable) : RoutingTable :=
  List.filter (fun e => negb ((destination e =? dest) && (mask e =? msk))) rt.

Definition is_up (st : LinkState) : bool :=
  match st with Up => true | Down => false end.

(** An entry is for a destination when the destination lies in its network. *)
Definition for_destination (dest : Z) (e : RouteEntry) : bool :=
  Z.land dest (mask e) =? Z.land (destination e) (mask e).

(** The entry of lowest metric, the first inserted among equals. *)
Fixpoint lowest (l : list RouteEntry) : option RouteEntry :=
  match l with
  | [] => None
  | e :: rest =>
      match lowest rest with
      | None => Some e
      | Some b => if metric e <=? metric b then Some e else Some b
      end
  end.

(** Modelled from the spec: [Lookup] (the lookup of the framework's static
    routing is not part of the sources) scans the entries for the
    destination, filters out any whose link is Down and returns the survivor
    with the lowest metric, the first inserted on ties, or nothing
    (unreachable). *)
Definition Lookup (state : Link -> LinkState) (rt : RoutingTable) (dest : Z)
    : option RouteEntry :=
  lowest (List.filter (fun e => for_destination dest e && is_up (state (link e))) rt).

(** The triangle of exercise 1 seen from HQ: the devices of the three links,
    the direct link to the data centre and the link to the branch, and a
    table with a metric-1 entry over the first and a metric-2 entry over the
    second. *)
Definition devices_up : Devices := fun _ => 1500.

Definition link_hq_dc : Link := mkLink 4 5.
Definition link_hq_branch : Link := mkLink 0 1.

Definition route_direct : RouteEntry :=
  mkRoute (Ipv4StaticRouting.ipv4 10 1 2 0) (Ipv4StaticRouting.ipv4 255 255 255 0)
    (Ipv4StaticRouting.ipv4 10 1 3 1) link_hq_dc 1 (Some primary).

Definition route_via_branch : RouteEntry :=
  mkRoute (Ipv4StaticRouting.ipv4 10 1 2 0) (Ipv4StaticRouting.ipv4 255 255 255 0)
    (Ipv4StaticRouting.ipv4 10 1 1 2) link_hq_branch 2 (Some backup).

Definition table_hq : RoutingTable :=
  AddRoute route_via_branch (AddRoute route_direct []).

(** [Simulator::Schedule(Seconds(4.0), &FailLink, d20.Get(0), d20.Get(1))]:
    the devices at a time, in milliseconds. *)
Definition devices_at (now : Time) : Devices :=
  if 4000 <=? now then FailLink 4 5 devices_up else devices_up.

End Routing.

(** ** exercise 3: the admission controller over a sequence of calls *)

Module AdmissionLog.
Import RateLimiter.

(** One call of [AllowPacket]: the packet, its source and the time. *)
Record Call : Type := mkCall { packet : Packet; from : Z; at_time : Time }.

Section WithResolution.

Variable second : Time.

(** The verdicts of a sequence of calls, and the limiter after them. *)
Fixpoint AllowPackets (calls : list Call) (st : t) : list bool * t :=
  match calls with
  | [] => ([], st)
  | c :: rest =>
      let '(ok, st1) := AllowPacket second (packet c) (from c) (at_time c) st in
      let '(oks, st2) := AllowPackets rest st1 in
      (ok :: oks, st2)
  end.

End WithResolution.

(** The number of calls that were denied. *)
Definition denied (oks : list bool) : Z :=
  Z.of_nat (length (filter (fun ok => ok = false) oks)).

(** The bytes of the packets that were admitted. *)
Fixpoint admitted_bytes (calls : list Call) (oks : list bool) : Z :=
  match calls, oks with
  | c :: calls', ok :: oks' =>
      (if ok then GetSize (packet c) else 0) + admitted_bytes calls' oks'
  | _, _ => 0
  end.

(** A call is inside the window of a limiter when it does not reset it. *)
Definition inside_window (st : t) (c : Call) : Prop :=
  at_time c - m_windowStart st < m_windowSize st.

(** Three calls on the limiter as constructed: two packets that fit, and one
    that alone is larger than the bytes of a window. *)
Definition three_calls : list Call :=
  [ mkCall (mkPacket 100000) 1 10;
    mkCall (mkPacket 125001) 2 20;
    mkCall (mkPacket 25000) 1 30 ].

End AdmissionLog.

(** ** exercise 5: the controller on any table *)

Module PbrTables.
Import Ipv4StaticRouting PbrController.

(** The entry a run of [Toggle] installs, by the flag of the controller. *)
Definition entry_for (state : bool) : Ipv4RoutingTableEntry :=
  if state
  then mkEntry destNet mask primaryHop 1
  else mkEntry destNet mask secondaryHop 2.

(** A table in which the watched destination has three entries, two of them
    next to each other, between routes to other destinations. *)
Definition crowded_routes : Ipv4StaticRouting.t :=
  [ mkEntry (ipv4 10 0 1 0) (ipv4 255 255 255 0) 0 1;
    mkEntry destNet mask primaryHop 1;
    mkEntry destNet mask secondaryHop 2;
    mkEntry (ipv4 10 100 1 0) (ipv4 255 255 255 0) 0 2;
    mkEntry destNet mask (ipv4 10 100 3 2) 3;
    mkEntry (ipv4 10 100 2 0) (ipv4 255 255 255 0) 0 3 ].

End PbrTables.

(** ** The flood under the scheduler, from its start to its stop *)

Module FloodRun.
Import Simulator Generator GeneratorInv.

(** The number of sends observed so far. *)
Definition sent (w : World) : Z :=
  Z.of_nat (length (send_times (m_trace (sim w)))).

(** The number of packets a flood sends when it starts at [start], is
    stopped at [stop] and sends every [delta] ticks: the first at the start,
    and one more for every multiple of [delta] that ends before the stop. *)
Definition sends_until (start stop delta : Time) : Z :=
  Z.max 1 ((stop - start + delta - 1) / delta).

(** A flood between its start and its stop: it is running, its counter is
    the number of sends observed, its interval is [delta] ticks, and the
    two events pending are its stop and its next send, which is due one
    interval after the last. *)
Definition flooding (Seconds : float -> Time) (start stop delta : Time) (w : World)
    : Prop :=
  exists a u,
    app w = Flood a /\
    DDoSAttacker.m_running a = true /\
    DDoSAttacker.m_sendEvent a = Some u /\
    DDoSAttacker.m_packetsSent a = wrap32 (sent w) /\
    Seconds (DDoSAttacker.interval_seconds a) = delta /\
    1 <= sent w /\
    stop_seen (sim w) = false /\
    Now (sim w) = start + (sent w - 1) * delta /\
    m_events (sim w) =
      Insert (mkEvent (start + sent w * delta) u EvSend) [mkEvent stop 1 EvStop].

(** A flood after its stop: nothing is pending. *)
Definition stopped (stop : Time) (w : World) : Prop :=
  m_events (sim w) = [] /\
  running (app w) = false /\
  stop_seen (sim w) = true /\
  Now (sim w) = stop /\
  packetsSent (app w) = wrap32 (sent w).

(** The bits of a packet as the interval has them, [m_packetSize * 8] in
    32 bits, and the rate in bits per second. *)
Definition packet_bits (g : t) : Z :=
  match g with
  | Voip a => wrap32 (VoipApplication.m_packetSize a * 8)
  | Flood a => wrap32 (DDoSAttacker.m_packetSize a * 8)
  end.

Definition bit_rate (g : t) : Z :=
  match g with
  | Voip a => VoipApplication.m_dataRate a
  | Flood a => DDoSAttacker.m_attackRate a
  end.

(** The generators as constructed, before any [Setup]. *)
Definition flood_unset : t := Flood DDoSAttacker.ctor.
Definition voip_unset : t := Voip VoipApplication.ctor.

(** A flood at a rate at which the interval is less than half a
    nanosecond. *)
Definition flood_too_fast : DDoSAttacker.t :=
  DDoSAttacker.Setup 167838210 9 20000000000000 DDoSAttacker.ctor.

End FloodRun.

(** ** The voice flow under the scheduler, from its start to its stop *)

Module VoiceRun.
Import Simulator Generator GeneratorInv FloodRun.

(** A voice flow with a limit of [n] packets between its start and its
    stop: it is running, its counter is the number of sends observed, and
    besides its stop its next send is pending, one interval after the last,
    as long as the counter is below the limit. *)
Definition voicing (Seconds : float -> Time) (start stop delta : Time) (n : Z)
    (w : World) : Prop :=
  exists a,
    app w = Voip a /\
    VoipApplication.m_running a = true /\
    VoipApplication.m_nPackets a = n /\
    Seconds (VoipApplication.interval_seconds a) = delta /\
    VoipApplication.m_packetsSent a = sent w /\
    1 <= sent w <= Z.max 1 n /\
    stop_seen (sim w) = false /\
    ((sent w < n /\
      exists u, VoipApplication.m_sendEvent a = Some u /\
                m_events (sim w) =
                  Insert (mkEvent (start + sent w * delta) u EvSend)
                    [mkEvent stop 1 EvStop]) \/
     (n <= sent w /\ m_events (sim w) = [mkEvent stop 1 EvStop])).

(** The number of packets of a voice flow that is stopped: its limit, or
    the packets its time allows if they are fewer. *)
Definition voice_sends (n : Z) (start stop delta : Time) : Z :=
  Z.min (Z.max 1 n) (sends_until start stop delta).

End VoiceRun.

(** ** The statistics loops of exercises 2, 3 and 4 beyond the throughput *)

Module FlowReports.
Import FlowAnalysis.

(** [Ipv4FlowClassifier::FiveTuple] *)
Record FiveTuple : Type := mkFiveTuple {
  sourceAddress : Z;
  destinationAddress : Z;
  protocol : Z;
  sourcePort : Z;
  destinationPort : Z
}.

(** The quotient of two integers, as C++ has it: rounded towards zero, and
    undefined ([None]) for a divisor of zero. *)
Definition int_div (a b : Z) : option Z :=
  if b =? 0 then None else Some (Z.quot a b).

Section WithClock.

(** The framework's [Time::GetSeconds()] and [Time::GetMilliSeconds()]. *)
Variable GetSeconds : Time -> float.
Variable GetMilliSeconds : Time -> Z.

(** [(txPackets > 0) ? (double)lostPackets / txPackets * 100.0 : 0] *)
Definition lossRatio (s : FlowStats) : float :=
  if 0 <? txPackets s
  then (double_of_Z (lostPackets s) / double_of_Z (txPackets s) * 100)%float
  else 0%float.

(** [delaySum.GetMilliSeconds() / rxPackets]: a quotient of integers. *)
Definition avgDelay (s : FlowStats) : option Z :=
  int_div (GetMilliSeconds (delaySum s)) (rxPackets s).

(** [(rxPackets > 1) ? jitterSum.GetMilliSeconds() / (rxPackets - 1) : 0];
    the difference is a [uint32_t]. *)
Definition avgJitter (s : FlowStats) : option Z :=
  if 1 <? rxPackets s
  then int_div (GetMilliSeconds (jitterSum s)) (wrap32 (rxPackets s - 1))
  else Some 0.

(** *** Exercise 2: voice and bulk flows *)

Record QosTotals : Type := mkQosTotals {
  voipAvgDelay : float;
  voipAvgJitter : float;
  voipLoss : float;
  ftpThroughput : float;
  ftpLoss : float;
  voipFlows : Z;               (* int *)
  ftpFlows : Z                 (* int *)
}.

Definition qos_zero : QosTotals :=
  mkQosTotals 0 0 0 0 0 0 0.

Definition voipPort : Z := 5060.

(** [bool isVoip = (t.destinationPort == voipPort);] *)
Definition isVoip (t : FiveTuple) : bool := destinationPort t =? voipPort.

(** One turn of [for (auto& flow : stats)], without its output: [None]
    stands for a division of integers by zero. *)
Definition qos_flow (tot : QosTotals) (flow : FiveTuple * FlowStats)
    : option QosTotals :=
  let '(t, s) := flow in
  if 0 <? rxPackets s then
    match avgDelay s, avgJitter s with
    | Some d, Some j =>
        let throughput :=
          (double_of_Z (rxBytes s) * 8 / qos_divisor GetSeconds s / 1000000)%float in
        if isVoip t then
          Some {| voipAvgDelay := (voipAvgDelay tot + double_of_Z d)%float;
                  voipAvgJitter := (voipAvgJitter tot + double_of_Z j)%float;
                  voipLoss := (voipLoss tot + lossRatio s)%float;
                  ftpThroughput := ftpThroughput tot;
                  ftpLoss := ftpLoss tot;
                  voipFlows := voipFlows tot + 1;
                  ftpFlows := ftpFlows tot |}
        else
          Some {| voipAvgDelay := voipAvgDelay tot;
                  voipAvgJitter := voipAvgJitter tot;
                  voipLoss := voipLoss tot;
                  ftpThroughput := (ftpThroughput tot + throughput)%float;
                  ftpLoss := (ftpLoss tot + lossRatio s)%float;
                  voipFlows := voipFlows tot;
                  ftpFlows := ftpFlows tot + 1 |}
    | _, _ => None
    end
  else Some tot.

Fixpoint qos_loop (tot : QosTotals) (stats : list (FiveTuple * FlowStats))
    : option QosTotals :=
  match stats with
  | [] => Some tot
  | flow :: rest =>
      match qos_flow tot flow with
      | Some tot1 => qos_loop tot1 rest
      | None => None
      end
  end.

End WithClock.

(** The grade of the voice flows in the summary. *)
Inductive Quality : Type := EXCELLENT | GOOD | ACCEPTABLE | POOR.

(** [if (avgDelay < 150 && avgLoss < 1.0) ... else if (avgDelay < 300 &&
    avgLoss < 3.0) ... else if (avgDelay < 400 && avgLoss < 5.0) ... else] *)
Definition quality (avgDelay avgLoss : float) : Quality :=
  if (avgDelay <? 150)%float && (avgLoss <? 1)%float then EXCELLENT
  else if (avgDelay <? 300)%float && (avgLoss <? 3)%float then GOOD
  else if (avgDelay <? 400)%float && (avgLoss <? 5)%float then ACCEPTABLE
  else POOR.

(** [if (voipFlows > 0)]: the grade of [voipAvgDelay / voipFlows] and
    [voipLoss / voipFlows]. *)
Definition summary_quality (tot : QosTotals) : option Quality :=
  if 0 <? voipFlows tot
  then Some (quality (voipAvgDelay tot / double_of_Z (voipFlows tot))%float
                     (voipLoss tot / double_of_Z (voipFlows tot))%float)
  else None.

(** The grades from best to worst. *)
Definition rank (q : Quality) : Z :=
  match q with EXCELLENT => 0 | GOOD => 1 | ACCEPTABLE => 2 | POOR => 3 end.

(** The number of flows of a list that satisfy a test. *)
Definition count {A : Type} (test : A -> bool) (l : list A) : Z :=
  Z.of_nat (length (List.filter test l)).

(** Flows for the examples: a voice flow of three packets with delays of
    20, 21 and 22 milliseconds, a bulk flow of one packet, and a flow that
    received nothing. *)
Definition milliseconds_of_ns (t : Time) : Z := Z.quot t 1000000.

Definition voice_flow : FiveTuple * FlowStats :=
  (mkFiveTuple 167837953 167838210 17 49153 5060,
   {| txPackets := 3; rxPackets := 3; lostPackets := 0; rxBytes := 480;
      timeFirstTxPacket := 2000000000; timeLastRxPacket := 2062000000;
      delaySum := 63000000; jitterSum := 2000000 |}).

Definition bulk_flow : FiveTuple * FlowStats :=
  (mkFiveTuple 167837953 167838210 6 49154 21,
   {| txPackets := 2; rxPackets := 1; lostPackets := 1; rxBytes := 1460;
      timeFirstTxPacket := 3000000000; timeLastRxPacket := 3015000000;
      delaySum := 15000000; jitterSum := 0 |}).

Definition silent_flow : FiveTuple * FlowStats :=
  (mkFiveTuple 167837953 167838210 6 49155 22,
   {| txPackets := 4; rxPackets := 0; lostPackets := 4; rxBytes := 0;
      timeFirstTxPacket := 4000000000; timeLastRxPacket := 0;
      delaySum := 0; jitterSum := 0 |}).

End FlowReports.

(** ** exercise 4: the business impact of a flow *)

Module BusinessImpact.

(** The status the loop prints for a flow. *)
Inductive Status : Type := EXCELLENT | ACCEPTABLE | DEGRADED.

(** [if (avgDelay < 100 && lossRatio < 1.0) ... else if (avgDelay < 250 &&
    lossRatio < 5.0) ... else] *)
Definition business_impact (avgDelay lossRatio : float) : Status :=
  if (avgDelay <? 100)%float && (lossRatio <? 1)%float then EXCELLENT
  else if (avgDelay <? 250)%float && (lossRatio <? 5)%float then ACCEPTABLE
  else DEGRADED.

(** The statuses from best to worst. *)
Definition severity (st : Status) : Z :=
  match st with EXCELLENT => 0 | ACCEPTABLE => 1 | DEGRADED => 2 end.

End BusinessImpact.

(** ** exercise 3: the security analysis after the run *)

Module SecurityAnalysis.
Import FlowAnalysis FlowReports.

Record Totals : Type := mkTotals {
  legitimateRx : Z;            (* uint64_t *)
  legitimateTx : Z;            (* uint64_t *)
  attackRx : Z;                (* uint64_t *)
  attackTx : Z;                (* uint64_t *)
  legitimateDelay : float;
  legitimateFlows : Z          (* int *)
}.

Definition security_zero : Totals := mkTotals 0 0 0 0 0 0.

(** The four counters hold values of their type. *)
Definition in_range (tot : Totals) : Prop :=
  is_uint64 (legitimateTx tot) /\ is_uint64 (legitimateRx tot) /\
  is_uint64 (attackTx tot) /\ is_uint64 (attackRx tot).

(** The network of the [i]-th attacker:
    [subnet << "10.1." << (10 + i) << ".0"]. *)
Definition attacker_subnet (i : Z) : Z := Ipv4StaticRouting.ipv4 10 1 (10 + i) 0.

(** [t.sourceAddress.Get() >= Ipv4Address("10.1.10.0").Get()] *)
Definition isAttack (t : FiveTuple) : bool :=
  Ipv4StaticRouting.ipv4 10 1 10 0 <=? sourceAddress t.

Section WithClock.

Variable GetMilliSeconds : Time -> Z.

(** The address of the client, [ifClientRouter.GetAddress(0)]. *)
Variable client : Z.

(** [t.sourceAddress == ifClientRouter.GetAddress(0)] *)
Definition isLegitimate (t : FiveTuple) : bool := sourceAddress t =? client.

(** One turn of [for (auto& flow : stats)]: [None] stands for a division
    of integers by zero. *)
Definition security_flow (tot : Totals) (flow : FiveTuple * FlowStats)
    : option Totals :=
  let '(t, s) := flow in
  if isLegitimate t then
    let tx := wrap64 (legitimateTx tot + txPackets s) in
    let rx := wrap64 (legitimateRx tot + rxPackets s) in
    if 0 <? rxPackets s then
      match avgDelay GetMilliSeconds s with
      | Some d =>
          Some {| legitimateRx := rx; legitimateTx := tx;
                  attackRx := attackRx tot; attackTx := attackTx tot;
                  legitimateDelay := (legitimateDelay tot + double_of_Z d)%float;
                  legitimateFlows := legitimateFlows tot + 1 |}
      | None => None
      end
    else
      Some {| legitimateRx := rx; legitimateTx := tx;
              attackRx := attackRx tot; attackTx := attackTx tot;
              legitimateDelay := legitimateDelay tot;
              legitimateFlows := legitimateFlows tot |}
  else if isAttack t then
    Some {| legitimateRx := legitimateRx tot; legitimateTx := legitimateTx tot;
            attackRx := wrap64 (attackRx tot + rxPackets s);
            attackTx := wrap64 (attackTx tot + txPackets s);
            legitimateDelay := legitimateDelay tot;
            legitimateFlows := legitimateFlows tot |}
  else Some tot.

Fixpoint security_loop (tot : Totals) (stats : list (FiveTuple * FlowStats))
    : option Totals :=
  match stats with
  | [] => Some tot
  | flow :: rest =>
      match security_flow tot flow with
      | Some tot1 => security_loop tot1 rest
      | None => None
      end
  end.

(** The flows the loop takes for the client's, and for an attacker's. *)
Definition counted_legitimate (flow : FiveTuple * FlowStats) : bool :=
  isLegitimate (fst flow).

Definition counted_attack (flow : FiveTuple * FlowStats) : bool :=
  negb (isLegitimate (fst flow)) && isAttack (fst flow).

End WithClock.

(** The sum of a field over the flows that satisfy a test. *)
Definition total (field : FlowStats -> Z) (test : FiveTuple * FlowStats -> bool)
    (stats : list (FiveTuple * FlowStats)) : Z :=
  fold_right Z.add 0 (map (fun flow => field (snd flow)) (List.filter test stats)).

(** [(legitimateTx - legitimateRx)] and [(attackTx - attackRx)], differences
    of [uint64_t]. *)
Definition legitimateLoss (tot : Totals) : Z :=
  wrap64 (legitimateTx tot - legitimateRx tot).

Definition blocked (tot : Totals) : Z := wrap64 (attackTx tot - attackRx tot).

(** The flows of an example: the client's at 10.1.1.1, the server's reply
    from 10.1.2.2, and a flood from 10.1.10.1. *)
Definition client_flow : FiveTuple * FlowStats :=
  (mkFiveTuple (Ipv4StaticRouting.ipv4 10 1 1 1) (Ipv4StaticRouting.ipv4 10 1 2 2) 17 49153 9,
   {| txPackets := 10; rxPackets := 8; lostPackets := 2; rxBytes := 8416;
      timeFirstTxPacket := 2000000000; timeLastRxPacket := 3000000000;
      delaySum := 208000000; jitterSum := 0 |}).

Definition reply_flow : FiveTuple * FlowStats :=
  (mkFiveTuple (Ipv4StaticRouting.ipv4 10 1 2 2) (Ipv4StaticRouting.ipv4 10 1 1 1) 17 9 49153,
   {| txPackets := 8; rxPackets := 8; lostPackets := 0; rxBytes := 8416;
      timeFirstTxPacket := 2026000000; timeLastRxPacket := 3052000000;
      delaySum := 208000000; jitterSum := 0 |}).

Definition flood_flow : FiveTuple * FlowStats :=
  (mkFiveTuple (Ipv4StaticRouting.ipv4 10 1 10 1) (Ipv4StaticRouting.ipv4 10 1 2 2) 17 49153 9,
   {| txPackets := 1000; rxPackets := 400; lostPackets := 600; rxBytes := 420800;
      timeFirstTxPacket := 10000000000; timeLastRxPacket := 14000000000;
      delaySum := 16000000000; jitterSum := 0 |}).

End SecurityAnalysis.

(** ** exercise 3: [class EavesdroppingNode] and the sniffer callback *)

Module EavesdroppingNode.

Record t : Type := mk {
  m_targetNode : option nat;
  m_interceptedPackets : Z     (* uint32_t *)
}.

(** [EavesdroppingNode::EavesdroppingNode() : m_interceptedPackets(0)] *)
Definition ctor : t := {| m_targetNode := None; m_interceptedPackets := 0 |}.

Definition SetNode (node : nat) (e : t) : t :=
  {| m_targetNode := Some node; m_interceptedPackets := m_interceptedPackets e |}.

Definition GetInterceptedPackets (e : t) : Z := m_interceptedPackets e.

(** [StartApplication] and [StopApplication] write to the log only. *)
Definition StartApplication (e : t) : t := e.
Definition StopApplication (e : t) : t := e.

(** [void PacketSniffed(Ptr<const Packet> packet)], a private member that
    no member calls and no trace source is connected to. *)
Definition PacketSniffed (size : Z) (e : t) : t :=
  {| m_targetNode := m_targetNode e;
     m_interceptedPackets := wrap32 (m_interceptedPackets e + 1) |}.

(** What the rest of the program can do with the object: call its public
    member, and, through the framework, start and stop it. *)
Inductive Call : Type :=
| CallSetNode (node : nat)
| CallStartApplication
| CallStopApplication.

Definition call (e : t) (c : Call) : t :=
  match c with
  | CallSetNode node => SetNode node e
  | CallStartApplication => StartApplication e
  | CallStopApplication => StopApplication e
  end.

Definition calls (cs : list Call) (e : t) : t := fold_left call cs e.

End EavesdroppingNode.

(** [uint32_t g_eavesdroppedPackets] and
    [void PacketSnifferCallback(std::string context, Ptr<const Packet> packet)] *)
Module Sniffer.

Definition g_eavesdroppedPackets_init : Z := 0.

Definition PacketSnifferCallback (size : Z) (g_eavesdroppedPackets : Z) : Z :=
  wrap32 (g_eavesdroppedPackets + 1).

(** The counter after the callback has run for each packet of a list. *)
Definition sniff (sizes : list Z) (g_eavesdroppedPackets : Z) : Z :=
  fold_left (fun g size => PacketSnifferCallback size g) sizes g_eavesdroppedPackets.

End Sniffer.

(** ** exercise 1 (multi-site): the latency callbacks *)

Module LatencyTrace.
Import stdpp.gmap.
Local Open Scope Z_scope.

(** [static std::map<uint32_t, Time> packetSentTimes;] *)
Abbreviation SentTimes := (gmap Z Time).

(** The key of a packet: its identifier, [packet->GetUid()], converted to
    the [uint32_t] of the map. *)
Definition key (uid : Z) : Z := wrap32 uid.

(** [void TxCallback(std::string context, Ptr<const Packet> packet)] at
    [now = Simulator::Now()]. *)
Definition TxCallback (uid : Z) (now : Time) (packetSentTimes : SentTimes) : SentTimes :=
  <[key uid := now]> packetSentTimes.

(** [void RxCallback(std::string context, Ptr<const Packet> packet)]: the
    latency it writes to the log, if it writes one.  The map is not
    changed. *)
Definition RxCallback (uid : Z) (now : Time) (packetSentTimes : SentTimes)
    : option Time :=
  match packetSentTimes !! key uid with
  | Some sent => Some (now - sent)
  | None => None
  end.

(** The map after the transmissions of a list, oldest first, each with the
    identifier of its packet and its time. *)
Definition transmissions (txs : list (Z * Time)) (packetSentTimes : SentTimes)
    : SentTimes :=
  fold_left (fun m tx => TxCallback (fst tx) (snd tx) m) txs packetSentTimes.

(** The time of the last transmission of a list under a key. *)
Definition last_sent (k : Z) (txs : list (Z * Time)) : option Time :=
  fold_left (fun found tx => if key (fst tx) =? k then Some (snd tx) else found)
    txs None.

End LatencyTrace.

(** ** The packets of a generator *)

Module PacketMarks.
Import Simulator Generator.

(** The packets a generator hands to its socket: their size, and the
    type-of-service mark of the voice flow ([0xB8], expedited forwarding),
    which the flood does not set. *)
Definition packet_of (g : t) : Z * option Z :=
  match g with
  | Voip a => (VoipApplication.m_packetSize a, Some 184)
  | Flood a => (DDoSAttacker.m_packetSize a, None)
  end.

(** Every packet observed is the packet [pk]. *)
Definition all_packets (pk : Z * option Z) (tr : list Obs) : Prop :=
  Forall (fun o => match o with
                   | Sent size tos _ => (size, tos) = pk
                   | Invoked _ _ => True
                   end) tr.

End PacketMarks.

(** ** exercise 3: the admission controller at the highest rate *)

Module TopRate.
Import RateLimiter.

(** The highest rate a [DataRate] holds, [2^64 - 1] bits per second, on
    nanosecond ticks. *)
Definition limiter_top_rate : t := SetLimit (2 ^ 64 - 1) (ctor ns_per_second).

(** Packets of [2^31] bytes. *)
Definition large_packet : Packet := mkPacket (2 ^ 31).

(** A burst of [2^30] packets, all at the start of the run. *)
Definition burst_length : nat := Z.to_nat (2 ^ 30).

Definition burst : list Time := repeat 0 burst_length.

(** The limiter at that rate once [2^30 - 1] packets of [2^31] bytes have
    been admitted to its window. *)
Definition limiter_top_rate_filled : t :=
  {| m_rateLimit := 2 ^ 64 - 1;
     m_windowSize := ns_per_second;
     m_bytesInWindow := (2 ^ 30 - 1) * 2 ^ 31;
     m_windowStart := 0;
     m_droppedPackets := 0 |}.

End TopRate.

(** ** A flow over a link with a delay *)

Module DelayedFlow.
Import FlowAnalysis.

(** A flow whose only packet is received one nanosecond after it was
    sent. *)
Definition delayed_flow : FlowStats :=
  {| txPackets := 1; rxPackets := 1; lostPackets := 0; rxBytes := 160;
     timeFirstTxPacket := 2000000000; timeLastRxPacket := 2000000001;
     delaySum := 1; jitterSum := 0 |}.

End DelayedFlow.

(** ** The interval between two sends *)

Module SendInterval.
Import Simulator Generator PacketMarks.

(** The size of the packets of a generator, in bytes. *)
Definition packet_size (g : t) : Z := fst (packet_of g).

(** The times of the sends of a run, the first send first. *)
Definition send_log (w : World) : list Time := rev (send_times (m_trace (sim w))).

End SendInterval.

(** * Properties *)

Ltac unfold_ranges :=
  unfold is_uint64, is_uint32, UINT64_MOD, UINT32_MOD in *.

(** ** Conversions between integers and doubles *)

Lemma to_double_small (z : Z) : z < 2 ^ 53 -> to_double z = z.
Proof.
  intros Hz. unfold to_double.
  destruct (Z.ltb_spec z (2 ^ 53)); [reflexivity | lia].
Qed.

Lemma to_double_bounds (z : Z) : 0 <= z -> 0 <= to_double z <= 2 * z.
Proof.
  intros Hz. unfold to_double.
  destruct (Z.ltb_spec z (2 ^ 53)) as [Hlt | Hge]; [lia |].
  assert (Hpos : 0 < z) by lia.
  destruct (Z.log2_spec z Hpos) as [Hlo Hhi].
  assert (Hlog : 53 <= Z.log2 z).
  { destruct (Z.le_gt_cases 53 (Z.log2 z)) as [H | H]; [exact H |].
    assert (2 ^ Z.succ (Z.log2 z) <= 2 ^ 53) by (apply Z.pow_le_mono_r; lia).
    lia. }
  set (sh := Z.log2 z - 52) in *.
  assert (Hsh : 1 <= sh) by (unfold sh; lia).
  assert (Hpow : 0 < 2 ^ sh) by (apply Z.pow_pos_nonneg; lia).
  assert (Hsplit : 2 ^ Z.log2 z = 2 ^ 52 * 2 ^ sh).
  { rewrite <- Z.pow_add_r by lia. f_equal. unfold sh. lia. }
  pose proof (Z.div_mod z (2 ^ sh) ltac:(lia)) as Hdm.
  pose proof (Z.mod_pos_bound z (2 ^ sh) Hpow) as Hr.
  set (q := z / 2 ^ sh) in *. set (r := z mod 2 ^ sh) in *.
  assert (Hq : 2 ^ 52 <= q).
  { destruct (Z.le_gt_cases (2 ^ 52) q) as [H | H]; [exact H |].
    assert (q + 1 <= 2 ^ 52) by lia.
    assert ((q + 1) * 2 ^ sh <= 2 ^ 52 * 2 ^ sh) by (apply Z.mul_le_mono_nonneg_r; lia).
    lia. }
  assert (Hq1 : 0 <= q * 2 ^ sh <= z) by nia.
  destruct ((2 ^ (sh - 1) <? r) || ((r =? 2 ^ (sh - 1)) && Z.odd q)); nia.
Qed.

Lemma to_double_0 : to_double 0 = 0.
Proof. reflexivity. Qed.

(** *** Agreement of [to_double] with the binary64 conversion

    The lemmas below follow the conversion [binary_normalize] through its
    alignment, shift and rounding steps. *)

Lemma digits2_pos_spec (m : positive) :
  2 ^ (Z.pos (digits2_pos m) - 1) <= Z.pos m < 2 ^ Z.pos (digits2_pos m).
Proof.
  induction m as [m IH | m IH |]; cbn [digits2_pos].
  - rewrite Pos2Z.inj_succ.
    replace (Z.succ (Z.pos (digits2_pos m)) - 1)
      with (Z.succ (Z.pos (digits2_pos m) - 1)) by lia.
    rewrite !Z.pow_succ_r by lia. lia.
  - rewrite Pos2Z.inj_succ.
    replace (Z.succ (Z.pos (digits2_pos m)) - 1)
      with (Z.succ (Z.pos (digits2_pos m) - 1)) by lia.
    rewrite !Z.pow_succ_r by lia. lia.
  - cbn. lia.
Qed.

Lemma iter_xO (m : positive) (k : positive) :
  Z.pos (Pos.iter xO m k) = Z.pos m * 2 ^ Z.pos k /\
  digits2_pos (Pos.iter xO m k) = (digits2_pos m + k)%positive.
Proof.
  revert m. induction k as [| k IH] using Pos.peano_ind; intros m.
  - cbn. split; lia.
  - rewrite Pos.iter_succ. cbn [digits2_pos]. destruct (IH m) as [H1 H2].
    rewrite Pos2Z.inj_xO, H1, H2, Pos2Z.inj_succ, Z.pow_succ_r by lia. split; lia.
Qed.

Lemma fexp64 (e : Z) : -1021 <= e -> fexp prec emax e = e - 53.
Proof. intros H. unfold fexp, emin, prec, emax. lia. Qed.

Lemma binary_round_aux_exact (m : positive) (e : Z) :
  Z.pos (digits2_pos m) = 53 -> -1074 <= e <= 971 ->
  binary_round_aux prec emax false (Z.pos m) e loc_Exact = S754_finite false m e.
Proof.
  intros Hd He. unfold binary_round_aux, shr_fexp. cbn [Zdigits2 shr_record_of_loc].
  rewrite Hd.
  assert (Hf : fexp prec emax (53 + e) = e) by (unfold fexp, emin, prec, emax; lia).
  rewrite Hf, Z.sub_diag.
  cbn [shr shr_m loc_of_shr_record round_nearest_even Zdigits2 shr_record_of_loc].
  rewrite Hd, Hf, Z.sub_diag. cbn [shr shr_m].
  destruct (Z.leb_spec e (emax - prec)); [reflexivity |]. unfold emax, prec in *. lia.
Qed.

Lemma binary_normalize_small (m : positive) :
  Z.pos m < 2 ^ 53 ->
  exists mz e,
    binary_normalize prec emax (Z.pos m) 0 false = S754_finite false mz e /\
    valid_binary (S754_finite false mz e) = true /\
    -52 <= e <= 0 /\ Z.pos mz = Z.pos m * 2 ^ (- e).
Proof.
  intros Hm. pose proof (digits2_pos_spec m) as Hd.
  assert (Hd53 : Z.pos (digits2_pos m) <= 53).
  { destruct (Z.le_gt_cases (Z.pos (digits2_pos m)) 53) as [H | H]; [exact H |].
    assert (2 ^ 53 <= 2 ^ (Z.pos (digits2_pos m) - 1)) by (apply Z.pow_le_mono_r; lia).
    lia. }
  unfold binary_normalize, binary_round. cbn [Zdigits2].
  rewrite Z.add_0_r, fexp64 by lia. unfold shl_align.
  replace (IntDef.Z.sub (Z.pos (digits2_pos m) - 53) 0) with (Z.pos (digits2_pos m) - 53)
    by (symmetry; apply Z.sub_0_r).
  destruct (Z.pos (digits2_pos m) - 53) as [| p | p] eqn:Hp; try lia.
  - exists m, 0. rewrite binary_round_aux_exact by lia.
    repeat split; try lia.
    unfold valid_binary, SpecFloat.valid_binary, bounded, canonical_mantissa.
    replace (Z.pos (digits2_pos m)) with 53 by lia. reflexivity.
  - destruct (iter_xO m p) as [Hv Hdig].
    exists (Pos.iter xO m p), (Z.neg p).
    assert (Hd' : Z.pos (digits2_pos (Pos.iter xO m p)) = 53).
    { rewrite Hdig, Pos2Z.inj_add. lia. }
    rewrite binary_round_aux_exact by lia.
    repeat split; try lia.
    + unfold valid_binary, SpecFloat.valid_binary, bounded, canonical_mantissa. rewrite Hd'.
      apply andb_true_intro. split.
      * apply Z.eqb_eq. unfold fexp, emin, prec, emax. lia.
      * apply Z.leb_le. unfold emax, prec. lia.
    + rewrite Hv. reflexivity.
Qed.

Lemma double_of_Z_exact (z : Z) :
  0 <= z < 2 ^ 53 -> float_to_Z (double_of_Z z) = z.
Proof.
  intros Hz. destruct z as [| m | m]; [reflexivity | | lia].
  destruct (binary_normalize_small m (proj2 Hz)) as (mz & e & Hn & Hv & He & Hmz).
  unfold float_to_Z, double_of_Z. rewrite Hn, (Prim2SF_SF2Prim _ Hv).
  destruct (Z.ltb_spec e 0).
  - rewrite Hmz. apply Z.div_mul. apply Z.pow_nonzero; lia.
  - replace e with 0 in * by lia. cbn in Hmz. lia.
Qed.

Lemma iter_pos_nat {A : Type} (f : A -> A) (p : positive) :
  forall x, SpecFloat.iter_pos f p x = Nat.iter (Pos.to_nat p) f x.
Proof.
  induction p as [p IH | p IH |]; intros x; cbn [SpecFloat.iter_pos].
  - rewrite !IH, Pos2Nat.inj_xI.
    replace (S (2 * Pos.to_nat p)) with (Pos.to_nat p + (Pos.to_nat p + 1))%nat by lia.
    rewrite !Nat.iter_add. reflexivity.
  - rewrite !IH, Pos2Nat.inj_xO.
    replace (2 * Pos.to_nat p)%nat with (Pos.to_nat p + Pos.to_nat p)%nat by lia.
    rewrite Nat.iter_add. reflexivity.
  - reflexivity.
Qed.

(** One step of the shift on a non-negative mantissa. *)
Lemma shr_1_spec (m : Z) (r s : bool) :
  0 <= m ->
  shr_1 {| shr_m := m; shr_r := r; shr_s := s |} =
    {| shr_m := m / 2; shr_r := Z.odd m; shr_s := r || s |}.
Proof.
  intros Hm. unfold shr_1.
  destruct m as [| [p | p |] | p]; try lia; cbn [Z.odd]; f_equal.
  - rewrite Pos2Z.inj_xI. apply Z.div_unique with (r := 1); lia.
  - rewrite Pos2Z.inj_xO. apply Z.div_unique with (r := 0); lia.
Qed.

Lemma iter_shr_1 (k : nat) (m : Z) :
  0 <= m ->
  Nat.iter (S k) shr_1 {| shr_m := m; shr_r := false; shr_s := false |} =
    {| shr_m := m / 2 ^ Z.of_nat (S k);
       shr_r := Z.testbit m (Z.of_nat k);
       shr_s := negb (m mod 2 ^ Z.of_nat k =? 0) |}.
Proof.
  intros Hm. induction k as [| k IH].
  - cbn [Nat.iter]. rewrite shr_1_spec by lia.
    change (Z.of_nat 1) with 1. change (Z.of_nat 0) with 0.
    rewrite Z.pow_1_r, Z.pow_0_r, Z.mod_1_r, Z.bit0_odd. reflexivity.
  - rewrite Nat.iter_succ, IH. rewrite shr_1_spec by (apply Z.div_pos; lia).
    f_equal.
    + rewrite Z.div_div by (try apply Z.pow_pos_nonneg; lia).
      rewrite (Nat2Z.inj_succ (S k)), Z.pow_succ_r by lia. f_equal. lia.
    + rewrite <- Z.bit0_odd, Z.div_pow2_bits by lia. f_equal.
    + rewrite (Nat2Z.inj_succ k), Z.pow_succ_r by lia.
      assert (Hp : 0 < 2 ^ Z.of_nat k) by (apply Z.pow_pos_nonneg; lia).
      pose proof (Z.testbit_spec' m (Z.of_nat k) ltac:(lia)) as Hb.
      rewrite (Z.mul_comm 2), Z.rem_mul_r by lia.
      pose proof (Z.mod_pos_bound m (2 ^ Z.of_nat k) Hp) as Hr.
      rewrite <- Hb.
      destruct (Z.testbit m (Z.of_nat k)); cbn [Z.b2z orb];
        destruct (Z.eqb_spec (m mod 2 ^ Z.of_nat k) 0) as [H0 | H0]; cbn [negb];
        symmetry; first [apply negb_true_iff; apply Z.eqb_neq; nia
                        | apply negb_false_iff; apply Z.eqb_eq; nia].
Qed.

Lemma Zdigits2_unique (x : positive) (k : Z) :
  2 ^ (k - 1) <= Z.pos x < 2 ^ k -> 1 <= k -> Z.pos (digits2_pos x) = k.
Proof.
  intros Hx Hk. pose proof (digits2_pos_spec x) as Hd.
  set (d := Z.pos (digits2_pos x)) in *.
  assert (Hd1 : 1 <= d) by (unfold d; lia).
  destruct (Z.lt_trichotomy d k) as [H | [H | H]]; [| exact H |].
  - assert (2 ^ d <= 2 ^ (k - 1)) by (apply Z.pow_le_mono_r; lia). lia.
  - assert (2 ^ k <= 2 ^ (d - 1)) by (apply Z.pow_le_mono_r; lia). lia.
Qed.

Lemma log2_digits (m : positive) : Z.log2 (Z.pos m) = Z.pos (digits2_pos m) - 1.
Proof.
  apply Z.log2_unique; [lia |]. pose proof (digits2_pos_spec m) as H.
  replace (Z.succ (Z.pos (digits2_pos m) - 1)) with (Z.pos (digits2_pos m)) by lia.
  exact H.
Qed.


Lemma shr_fexp_large (m : positive) (p : positive) :
  Z.pos (digits2_pos m) - 53 = Z.pos p ->
  shr_fexp prec emax (Z.pos m) 0 loc_Exact =
    ({| shr_m := Z.pos m / 2 ^ Z.pos p;
        shr_r := Z.testbit (Z.pos m) (Z.pos p - 1);
        shr_s := negb (Z.pos m mod 2 ^ (Z.pos p - 1) =? 0) |}, Z.pos p).
Proof.
  intros Hp. unfold shr_fexp. cbn [Zdigits2 shr_record_of_loc].
  rewrite Z.add_0_r, fexp64 by lia.
  replace (IntDef.Z.sub (Z.pos (digits2_pos m) - 53) 0)
    with (Z.pos (digits2_pos m) - 53) by (symmetry; apply Z.sub_0_r).
  rewrite Hp. cbn [shr]. rewrite iter_pos_nat.
  destruct (Pos.to_nat p) as [| k] eqn:Hk; [lia |].
  rewrite iter_shr_1 by lia.
  replace (Z.of_nat (S k)) with (Z.pos p) by lia.
  replace (Z.of_nat k) with (Z.pos p - 1) by lia.
  reflexivity.
Qed.

Lemma round_nearest_even_shr (z n : Z) :
  0 <= z -> 1 <= n ->
  round_nearest_even (z / 2 ^ n)
    (loc_of_shr_record
       {| shr_m := z / 2 ^ n;
          shr_r := Z.testbit z (n - 1);
          shr_s := negb (z mod 2 ^ (n - 1) =? 0) |}) =
  if (2 ^ (n - 1) <? z mod 2 ^ n) || ((z mod 2 ^ n =? 2 ^ (n - 1)) && Z.odd (z / 2 ^ n))
  then z / 2 ^ n + 1 else z / 2 ^ n.
Proof.
  intros Hz Hn.
  assert (Hh : 0 < 2 ^ (n - 1)) by (apply Z.pow_pos_nonneg; lia).
  assert (Hrem : z mod 2 ^ n =
                 z mod 2 ^ (n - 1) + 2 ^ (n - 1) * Z.b2z (Z.testbit z (n - 1))).
  { assert (Hpw : 2 ^ n = 2 ^ (n - 1) * 2).
    { replace n with (n - 1 + 1) at 1 by lia. rewrite Z.pow_add_r by lia. reflexivity. }
    rewrite Hpw, Z.rem_mul_r by lia.
    rewrite (Z.testbit_spec' z (n - 1)) by lia. reflexivity. }
  pose proof (Z.mod_pos_bound z (2 ^ (n - 1)) Hh) as Hlow.
  rewrite Hrem. unfold loc_of_shr_record, round_nearest_even.
  rewrite <- Z.negb_odd.
  destruct (Z.testbit z (n - 1)); cbn [Z.b2z];
    destruct (Z.eqb_spec (z mod 2 ^ (n - 1)) 0) as [H0 | H0]; cbn [negb].
  - rewrite H0, Z.add_0_l, Z.mul_1_r, Z.ltb_irrefl, Z.eqb_refl. cbn [orb andb].
    destruct (Z.odd (z / 2 ^ n)); reflexivity.
  - replace (2 ^ (n - 1) <? z mod 2 ^ (n - 1) + 2 ^ (n - 1) * 1) with true
      by (symmetry; apply Z.ltb_lt; lia).
    reflexivity.
  - replace (2 ^ (n - 1) <? z mod 2 ^ (n - 1) + 2 ^ (n - 1) * 0) with false
      by (symmetry; apply Z.ltb_ge; lia).
    replace (z mod 2 ^ (n - 1) + 2 ^ (n - 1) * 0 =? 2 ^ (n - 1)) with false
      by (symmetry; apply Z.eqb_neq; lia).
    reflexivity.
  - replace (2 ^ (n - 1) <? z mod 2 ^ (n - 1) + 2 ^ (n - 1) * 0) with false
      by (symmetry; apply Z.ltb_ge; lia).
    replace (z mod 2 ^ (n - 1) + 2 ^ (n - 1) * 0 =? 2 ^ (n - 1)) with false
      by (symmetry; apply Z.eqb_neq; lia).
    reflexivity.
Qed.

Lemma binary_normalize_large (m : positive) :
  2 ^ 53 <= Z.pos m < 2 ^ 64 ->
  exists mz e,
    binary_normalize prec emax (Z.pos m) 0 false = S754_finite false mz e /\
    valid_binary (S754_finite false mz e) = true /\
    0 <= e /\ Z.pos mz * 2 ^ e = to_double (Z.pos m).
Proof.
  intros Hm. pose proof (digits2_pos_spec m) as Hd.
  assert (Hd54 : 54 <= Z.pos (digits2_pos m) <= 64).
  { split.
    - destruct (Z.le_gt_cases 54 (Z.pos (digits2_pos m))) as [H | H]; [exact H |].
      assert (2 ^ Z.pos (digits2_pos m) <= 2 ^ 53) by (apply Z.pow_le_mono_r; lia). lia.
    - destruct (Z.le_gt_cases (Z.pos (digits2_pos m)) 64) as [H | H]; [exact H |].
      assert (2 ^ 64 <= 2 ^ (Z.pos (digits2_pos m) - 1)) by (apply Z.pow_le_mono_r; lia).
      lia. }
  unfold binary_normalize, binary_round. cbn [Zdigits2].
  rewrite Z.add_0_r, fexp64 by lia. unfold shl_align.
  replace (IntDef.Z.sub (Z.pos (digits2_pos m) - 53) 0)
    with (Z.pos (digits2_pos m) - 53) by (symmetry; apply Z.sub_0_r).
  destruct (Z.pos (digits2_pos m) - 53) as [| p | p] eqn:Hp; try lia.
  unfold binary_round_aux. rewrite (shr_fexp_large m p Hp). cbn [shr_m].
  rewrite round_nearest_even_shr by lia.
  unfold to_double. replace (Z.pos m <? 2 ^ 53) with false by (symmetry; apply Z.ltb_ge; lia).
  cbv zeta. rewrite log2_digits.
  replace (Z.pos (digits2_pos m) - 1 - 52) with (Z.pos p) by lia.
  assert (Hpw : 0 < 2 ^ Z.pos p) by (apply Z.pow_pos_nonneg; lia).
  assert (Hq : 2 ^ 52 <= Z.pos m / 2 ^ Z.pos p < 2 ^ 53).
  { replace (Z.pos (digits2_pos m)) with (Z.pos p + 53) in Hd by lia.
    replace (Z.pos p + 53 - 1) with (52 + Z.pos p) in Hd by lia.
    rewrite (Z.add_comm (Z.pos p) 53) in Hd.
    rewrite !Z.pow_add_r in Hd by lia. split.
    - apply Z.div_le_lower_bound; lia.
    - apply Z.div_lt_upper_bound; lia. }
  set (q' := if _ : bool then _ else _).
  assert (Hq' : 2 ^ 52 <= q' <= 2 ^ 53).
  { unfold q'. destruct (_ || _); lia. }
  clearbody q'.
  assert (Hp11 : Z.pos p <= 11) by lia.
  destruct q' as [| x | x]; try lia.
  unfold shr_fexp. cbn [Zdigits2 shr_record_of_loc].
  destruct (Z.eq_dec (Z.pos x) (2 ^ 53)) as [Hx | Hx].
  - assert (Hdx : Z.pos (digits2_pos x) = 54).
    { apply Zdigits2_unique; [| lia]. rewrite Hx. split; [reflexivity | reflexivity]. }
    rewrite Hdx, fexp64 by lia.
    replace (IntDef.Z.sub (54 + Z.pos p - 53) (Z.pos p)) with 1
      by (symmetry; change (54 + Z.pos p - 53 - Z.pos p = 1); lia).
    cbn [shr SpecFloat.iter_pos]. rewrite shr_1_spec by lia. cbn [shr_m].
    rewrite Hx. change (2 ^ 53 / 2) with (Z.pos 4503599627370496).
    replace (Z.pos p + 1 <=? emax - prec) with true
      by (symmetry; apply Z.leb_le; unfold emax, prec; lia).
    exists 4503599627370496%positive, (Z.pos p + 1).
    split; [reflexivity |]. split; [| split; [lia |]].
    + unfold valid_binary, SpecFloat.valid_binary, bounded, canonical_mantissa.
      change (Z.pos (digits2_pos 4503599627370496)) with 53.
      apply andb_true_intro. split.
      * apply Z.eqb_eq. unfold fexp, emin, prec, emax. lia.
      * apply Z.leb_le. unfold emax, prec. lia.
    + rewrite Z.pow_add_r by lia. change (2 ^ 53) with (4503599627370496 * 2 ^ 1). lia.
  - assert (Hdx : Z.pos (digits2_pos x) = 53).
    { apply Zdigits2_unique; [| lia]. change (53 - 1) with 52. lia. }
    rewrite Hdx, fexp64 by lia.
    replace (IntDef.Z.sub (53 + Z.pos p - 53) (Z.pos p)) with 0
      by (symmetry; change (53 + Z.pos p - 53 - Z.pos p = 0); lia).
    cbn [shr shr_m].
    replace (Z.pos p <=? emax - prec) with true
      by (symmetry; apply Z.leb_le; unfold emax, prec; lia).
    exists x, (Z.pos p).
    split; [reflexivity |]. split; [| split; [lia | reflexivity]].
    unfold valid_binary, SpecFloat.valid_binary, bounded, canonical_mantissa.
    rewrite Hdx. apply andb_true_intro. split.
    + apply Z.eqb_eq. unfold fexp, emin, prec, emax. lia.
    + apply Z.leb_le. unfold emax, prec. lia.
Qed.

(** For every unsigned 64-bit integer the correctly rounded double, read
    back as an integer, is [to_double]. *)
Lemma double_of_Z_to_double (z : Z) :
  0 <= z < 2 ^ 64 -> float_to_Z (double_of_Z z) = to_double z.
Proof.
  intros Hz. destruct (Z.lt_ge_cases z (2 ^ 53)) as [Hs | Hl].
  - rewrite double_of_Z_exact by lia. unfold to_double.
    replace (z <? 2 ^ 53) with true by (symmetry; apply Z.ltb_lt; lia). reflexivity.
  - destruct z as [| m | m]; try lia.
    destruct (binary_normalize_large m (conj Hl (proj2 Hz))) as (mz & e & Hn & Hv & He & Hmz).
    unfold float_to_Z, double_of_Z. rewrite Hn, (Prim2SF_SF2Prim _ Hv).
    replace (e <? 0) with false by (symmetry; apply Z.ltb_ge; lia). exact Hmz.
Qed.

(** The same agreement by evaluation, at the sizes where rounding changes. *)
Example to_double_agrees_on_samples :
  forallb (fun z => float_to_Z (double_of_Z z) =? to_double z)
    [0; 1; 125000; 375000; 2 ^ 53 - 1; 2 ^ 53; 2 ^ 53 + 1; 2 ^ 53 + 2;
     2 ^ 53 + 3; 2 ^ 54 + 2; 2 ^ 54 + 6; 2 ^ 60 + 2 ^ 7; 2 ^ 60 + 2 ^ 7 + 1;
     2 ^ 60 + 3 * 2 ^ 7; 2 ^ 61 - 1; 2 ^ 61; 2 ^ 63 + 2 ^ 10; 2 ^ 64 - 1] = true.
Proof. vm_compute. reflexivity. Qed.

(** ** The admission controller *)

Module RateLimiterProofs.
Import RateLimiter.

Section WithResolution.

Variable second : Time.
Hypothesis second_pos : 0 < second.

Local Abbreviation wf := (wf second).
Local Abbreviation maxBytes := (maxBytes second).
Local Abbreviation Admit := (Admit second).
Local Abbreviation AllowPacket := (AllowPacket second).
Local Abbreviation Offer := (Offer second).

Lemma GetSeconds_window : GetSeconds second second = 1.
Proof. unfold GetSeconds. apply Z.div_same. lia. Qed.

Lemma wrap64_small (z : Z) : 0 <= z < 2 ^ 64 -> wrap64 z = z.
Proof. intros H. unfold wrap64, UINT64_MOD. apply Z.mod_small. lia. Qed.

Lemma wrap32_small (z : Z) : 0 <= z < 2 ^ 32 -> wrap32 z = z.
Proof. intros H. unfold wrap32, UINT32_MOD. apply Z.mod_small. lia. Qed.

Lemma wrap32_range (z : Z) : is_uint32 (wrap32 z).
Proof. unfold is_uint32, wrap32, UINT32_MOD. apply Z.mod_pos_bound. lia. Qed.

(** On a well-formed limiter the bound is the double nearest to the byte
    rate, far below the range of [uint64_t]. *)
Lemma maxBytes_wf (st : t) :
  wf st ->
  maxBytes st = to_double (to_double (m_rateLimit st / 8)) /\
  0 <= maxBytes st <= 2 ^ 63.
Proof.
  intros (Hrate & Hwin & _ & _). unfold is_uint64, UINT64_MOD in Hrate.
  unfold RateLimiter.maxBytes. rewrite Hwin, GetSeconds_window, Z.mul_1_r.
  assert (Hl : 0 <= m_rateLimit st / 8 < 2 ^ 61).
  { split; [apply Z.div_pos; lia | apply Z.div_lt_upper_bound; lia]. }
  pose proof (to_double_bounds _ (proj1 Hl)) as H1.
  pose proof (to_double_bounds _ (proj1 H1)) as H2.
  unfold to_uint64. rewrite wrap64_small by lia. lia.
Qed.

(** Below [2^53] bytes per second the bound is the byte rate itself. *)
Lemma maxBytes_exact (st : t) :
  wf st -> m_rateLimit st / 8 < 2 ^ 53 -> maxBytes st = m_rateLimit st / 8.
Proof.
  intros Hwf Hlt. destruct (maxBytes_wf st Hwf) as [-> _].
  rewrite (to_double_small (m_rateLimit st / 8)) by lia.
  apply to_double_small. lia.
Qed.

Lemma maxBytes_ResetWindow (now : Time) (st : t) :
  maxBytes (ResetWindow now st) = maxBytes st.
Proof. unfold ResetWindow. destruct (window_expired now st); reflexivity. Qed.

Lemma wf_ctor : wf (ctor second).
Proof.
  unfold RateLimiter.wf, ctor, is_uint64, is_uint32, UINT64_MOD, UINT32_MOD; simpl. lia.
Qed.

Lemma wf_SetLimit (rate : Z) (st : t) :
  is_uint64 rate -> wf st -> wf (SetLimit rate st).
Proof.
  intros Hr (_ & H2 & H3 & H4). unfold RateLimiter.wf; simpl. tauto.
Qed.

Lemma wf_ResetWindow (now : Time) (st : t) : wf st -> wf (ResetWindow now st).
Proof.
  intros (H1 & H2 & H3 & H4). unfold ResetWindow.
  destruct (window_expired now st); unfold RateLimiter.wf; simpl;
    (split; [exact H1 | split; [exact H2 | split; [lia | exact H4]]]).
Qed.

(** With a well-formed limiter and packet the sum of the test does not wrap. *)
Lemma sum_no_wrap (p : Packet) (st : t) :
  wf st -> wf_packet p ->
  wrap64 (m_bytesInWindow st + GetSize p) = m_bytesInWindow st + GetSize p.
Proof.
  intros (_ & _ & Hb & _) Hp. unfold wf_packet, is_uint32, UINT32_MOD in Hp.
  apply wrap64_small. lia.
Qed.

Lemma wf_Admit (p : Packet) (st : t) :
  wf st -> wf_packet p -> wf (snd (Admit p st)).
Proof.
  intros Hwf Hp. pose proof (sum_no_wrap p st Hwf Hp) as Hs.
  pose proof (maxBytes_wf st Hwf) as [_ Hm].
  destruct Hwf as (H1 & H2 & H3 & H4).
  unfold wf_packet, is_uint32, UINT32_MOD in Hp.
  unfold RateLimiter.Admit. rewrite Hs.
  destruct (Z.leb_spec (m_bytesInWindow st + GetSize p) (maxBytes st));
    unfold RateLimiter.wf; simpl;
    (split; [exact H1 | split; [exact H2 | split; [lia |]]]);
    [exact H4 | apply wrap32_range].
Qed.

Lemma wf_AllowPacket (p : Packet) (from : Z) (now : Time) (st : t) :
  wf st -> wf_packet p -> wf (snd (AllowPacket p from now st)).
Proof. intros Hwf Hp. apply wf_Admit; [apply wf_ResetWindow |]; assumption. Qed.

(** Every state the class can be in is well-formed. *)
Lemma reachable_wf (st : t) : reachable second st -> wf st.
Proof.
  induction 1; [apply wf_ctor | apply wf_SetLimit | apply wf_AllowPacket]; assumption.
Qed.

(** *** The window reset *)

Lemma ResetWindow_expired (now : Time) (st : t) :
  m_windowSize st <= now - m_windowStart st ->
  ResetWindow now st =
    {| m_rateLimit := m_rateLimit st;
       m_windowSize := m_windowSize st;
       m_bytesInWindow := 0;
       m_windowStart := now;
       m_droppedPackets := m_droppedPackets st |}.
Proof.
  intros H. unfold ResetWindow, window_expired.
  destruct (Z.leb_spec (m_windowSize st) (now - m_windowStart st)); [reflexivity | lia].
Qed.

Lemma ResetWindow_inside (now : Time) (st : t) :
  now - m_windowStart st < m_windowSize st -> ResetWindow now st = st.
Proof.
  intros H. unfold ResetWindow, window_expired.
  destruct (Z.leb_spec (m_windowSize st) (now - m_windowStart st)); [lia | reflexivity].
Qed.

(** One tick before the boundary the window is kept. *)
Lemma ResetWindow_just_before (st : t) :
  ResetWindow (m_windowStart st + m_windowSize st - 1) st = st.
Proof. apply ResetWindow_inside. lia. Qed.

(** C6: a call at a time [now] with [now - windowStart >= windowSize]
    resets the window before the admission test: the test sees
    [bytesInWindow = 0] and [windowStart = now], so the packet is admitted
    exactly when its size alone fits, and the window then starts at [now]
    and holds that packet only.  The boundary is inclusive: this is the case
    at [now = windowStart + windowSize]. *)
Theorem AllowPacket_resets_expired_window
    (p : Packet) (from : Z) (now : Time) (st : t) :
  wf_packet p ->
  m_windowSize st <= now - m_windowStart st ->
  m_bytesInWindow (ResetWindow now st) = 0 /\
  m_windowStart (ResetWindow now st) = now /\
  AllowPacket p from now st = Admit p (ResetWindow now st) /\
  fst (AllowPacket p from now st) = (GetSize p <=? maxBytes st) /\
  m_windowStart (snd (AllowPacket p from now st)) = now /\
  m_bytesInWindow (snd (AllowPacket p from now st)) =
    (if fst (AllowPacket p from now st) then GetSize p else 0).
Proof.
  intros Hp Hexp. unfold wf_packet in Hp. unfold_ranges.
  unfold RateLimiter.AllowPacket. rewrite (ResetWindow_expired now st Hexp).
  unfold RateLimiter.Admit; simpl.
  rewrite wrap64_small by lia. rewrite Z.add_0_l.
  change (RateLimiter.maxBytes second _) with (maxBytes st).
  destruct (GetSize p <=? maxBytes st); simpl;
    repeat (split; [reflexivity |]); reflexivity.
Qed.

(** *** Denied packets *)

(** C9 (as the code has it): a call strictly inside the window that denies
    the packet leaves the limit, the window size, [bytesInWindow] and
    [windowStart] as they were and adds one to the 32-bit counter of dropped
    packets, which wraps from [2^32 - 1] to [0]. *)
Theorem AllowPacket_deny_frame
    (p : Packet) (from : Z) (now : Time) (st : t) :
  now - m_windowStart st < m_windowSize st ->
  fst (AllowPacket p from now st) = false ->
  snd (AllowPacket p from now st) =
    {| m_rateLimit := m_rateLimit st;
       m_windowSize := m_windowSize st;
       m_bytesInWindow := m_bytesInWindow st;
       m_windowStart := m_windowStart st;
       m_droppedPackets := wrap32 (m_droppedPackets st + 1) |} /\
  (0 <= m_droppedPackets st < UINT32_MOD - 1 ->
   m_droppedPackets (snd (AllowPacket p from now st)) = m_droppedPackets st + 1) /\
  (m_droppedPackets st = UINT32_MOD - 1 ->
   m_droppedPackets (snd (AllowPacket p from now st)) = 0).
Proof.
  intros Hin. unfold RateLimiter.AllowPacket.
  rewrite (ResetWindow_inside now st Hin). unfold RateLimiter.Admit.
  destruct (wrap64 (m_bytesInWindow st + GetSize p) <=? maxBytes st); simpl;
    [discriminate |].
  intros _. split; [reflexivity |]. split.
  - intros H. apply wrap32_small. unfold UINT32_MOD in H. lia.
  - intros ->. reflexivity.
Qed.

(** *** A limit of zero *)

Lemma maxBytes_zero_limit (st : t) :
  wf st -> m_rateLimit st / 8 = 0 -> maxBytes st = 0.
Proof.
  intros Hwf H0. destruct (maxBytes_wf st Hwf) as [-> _]. rewrite H0. reflexivity.
Qed.

(** With a limit below one byte per second a packet passes exactly when it
    is empty and the window holds nothing. *)
Lemma AllowPacket_zero_limit_iff
    (p : Packet) (from : Z) (now : Time) (st : t) :
  wf st -> wf_packet p -> m_rateLimit st / 8 = 0 ->
  fst (AllowPacket p from now st) =
    (GetSize p =? 0) && (m_bytesInWindow (ResetWindow now st) =? 0).
Proof.
  intros Hwf Hp H0.
  pose proof (wf_ResetWindow now st Hwf) as Hwf'.
  unfold RateLimiter.AllowPacket, RateLimiter.Admit.
  rewrite (sum_no_wrap p _ Hwf' Hp).
  change (RateLimiter.maxBytes second (ResetWindow now st))
    with (maxBytes (ResetWindow now st)).
  rewrite maxBytes_ResetWindow, (maxBytes_zero_limit st Hwf H0).
  destruct Hwf' as (_ & _ & Hb & _). unfold wf_packet in Hp. unfold_ranges.
  destruct (Z.leb_spec (m_bytesInWindow (ResetWindow now st) + GetSize p) 0);
    destruct (Z.eqb_spec (GetSize p) 0);
    destruct (Z.eqb_spec (m_bytesInWindow (ResetWindow now st)) 0);
    simpl; reflexivity || lia.
Qed.

(** C5 (as the code has it): with a rate limit of zero every packet of
    non-zero size is denied, whatever its size and arrival time. *)
Theorem AllowPacket_zero_limit_denies
    (p : Packet) (from : Z) (now : Time) (st : t) :
  wf st -> wf_packet p -> m_rateLimit st = 0 -> 0 < GetSize p ->
  fst (AllowPacket p from now st) = false.
Proof.
  intros Hwf Hp H0 Hsz.
  rewrite AllowPacket_zero_limit_iff by (try assumption; rewrite H0; reflexivity).
  destruct (Z.eqb_spec (GetSize p) 0); [lia | reflexivity].
Qed.

(** *** A constant stream inside one window *)

Lemma verdicts_nil (k : Z) : verdicts 0 k = [].
Proof. reflexivity. Qed.

Lemma verdicts_pass (n : nat) (k : Z) :
  0 < k -> verdicts (S n) k = true :: verdicts n (k - 1).
Proof.
  intros Hk. unfold verdicts.
  replace (Z.to_nat k) with (S (Z.to_nat (k - 1))) by lia.
  rewrite <- Nat.succ_min_distr. reflexivity.
Qed.

Lemma verdicts_full (n : nat) (k : Z) :
  k <= 0 -> verdicts n k = repeat false n.
Proof.
  intros Hk. unfold verdicts.
  replace (Z.to_nat k) with 0%nat by lia.
  rewrite Nat.min_0_r, Nat.sub_0_r. reflexivity.
Qed.

Lemma verdicts_count (n : nat) (k : Z) :
  0 <= k ->
  Z.of_nat (length (filter (fun b => b = true) (verdicts n k))) = Z.min (Z.of_nat n) k.
Proof.
  intros Hk. unfold verdicts. rewrite filter_app.
  assert (Ht : forall m, filter (fun b => b = true) (repeat true m) = repeat true m).
  { induction m as [| m IH]; [reflexivity |]. simpl. rewrite filter_cons_True by reflexivity.
    f_equal. exact IH. }
  assert (Hf : forall m, filter (fun b => b = true) (repeat false m) = []).
  { induction m as [| m IH]; [reflexivity |]. simpl. rewrite filter_cons_False by discriminate.
    exact IH. }
  rewrite Ht, Hf, app_nil_r, repeat_length. lia.
Qed.

Lemma Admit_frame (p : Packet) (st : t) :
  m_rateLimit (snd (Admit p st)) = m_rateLimit st /\
  m_windowSize (snd (Admit p st)) = m_windowSize st /\
  m_windowStart (snd (Admit p st)) = m_windowStart st.
Proof.
  unfold RateLimiter.Admit.
  destruct (wrap64 (m_bytesInWindow st + GetSize p) <=? maxBytes st); simpl; auto.
Qed.

Lemma maxBytes_Admit (p : Packet) (st : t) :
  maxBytes (snd (Admit p st)) = maxBytes st.
Proof.
  destruct (Admit_frame p st) as (Hr & Hw & _).
  unfold RateLimiter.maxBytes. rewrite Hr, Hw. reflexivity.
Qed.

(** The admission test in terms of the number of packets the window holds. *)
Lemma Admit_counted (p : Packet) (st : t) (c : Z) :
  wf st -> wf_packet p -> 0 < GetSize p ->
  m_bytesInWindow st = c * GetSize p ->
  fst (Admit p st) = (c <? maxBytes st / GetSize p) /\
  m_bytesInWindow (snd (Admit p st)) =
    (if c <? maxBytes st / GetSize p then c + 1 else c) * GetSize p.
Proof.
  intros Hwf Hp Hsz Hb. unfold RateLimiter.Admit.
  rewrite (sum_no_wrap p st Hwf Hp), Hb.
  pose proof (Z.mul_div_le (maxBytes st) (GetSize p) Hsz) as Hlo.
  pose proof (Z.mul_succ_div_gt (maxBytes st) (GetSize p) Hsz) as Hhi.
  destruct (Z.leb_spec (c * GetSize p + GetSize p) (maxBytes st)) as [Hle | Hgt];
    destruct (Z.ltb_spec c (maxBytes st / GetSize p)) as [Hc | Hc]; simpl;
    try (split; [reflexivity | lia]); exfalso; nia.
Qed.

Lemma Offer_inside (p : Packet) (from : Z) (times : list Time) :
  forall (st : t) (c : Z),
    wf st -> wf_packet p -> 0 < GetSize p ->
    0 <= c <= maxBytes st / GetSize p ->
    m_bytesInWindow st = c * GetSize p ->
    Forall (fun now => now - m_windowStart st < m_windowSize st) times ->
    fst (Offer p from times st) =
      verdicts (length times) (maxBytes st / GetSize p - c).
Proof.
  induction times as [| now rest IH]; intros st c Hwf Hp Hsz Hc Hb Hin.
  - reflexivity.
  - inversion Hin as [| ? ? Hnow Hrest]; subst.
    simpl. unfold RateLimiter.AllowPacket. rewrite (ResetWindow_inside now st Hnow).
    destruct (Admit_counted p st c Hwf Hp Hsz Hb) as [Hok Hbytes].
    destruct (Admit_frame p st) as (_ & Hw & Hs).
    pose proof (maxBytes_Admit p st) as Hm.
    pose proof (wf_Admit p st Hwf Hp) as Hwf1.
    destruct (Admit p st) as [ok st1] eqn:E; simpl in *.
    assert (Hrest1 : Forall (fun now => now - m_windowStart st1 < m_windowSize st1) rest)
      by (rewrite Hw, Hs; exact Hrest).
    destruct (Z.ltb_spec c (maxBytes st / GetSize p)) as [Hlt | Hge].
    + specialize (IH st1 (c + 1) Hwf1 Hp Hsz).
      rewrite Hm in IH. specialize (IH ltac:(lia) Hbytes Hrest1).
      destruct (Offer p from rest st1) as [oks st2]; simpl in *.
      rewrite verdicts_pass by lia. subst ok. f_equal.
      rewrite IH. f_equal. lia.
    + specialize (IH st1 c Hwf1 Hp Hsz).
      rewrite Hm in IH. specialize (IH ltac:(lia) Hbytes Hrest1).
      destruct (Offer p from rest st1) as [oks st2]; simpl in *.
      subst ok. rewrite IH, !verdicts_full by lia. reflexivity.
Qed.

(** Of a stream of packets of one size [S > 0] offered within one window,
    the first [floor (maxBytes / S)] are allowed and every later one is
    denied, with the bound [maxBytes] as [AllowPacket] computes it. *)
Lemma Offer_up_to_maxBytes
    (p : Packet) (from : Z) (times : list Time) (st : t) :
  wf st -> wf_packet p -> 0 < GetSize p ->
  opens_window times st ->
  fst (Offer p from times st) =
    verdicts (length times) (maxBytes st / GetSize p) /\
  Z.of_nat (length (filter (fun ok => ok = true) (fst (Offer p from times st)))) =
    Z.min (Z.of_nat (length times)) (maxBytes st / GetSize p).
Proof.
  intros Hwf Hp Hsz Hopen.
  assert (Hk : 0 <= maxBytes st / GetSize p).
  { apply Z.div_pos; [| lia]. destruct (maxBytes_wf st Hwf) as [_ H]. lia. }
  assert (Hmain : fst (Offer p from times st) =
                  verdicts (length times) (maxBytes st / GetSize p)).
  { destruct times as [| first rest]; [reflexivity |].
    destruct Hopen as [Hempty Hin].
    set (st0 := ResetWindow first st) in *.
    assert (Hwf0 : wf st0) by (apply wf_ResetWindow; exact Hwf).
    assert (Hws : m_windowSize st0 = m_windowSize st).
    { unfold st0, ResetWindow. destruct (window_expired first st); reflexivity. }
    assert (Hsame : Offer p from (first :: rest) st = Offer p from (first :: rest) st0).
    { simpl. unfold RateLimiter.AllowPacket. fold st0.
      rewrite (ResetWindow_inside first st0); [reflexivity |].
      inversion Hin; subst. rewrite Hws. assumption. }
    rewrite Hsame.
    rewrite (Offer_inside p from (first :: rest) st0 0 Hwf0 Hp Hsz).
    - unfold st0. rewrite maxBytes_ResetWindow, Z.sub_0_r. reflexivity.
    - unfold st0. rewrite maxBytes_ResetWindow. lia.
    - rewrite Hempty. lia.
    - rewrite Hws. exact Hin. }
  split; [exact Hmain |]. rewrite Hmain. apply verdicts_count. exact Hk.
Qed.

End WithResolution.

(** *** The theorems at concrete inputs *)

Lemma ns_per_second_pos : 0 < ns_per_second.
Proof. reflexivity. Qed.

Example Offer_run :
  fst (Offer ns_per_second (mkPacket 50000) 7 [0; 10; 20; 999999999] limiter_1Mbps) =
    [true; true; false; false] /\
  maxBytes ns_per_second limiter_1Mbps = 125000.
Proof. vm_compute. split; reflexivity. Qed.

Lemma AllowPacket_resets_expired_window_witness :
  m_bytesInWindow (ResetWindow 1000000000 limiter_1Mbps) = 0 /\
  m_windowStart (ResetWindow 1000000000 limiter_1Mbps) = 1000000000 /\
  AllowPacket ns_per_second (mkPacket 1024) 7 1000000000 limiter_1Mbps =
    Admit ns_per_second (mkPacket 1024) (ResetWindow 1000000000 limiter_1Mbps) /\
  fst (AllowPacket ns_per_second (mkPacket 1024) 7 1000000000 limiter_1Mbps) =
    (1024 <=? maxBytes ns_per_second limiter_1Mbps) /\
  m_windowStart (snd (AllowPacket ns_per_second (mkPacket 1024) 7 1000000000 limiter_1Mbps)) =
    1000000000 /\
  m_bytesInWindow (snd (AllowPacket ns_per_second (mkPacket 1024) 7 1000000000 limiter_1Mbps)) =
    (if fst (AllowPacket ns_per_second (mkPacket 1024) 7 1000000000 limiter_1Mbps)
     then 1024 else 0).
Proof.
  apply (AllowPacket_resets_expired_window ns_per_second (mkPacket 1024) 7
           1000000000 limiter_1Mbps).
  - unfold wf_packet, is_uint32, UINT32_MOD; simpl. lia.
  - simpl. unfold ns_per_second. lia.
Defined.

(** C9, the claim as written fails: at a counter of [2^32 - 1] a denial
    strictly inside the window leaves the counter at [0], not one higher. *)
Lemma AllowPacket_deny_counter_wraps :
  5 - m_windowStart limiter_full_counter < m_windowSize limiter_full_counter /\
  fst (AllowPacket ns_per_second (mkPacket 200000) 7 5 limiter_full_counter) = false /\
  m_droppedPackets limiter_full_counter = 4294967295 /\
  m_droppedPackets
    (snd (AllowPacket ns_per_second (mkPacket 200000) 7 5 limiter_full_counter)) = 0.
Proof. vm_compute. repeat split; reflexivity. Qed.

Lemma AllowPacket_deny_frame_witness :
  snd (AllowPacket ns_per_second (mkPacket 200000) 7 5 limiter_1Mbps) =
    {| m_rateLimit := 1000000;
       m_windowSize := ns_per_second;
       m_bytesInWindow := 0;
       m_windowStart := 0;
       m_droppedPackets := wrap32 (0 + 1) |} /\
  (0 <= m_droppedPackets limiter_1Mbps < UINT32_MOD - 1 ->
   m_droppedPackets (snd (AllowPacket ns_per_second (mkPacket 200000) 7 5 limiter_1Mbps)) =
     m_droppedPackets limiter_1Mbps + 1) /\
  (m_droppedPackets limiter_1Mbps = UINT32_MOD - 1 ->
   m_droppedPackets (snd (AllowPacket ns_per_second (mkPacket 200000) 7 5 limiter_1Mbps)) = 0).
Proof.
  apply (AllowPacket_deny_frame ns_per_second (mkPacket 200000) 7 5 limiter_1Mbps).
  - simpl. unfold ns_per_second. lia.
  - vm_compute. reflexivity.
Defined.

(** C5, the claim as written fails: with a limit of zero an empty packet is
    allowed. *)
Lemma AllowPacket_zero_limit_allows_empty :
  m_rateLimit limiter_zero = 0 /\
  fst (AllowPacket ns_per_second (mkPacket 0) 7 0 limiter_zero) = true.
Proof. vm_compute. split; reflexivity. Qed.

Lemma AllowPacket_zero_limit_denies_witness :
  fst (AllowPacket ns_per_second (mkPacket 1) 7 0 limiter_zero) = false.
Proof.
  apply (AllowPacket_zero_limit_denies ns_per_second ns_per_second_pos
           (mkPacket 1) 7 0 limiter_zero).
  - apply wf_SetLimit; [unfold is_uint64, UINT64_MOD; lia |].
    apply wf_ctor.
  - unfold wf_packet, is_uint32, UINT32_MOD; simpl. lia.
  - reflexivity.
  - simpl. lia.
Defined.

End RateLimiterProofs.

(** ** The policy steering controller *)

Module PbrControllerProofs.
Import Ipv4StaticRouting PbrController.

(** The backward loop removes exactly the watched entries among the first
    [k], whatever their number. *)
Lemma remove_loop_filter (k : nat) :
  forall rt : Ipv4StaticRouting.t,
    (k <= length rt)%nat ->
    remove_loop k rt = other_routes (take k rt) ++ drop k rt.
Proof.
  unfold other_routes.
  induction k as [| i IH]; intros rt Hk; [reflexivity |].
  destruct (lookup_lt_is_Some_2 rt i ltac:(lia)) as [e He].
  cbn [remove_loop]. unfold GetRoute, RemoveRoute. rewrite He.
  rewrite (take_S_r rt i e He), filter_app.
  destruct (watched e) eqn:Hw.
  - rewrite IH by (rewrite length_delete; [lia | eauto]).
    rewrite delete_take_drop.
    rewrite take_app_length' by (rewrite length_take; lia).
    rewrite drop_app_length' by (rewrite length_take; lia).
    rewrite filter_singleton_False by (cbn beta; congruence).
    rewrite app_nil_r. reflexivity.
  - rewrite IH by lia.
    rewrite filter_singleton_True by (cbn beta; congruence).
    rewrite <- app_assoc. simpl. rewrite (drop_S rt e i He). reflexivity.
Qed.

Lemma to_int_GetNRoutes (rt : Ipv4StaticRouting.t) :
  Z.of_nat (length rt) < 2 ^ 31 ->
  Z.to_nat (to_int (GetNRoutes rt)) = length rt.
Proof.
  intros H. unfold GetNRoutes, wrap32, UINT32_MOD, to_int.
  rewrite Z.mod_small by lia.
  destruct (Z.ltb_spec (Z.of_nat (length rt)) (2 ^ 31)); lia.
Qed.

Lemma Toggle_table (c : t) (rt : Ipv4StaticRouting.t) :
  Z.of_nat (length rt) < 2 ^ 31 ->
  Toggle c rt =
    ({| m_state := negb (m_state c) |},
     other_routes rt ++
       [if m_state c
        then mkEntry destNet mask primaryHop 1
        else mkEntry destNet mask secondaryHop 2]).
Proof.
  intros H. unfold Toggle. rewrite (to_int_GetNRoutes rt H).
  rewrite remove_loop_filter by lia.
  rewrite take_ge, drop_ge, app_nil_r by lia.
  unfold AddNetworkRouteTo. destruct (m_state c); reflexivity.
Qed.
Lemma other_routes_length (rt : Ipv4StaticRouting.t) :
  (length (other_routes rt) <= length rt)%nat.
Proof. unfold other_routes. apply length_filter. Qed.

Lemma other_routes_idem (rt : Ipv4StaticRouting.t) :
  other_routes (other_routes rt) = other_routes rt.
Proof.
  unfold other_routes. induction rt as [| e rt IH]; [reflexivity |].
  rewrite (filter_cons _ e rt). destruct (decide (watched e <> true)) as [H | H].
  - rewrite filter_cons_True by exact H. f_equal. exact IH.
  - exact IH.
Qed.

Lemma other_routes_snoc (rt : Ipv4StaticRouting.t) (e : Ipv4RoutingTableEntry) :
  watched e = true -> other_routes (other_routes rt ++ [e]) = other_routes rt.
Proof.
  intros He. unfold other_routes at 1. rewrite filter_app.
  fold (other_routes (other_routes rt)). rewrite other_routes_idem.
  rewrite filter_singleton_False by (cbn beta; congruence).
  apply app_nil_r.
Qed.

Lemma watched_other_routes (rt : Ipv4StaticRouting.t) :
  watched_routes (other_routes rt) = [].
Proof.
  unfold watched_routes, other_routes. induction rt as [| e rt IH]; [reflexivity |].
  rewrite (filter_cons _ e rt). destruct (decide (watched e <> true)) as [H | H].
  - rewrite filter_cons_False by exact H. exact IH.
  - exact IH.
Qed.

Lemma watched_routes_snoc (rt : Ipv4StaticRouting.t) (e : Ipv4RoutingTableEntry) :
  watched e = true -> watched_routes (other_routes rt ++ [e]) = [e].
Proof.
  intros He. unfold watched_routes. rewrite filter_app.
  fold (watched_routes (other_routes rt)). rewrite watched_other_routes.
  rewrite filter_singleton_True by (cbn beta; congruence). reflexivity.
Qed.

Lemma other_routes_unwatched (rt : Ipv4StaticRouting.t) :
  watched_routes rt = [] -> other_routes rt = rt.
Proof.
  unfold watched_routes, other_routes. induction rt as [| e rt IH]; [reflexivity |].
  rewrite (filter_cons (fun e => watched e = true) e rt).
  destruct (decide (watched e = true)) as [H | H]; [discriminate |].
  intros Hrt. rewrite filter_cons_True by exact H. f_equal. apply IH. exact Hrt.
Qed.

Lemma watched_installed (k : nat) : watched (installed k) = true.
Proof. unfold installed. destruct (Nat.odd k); reflexivity. Qed.

Lemma GetGateway_installed (k : nat) :
  GetGateway (installed (S k)) = next_hop_installed (S k).
Proof.
  unfold installed, next_hop_installed. destruct (Nat.odd (S k)); reflexivity.
Qed.

(** After the [k]-th toggle, [k >= 1], of a controller as constructed: the
    flag has been flipped [k] times, and the table is the entries for other
    destinations, in their order, followed by the entry of that toggle. *)
Lemma toggles_table (rt : Ipv4StaticRouting.t) (k : nat) :
  Z.of_nat (length rt) + 1 < 2 ^ 31 ->
  toggles (S k) ctor rt =
    ({| m_state := Nat.even (S k) |}, other_routes rt ++ [installed (S k)]).
Proof.
  intros Hlen. induction k as [| k IH].
  - cbn [toggles]. rewrite Toggle_table by lia. reflexivity.
  - change (toggles (S (S k)) ctor rt)
      with (let '(c1, rt1) := toggles (S k) ctor rt in Toggle c1 rt1).
    rewrite IH. cbv iota beta.
    rewrite Toggle_table.
    + rewrite other_routes_snoc by apply watched_installed.
      cbn [m_state]. f_equal.
      * f_equal. rewrite (Nat.even_succ (S k)), <- Nat.negb_even. reflexivity.
      * f_equal. unfold installed. rewrite (Nat.odd_succ (S k)). reflexivity.
    + rewrite length_app. pose proof (other_routes_length rt). simpl. lia.
Qed.

(** C3 (as the code has it): the router starts with the route [main] adds,
    whose next hop is A.  After the [k]-th toggle the watched destination
    has a single entry; its next hop is A before any toggle ([k = 0]) and
    after an odd number of toggles, and B after an even number [k >= 2].
    The entries for other destinations stay as they were. *)
Theorem toggles_next_hop (rt : Ipv4StaticRouting.t) (k : nat) :
  Z.of_nat (length rt) + 2 < 2 ^ 31 ->
  watched_routes rt = [] ->
  next_hops (snd (toggles k ctor (main_routes rt))) = [next_hop_installed k] /\
  length (watched_routes (snd (toggles k ctor (main_routes rt)))) = 1%nat /\
  other_routes (snd (toggles k ctor (main_routes rt))) = rt.
Proof.
  intros Hlen Hrt.
  assert (Hmain : main_routes rt = other_routes rt ++ [installed 1]).
  { unfold main_routes, AddNetworkRouteTo. rewrite (other_routes_unwatched rt Hrt).
    reflexivity. }
  assert (Hend : forall j,
            next_hops (other_routes rt ++ [installed (S j)]) = [next_hop_installed (S j)] /\
            length (watched_routes (other_routes rt ++ [installed (S j)])) = 1%nat /\
            other_routes (other_routes rt ++ [installed (S j)]) = rt).
  { intros j. unfold next_hops.
    rewrite watched_routes_snoc by apply watched_installed.
    rewrite other_routes_snoc by apply watched_installed.
    rewrite (other_routes_unwatched rt Hrt).
    cbn [map length]. rewrite GetGateway_installed. auto. }
  destruct k as [| k].
  - cbn [toggles snd]. rewrite Hmain. apply (Hend 0%nat).
  - rewrite toggles_table.
    + cbn [snd]. rewrite Hmain, other_routes_snoc by apply watched_installed.
      apply Hend.
    + unfold main_routes, AddNetworkRouteTo. rewrite length_app. simpl. lia.
Qed.

Lemma toggles_next_hop_witness :
  next_hops (snd (toggles 3 ctor (main_routes connected_routes))) =
    [next_hop_installed 3] /\
  length (watched_routes (snd (toggles 3 ctor (main_routes connected_routes)))) = 1%nat /\
  other_routes (snd (toggles 3 ctor (main_routes connected_routes))) = connected_routes.
Proof.
  apply (toggles_next_hop connected_routes 3).
  - simpl. lia.
  - reflexivity.
Defined.

(** C3, the claim as written fails: after the first toggle the next hop is
    still A, where the parity rule gives B; after the second it is B, where
    the rule gives A. *)
Lemma first_toggle_keeps_primary :
  next_hops (snd (toggles 1 ctor (main_routes connected_routes))) = [primaryHop] /\
  next_hop_by_parity 1 = secondaryHop /\
  next_hops (snd (toggles 2 ctor (main_routes connected_routes))) = [secondaryHop] /\
  next_hop_by_parity 2 = primaryHop /\
  (primaryHop =? secondaryHop) = false.
Proof. vm_compute. repeat split; reflexivity. Qed.

End PbrControllerProofs.

(** ** The traffic generators *)

Module GeneratorProofs.
Import Simulator Generator GeneratorInv.

(** *** The event queue *)

Lemma pending_cons (impl : EventImpl) (e : Event) (q : list Event) (s : Simulator.t) :
  m_events s = e :: q ->
  pending impl s =
    if decide (ev_impl e = impl)
    then e :: filter (fun x => ev_impl x = impl) q
    else filter (fun x => ev_impl x = impl) q.
Proof. intros H. unfold pending. rewrite H, (filter_cons _ e q). reflexivity. Qed.

Lemma filter_Insert_other (impl : EventImpl) (e : Event) (q : list Event) :
  ev_impl e <> impl ->
  filter (fun x => ev_impl x = impl) (Insert e q) =
  filter (fun x => ev_impl x = impl) q.
Proof.
  intros He. induction q as [| x q IH]; simpl.
  - rewrite filter_cons_False by exact He. reflexivity.
  - destruct (ev_ts e <? ev_ts x).
    + rewrite filter_cons_False by exact He. reflexivity.
    + rewrite !(filter_cons _ x). rewrite IH. reflexivity.
Qed.

Lemma filter_Insert_only (impl : EventImpl) (e : Event) (q : list Event) :
  ev_impl e = impl ->
  filter (fun x => ev_impl x = impl) q = [] ->
  filter (fun x => ev_impl x = impl) (Insert e q) = [e].
Proof.
  intros He. induction q as [| x q IH]; simpl; intros Hq.
  - rewrite filter_cons_True by exact He. reflexivity.
  - rewrite (filter_cons _ x) in Hq.
    destruct (decide (ev_impl x = impl)) as [Hx | Hx]; [discriminate |].
    destruct (ev_ts e <? ev_ts x).
    + rewrite filter_cons_True by exact He.
      rewrite filter_cons_False by exact Hx. rewrite Hq. reflexivity.
    + rewrite filter_cons_False by exact Hx. apply IH. exact Hq.
Qed.

Lemma filter_uid_comm (impl : EventImpl) (u : nat) (q : list Event) :
  filter (fun x => ev_impl x = impl) (filter (fun x => ev_uid x <> u) q) =
  filter (fun x => ev_uid x <> u) (filter (fun x => ev_impl x = impl) q).
Proof.
  induction q as [| x q IH]; [reflexivity |].
  rewrite !(filter_cons _ x).
  destruct (decide (ev_uid x <> u)), (decide (ev_impl x = impl));
    rewrite ?(filter_cons _ x);
    repeat match goal with
      | |- context [decide ?P] => destruct (decide P); try contradiction
      end; rewrite IH; reflexivity.
Qed.

Section WithSeconds.

Variable Seconds : float -> Time.

Local Abbreviation invoke := (invoke Seconds).
Local Abbreviation step := (step Seconds).
Local Abbreviation run := (run Seconds).
Local Abbreviation pacing := (pacing Seconds).

(** *** What the callbacks do to the scheduler *)

(** A start or a send hands one packet to the socket at the current time
    and schedules at most one event: the next send, one interval later,
    whose handle the generator keeps. *)
Lemma invoke_send_shape (impl : EventImpl) (w : World) :
  impl <> EvStop ->
  exists size tos,
    m_trace (sim (invoke impl w)) = Sent size tos (Now (sim w)) :: m_trace (sim w) /\
    Now (sim (invoke impl w)) = Now (sim w) /\
    interval_seconds (app (invoke impl w)) = interval_seconds (app w) /\
    (m_events (sim (invoke impl w)) = m_events (sim w) \/
     (m_events (sim (invoke impl w)) =
        Insert (mkEvent (Now (sim w) + Seconds (interval_seconds (app w)))
                  (m_uid (sim w)) EvSend) (m_events (sim w)) /\
      sendEvent (app (invoke impl w)) = Some (m_uid (sim w)))).
Proof.
  intros Himpl. destruct w as [s g]. unfold Generator.invoke. cbn [app sim].
  destruct impl; [| contradiction |]; destruct g as [a | a]; cbn [lift].
  - unfold VoipApplication.StartApplication, VoipApplication.SendPacket,
      VoipApplication.ScheduleTx; cbn.
    exists (VoipApplication.m_packetSize a), (Some 184).
    destruct (wrap32 (0 + 1) <? VoipApplication.m_nPackets a); cbn; auto 10.
  - unfold DDoSAttacker.StartApplication, DDoSAttacker.SendAttackPacket,
      DDoSAttacker.ScheduleNextPacket; cbn.
    exists (DDoSAttacker.m_packetSize a), None. auto 10.
  - unfold VoipApplication.SendPacket, VoipApplication.ScheduleTx; cbn.
    exists (VoipApplication.m_packetSize a), (Some 184).
    destruct (wrap32 (VoipApplication.m_packetsSent a + 1) <?
              VoipApplication.m_nPackets a); cbn; [| auto 10].
    destruct (VoipApplication.m_running a); cbn; auto 10.
  - unfold DDoSAttacker.SendAttackPacket, DDoSAttacker.ScheduleNextPacket; cbn.
    exists (DDoSAttacker.m_packetSize a), None.
    destruct (DDoSAttacker.m_running a); cbn; auto 10.
Qed.

(** A stop observes nothing and cancels the event whose handle the
    generator holds, if that event is pending. *)
Lemma invoke_stop_shape (w : World) :
  m_trace (sim (invoke EvStop w)) = m_trace (sim w) /\
  Now (sim (invoke EvStop w)) = Now (sim w) /\
  interval_seconds (app (invoke EvStop w)) = interval_seconds (app w) /\
  running (app (invoke EvStop w)) = false /\
  m_events (sim (invoke EvStop w)) =
    m_events (if IsRunning (sendEvent (app w)) (sim w)
              then Cancel (sendEvent (app w)) (sim w) else sim w).
Proof.
  destruct w as [s g]. unfold Generator.invoke. cbn [app sim].
  destruct g as [a | a]; cbn [lift];
    [unfold VoipApplication.StopApplication | unfold DDoSAttacker.StopApplication];
    cbn [fst snd app sim sendEvent running interval_seconds];
    match goal with
    | |- context [IsRunning ?id s] =>
        destruct (IsRunning id s); [destruct id |]; cbn; auto 10
    end.
Qed.

(** *** No send after the stop *)

Lemma Cancel_pending (impl : EventImpl) (id : EventId) (s : Simulator.t) :
  pending impl s = [] ->
  pending impl (if IsRunning id s then Cancel id s else s) = [].
Proof.
  intros H. destruct (IsRunning id s); [| exact H].
  destruct id as [u |]; [| exact H].
  unfold pending, Cancel; cbn [m_events]. rewrite filter_uid_comm.
  unfold pending in H. rewrite H. reflexivity.
Qed.

Lemma Cancel_held (e : Event) (s : Simulator.t) :
  pending EvSend s = [e] ->
  pending EvSend (if IsRunning (Some (ev_uid e)) s
                  then Cancel (Some (ev_uid e)) s else s) = [].
Proof.
  intros H.
  assert (Hin : e ∈ m_events s).
  { assert (He : e ∈ pending EvSend s) by (rewrite H; apply list_elem_of_here).
    unfold pending in He. apply list_elem_of_filter in He. tauto. }
  unfold IsRunning. rewrite bool_decide_eq_true_2.
  - unfold pending, Cancel; cbn [m_events]. rewrite filter_uid_comm.
    unfold pending in H. rewrite H.
    rewrite filter_cons_False by (cbn beta; tauto). reflexivity.
  - apply Exists_exists. exists e. split; [exact Hin | reflexivity].
Qed.

Lemma step_started (w w' : World) :
  started w -> step w = Some w' -> started w'.
Proof.
  intros (Hst & Hse & Hstop & Hns) Hstep. unfold Generator.step in Hstep.
  destruct (m_events (sim w)) as [| e q] eqn:Hq; [discriminate |].
  injection Hstep as <-.
  rewrite (pending_cons EvStart e q _ Hq) in Hst.
  rewrite (pending_cons EvSend e q _ Hq) in Hse, Hstop.
  set (s1 := {| Now := ev_ts e; m_uid := m_uid (sim w); m_events := q;
                m_trace := Invoked (ev_impl e) (ev_ts e) :: m_trace (sim w) |}).
  set (w1 := {| sim := s1; app := app w |}).
  destruct (ev_impl e) eqn:Himpl.
  - rewrite decide_True in Hst by reflexivity. discriminate.
  - rewrite decide_False in Hst by discriminate.
    rewrite decide_False in Hse, Hstop by discriminate.
    destruct (invoke_stop_shape w1) as (Ht & _ & _ & _ & He).
    cbn [sim app w1] in Ht, He.
    assert (HA : pending EvStart (sim (invoke EvStop w1)) = []).
    { unfold pending at 1. rewrite He. apply Cancel_pending. exact Hst. }
    assert (HB : pending EvSend (sim (invoke EvStop w1)) = []).
    { unfold pending at 1. rewrite He. destruct Hse as [Hse | (es & Hse & Hid)].
      - apply Cancel_pending. exact Hse.
      - rewrite Hid. apply Cancel_held. exact Hse. }
    unfold started. rewrite Ht. repeat split; auto.
    cbn. intros; discriminate.
  - rewrite decide_False in Hst by discriminate.
    rewrite decide_True in Hse, Hstop by reflexivity.
    assert (Hq0 : filter (fun x => ev_impl x = EvSend) q = []).
    { destruct Hse as [Hse | (es & Hse & _)]; [discriminate |].
      injection Hse as _ Hse. exact Hse. }
    assert (Hseen : stop_seen (sim w) = false).
    { destruct (stop_seen (sim w)); [| reflexivity].
      specialize (Hstop eq_refl). discriminate. }
    destruct (invoke_send_shape EvSend w1 ltac:(discriminate))
      as (size & tos & Ht & _ & _ & He).
    cbn [sim app w1 s1 Now m_uid m_events m_trace] in Ht, He.
    assert (Hseen' : stop_seen (sim (invoke EvSend w1)) = false).
    { unfold stop_seen. rewrite Ht. cbn. exact Hseen. }
    unfold started. rewrite Hseen', Ht. unfold pending.
    split; [| split; [| split]].
    + destruct He as [-> | [-> _]]; [exact Hst |].
      rewrite filter_Insert_other by (cbn; discriminate). exact Hst.
    + destruct He as [-> | [-> Hid]]; [left; exact Hq0 | right].
      eexists. split; [apply filter_Insert_only; [reflexivity | exact Hq0] |].
      rewrite Hid. reflexivity.
    + discriminate.
    + cbn. repeat split; auto; intros; discriminate.
Qed.

Lemma run_started (fuel : nat) :
  forall w, started w -> started (run fuel w).
Proof.
  induction fuel as [| fuel IH]; intros w Hw; [exact Hw |].
  cbn [Generator.run]. destruct (step w) as [w' |] eqn:Hstep; [| exact Hw].
  apply IH. exact (step_started w w' Hw Hstep).
Qed.

Lemma boot_events (g : Generator.t) (start : Time) (stop : option Time) :
  boot_ok start stop ->
  m_events (sim (boot g start stop)) =
    mkEvent (0 + start) 0 EvStart ::
    match stop with
    | Some stop_time => [mkEvent (0 + stop_time) 1 EvStop]
    | None => []
    end.
Proof.
  intros Hok. unfold boot. destruct stop as [stop_time |]; cbn; [| reflexivity].
  cbn in Hok. destruct (Z.ltb_spec (0 + stop_time) (0 + start)); [lia | reflexivity].
Qed.

(** The first event of a run is the start, and it leaves the generator
    started. *)
Lemma boot_step (g : Generator.t) (start : Time) (stop : option Time) :
  boot_ok start stop ->
  exists w1,
    step (boot g start stop) = Some w1 /\ started w1 /\
    send_times (m_trace (sim w1)) = [start] /\
    interval_seconds (app w1) = interval_seconds g /\
    forall e, e ∈ pending EvSend (sim w1) ->
      ev_ts e = start + Seconds (interval_seconds g).
Proof.
  intros Hok. pose proof (boot_events g start stop Hok) as Hev.
  unfold Generator.step. rewrite Hev. eexists. split; [reflexivity |].
  cbn [ev_impl ev_ts].
  match goal with
  | |- context [invoke EvStart ?w] => set (w0 := w)
  end.
  assert (Hq : forall impl, impl <> EvStop ->
                 filter (fun x => ev_impl x = impl) (m_events (sim w0)) = []).
  { intros impl Himpl. unfold w0; cbn [sim m_events].
    destruct stop; [| reflexivity].
    rewrite filter_cons_False by (cbn; congruence). reflexivity. }
  assert (Htr : m_trace (sim w0) = [Invoked EvStart start])
    by (destruct stop; reflexivity).
  assert (Hnow : Now (sim w0) = start) by reflexivity.
  assert (Happ : app w0 = g) by (destruct stop; reflexivity).
  clearbody w0.
  destruct (invoke_send_shape EvStart w0 ltac:(discriminate))
    as (size & tos & Ht & _ & Hi & He).
  rewrite Htr, Hnow in Ht. rewrite Hnow, Happ in He. rewrite Happ in Hi.
  split; [| split; [| split]].
  - unfold started, stop_seen, pending. rewrite Ht.
    split; [| split; [| split]].
    + destruct He as [-> | [-> _]]; [apply Hq; discriminate |].
      rewrite filter_Insert_other by (cbn; discriminate). apply Hq. discriminate.
    + destruct He as [-> | [-> Hid]]; [left; apply Hq; discriminate | right].
      eexists. split; [apply filter_Insert_only; [reflexivity | apply Hq; discriminate] |].
      rewrite Hid. reflexivity.
    + cbn. discriminate.
    + cbn. repeat split; auto; intros; discriminate.
  - rewrite Ht. reflexivity.
  - exact Hi.
  - intros e. unfold pending.
    destruct He as [-> | [-> _]].
    + rewrite Hq by discriminate. intros H. inversion H.
    + rewrite filter_Insert_only by (try reflexivity; apply Hq; discriminate).
      intros H. apply list_elem_of_singleton in H. subst e. reflexivity.
Qed.

(** C4: in every run of a generator of either variant that is started and
    later stopped, no send is observed after [StopApplication] has been
    invoked, and from then on no send is pending: the stop cancelled the
    one that was. *)
Theorem no_send_after_StopApplication
    (g : Generator.t) (start stop : Time) (fuel : nat) :
  start <= stop ->
  no_send_after_stop (m_trace (sim (run fuel (boot g start (Some stop))))) /\
  (stop_seen (sim (run fuel (boot g start (Some stop)))) = true ->
   pending EvSend (sim (run fuel (boot g start (Some stop)))) = []).
Proof.
  intros Hle. destruct fuel as [| fuel].
  - cbn. split; [exact I | discriminate].
  - destruct (boot_step g start (Some stop) Hle) as (w1 & Hstep & Hw1 & _).
    cbn [Generator.run]. rewrite Hstep.
    destruct (run_started fuel w1 Hw1) as (_ & _ & Hstop & Hns). auto.
Qed.

(** *** Pacing *)

Lemma paced_nil (first delta : Time) : paced first delta [].
Proof. reflexivity. Qed.

Lemma paced_Invoked (first delta : Time) (impl : EventImpl) (t : Time) (tr : list Obs) :
  paced first delta tr -> paced first delta (Invoked impl t :: tr).
Proof. intros H. exact H. Qed.

Lemma paced_Sent (first delta : Time) (size : Z) (tos : option Z) (tr : list Obs) :
  paced first delta tr ->
  paced first delta
    (Sent size tos (first + Z.of_nat (length (send_times tr)) * delta) :: tr).
Proof.
  unfold paced. intros H. cbn [send_times rev length].
  rewrite H, seq_S, map_app. reflexivity.
Qed.

Lemma step_pacing (first delta : Time) (w w' : World) :
  pacing first delta w -> step w = Some w' -> pacing first delta w'.
Proof.
  intros (Hst & (Hp & Hne & Hdue) & Hd) Hstep.
  split; [exact (step_started w w' Hst Hstep) |].
  destruct Hst as (Hstart & Hse & Hstop & _).
  unfold Generator.step in Hstep.
  destruct (m_events (sim w)) as [| e q] eqn:Hq; [discriminate |].
  injection Hstep as <-.
  rewrite (pending_cons EvStart e q _ Hq) in Hstart.
  rewrite (pending_cons EvSend e q _ Hq) in Hse, Hstop, Hdue.
  set (s1 := {| Now := ev_ts e; m_uid := m_uid (sim w); m_events := q;
                m_trace := Invoked (ev_impl e) (ev_ts e) :: m_trace (sim w) |}).
  set (w1 := {| sim := s1; app := app w |}).
  destruct (ev_impl e) eqn:Himpl.
  - rewrite decide_True in Hstart by reflexivity. discriminate.
  - rewrite decide_False in Hse, Hdue by discriminate.
    destruct (invoke_stop_shape w1) as (Ht & _ & Hi & _ & He).
    cbn [sim app w1] in Ht, He, Hi.
    assert (HB : pending EvSend (sim (invoke EvStop w1)) = []).
    { unfold pending at 1. rewrite He. destruct Hse as [Hse | (es & Hse & Hid)].
      - apply Cancel_pending. exact Hse.
      - rewrite Hid. apply Cancel_held. exact Hse. }
    unfold on_pace. rewrite Ht, HB, Hi. cbn [s1 m_trace send_times].
    repeat split; auto. intros x Hx. inversion Hx.
  - rewrite decide_True in Hse, Hdue by reflexivity.
    assert (Hq0 : filter (fun x => ev_impl x = EvSend) q = []).
    { destruct Hse as [Hse | (es & Hse & _)]; [discriminate |].
      injection Hse as _ Hse. exact Hse. }
    pose proof (Hdue e ltac:(apply list_elem_of_here)) as Hts.
    destruct (invoke_send_shape EvSend w1 ltac:(discriminate))
      as (size & tos & Ht & _ & Hi & He).
    cbn [sim app w1 s1 Now m_uid m_events m_trace] in Ht, He, Hi.
    unfold on_pace. rewrite Ht, Hi. cbn [send_times length].
    split; [split; [| split] | exact Hd].
    + rewrite Hts. apply (paced_Sent first delta size tos (Invoked EvSend _ :: _)).
      exact Hp.
    + discriminate.
    + intros x. unfold pending. destruct He as [-> | [-> _]].
      * rewrite Hq0. intros Hx. inversion Hx.
      * rewrite filter_Insert_only by (try reflexivity; exact Hq0).
        intros Hx. apply list_elem_of_singleton in Hx. subst x.
        cbn [ev_ts]. rewrite Hd, Hts. lia.
Qed.

Lemma run_pacing (first delta : Time) (fuel : nat) :
  forall w, pacing first delta w -> pacing first delta (run fuel w).
Proof.
  induction fuel as [| fuel IH]; intros w Hw; [exact Hw |].
  cbn [Generator.run]. destruct (step w) as [w' |] eqn:Hstep; [| exact Hw].
  apply IH. exact (step_pacing first delta w w' Hw Hstep).
Qed.

(** In every run of a generator of either variant the sends are the start
    time and then one interval apart each, without drift: the [k]-th send
    is at [start + k * Seconds (interval_seconds g)], where the number of
    seconds is the double the generator computes from its packet size and
    rate. *)
Theorem sends_are_paced
    (g : Generator.t) (start : Time) (stop : option Time) (fuel : nat) :
  boot_ok start stop ->
  paced start (Seconds (interval_seconds g))
    (m_trace (sim (run fuel (boot g start stop)))).
Proof.
  intros Hok. destruct fuel as [| fuel].
  - destruct stop; apply paced_nil.
  - destruct (boot_step g start stop Hok) as (w1 & Hstep & Hw1 & Hsend & Hi & Hdue).
    cbn [Generator.run]. rewrite Hstep.
    assert (Hp : pacing start (Seconds (interval_seconds g)) w1).
    { split; [exact Hw1 |]. split; [| rewrite Hi; reflexivity].
      unfold on_pace, paced. rewrite Hsend. cbn.
      repeat split; [f_equal; lia | discriminate |].
      intros e He. rewrite (Hdue e He). lia. }
    destruct (run_pacing _ _ fuel w1 Hp) as (_ & (H & _) & _). exact H.
Qed.

(** *** The packet-count limit of the voice flow *)

Local Abbreviation sent w := (Z.of_nat (length (send_times (m_trace (sim w))))).

Lemma step_counting (n : Z) (w : World) :
  0 <= n < 2 ^ 32 -> counting n w ->
  match step w with
  | None => sent w = Z.max 1 n /\ m_events (sim w) = []
  | Some w' => counting n w' /\ sent w' = sent w + 1
  end.
Proof.
  intros Hn (a & Happ & Hrun & Hlim & Hps & Hrange & Hev).
  destruct w as [s g]. cbn [app sim] in *. subst g.
  unfold Generator.step; cbn [sim app].
  destruct Hev as [(Hlt & e & Hev & Himpl) | (Hge & Hev)]; rewrite Hev.
  - rewrite Himpl. unfold Generator.invoke; cbn [app sim lift].
    unfold VoipApplication.SendPacket; cbn [VoipApplication.m_packetsSent
      VoipApplication.m_nPackets VoipApplication.m_packetSize].
    assert (Hw : wrap32 (VoipApplication.m_packetsSent a + 1) =
                 VoipApplication.m_packetsSent a + 1).
    { unfold wrap32, UINT32_MOD. apply Z.mod_small. lia. }
    rewrite Hw, Hlim.
    destruct (Z.ltb_spec (VoipApplication.m_packetsSent a + 1) n) as [Hmore | Hlast].
    + unfold VoipApplication.ScheduleTx; cbn [VoipApplication.m_running].
      rewrite Hrun. cbn. split; [| lia].
      eexists. split; [reflexivity |]. cbn.
      repeat split; try assumption; try lia.
      left. split; [lia |]. eexists. split; [reflexivity |]. reflexivity.
    + cbn. split; [| lia].
      eexists. split; [reflexivity |]. cbn.
      repeat split; try assumption; try lia.
      right. split; [lia | reflexivity].
  - split; [lia | reflexivity].
Qed.

Lemma run_counting (n : Z) (fuel : nat) :
  0 <= n < 2 ^ 32 ->
  forall w, counting n w ->
    Z.max 1 n - sent w <= Z.of_nat fuel ->
    sent (run fuel w) = Z.max 1 n /\ m_events (sim (run fuel w)) = [].
Proof.
  intros Hn. induction fuel as [| fuel IH]; intros w Hw Hfuel.
  - cbn [Generator.run].
    destruct Hw as (a & _ & _ & _ & Hps & Hrange & Hev).
    destruct Hev as [(Hlt & _) | (Hge & Hev)]; [lia |].
    split; [lia | exact Hev].
  - cbn [Generator.run]. pose proof (step_counting n w Hn Hw) as Hstep.
    destruct (step w) as [w' |]; [| exact Hstep].
    destruct Hstep as [Hw' Hsent]. apply IH; [exact Hw' | lia].
Qed.

Lemma boot_counting (a : VoipApplication.t) (start : Time) :
  0 <= VoipApplication.m_nPackets a < 2 ^ 32 ->
  exists w1,
    step (boot (Voip a) start None) = Some w1 /\
    counting (VoipApplication.m_nPackets a) w1 /\ sent w1 = 1.
Proof.
  intros Hn. unfold Generator.step, boot; cbn [sim app m_events Schedule snd Insert].
  eexists. split; [reflexivity |].
  unfold Generator.invoke; cbn [app sim lift ev_impl].
  unfold VoipApplication.StartApplication, VoipApplication.SendPacket;
    cbn [VoipApplication.m_packetsSent VoipApplication.m_nPackets
         VoipApplication.m_packetSize].
  change (wrap32 (0 + 1)) with 1.
  destruct (Z.ltb_spec 1 (VoipApplication.m_nPackets a)) as [Hmore | Hlast].
  - unfold VoipApplication.ScheduleTx; cbn. split; [| reflexivity].
    eexists. split; [reflexivity |]. cbn.
    repeat split; try lia.
    left. split; [lia |]. eexists. split; [reflexivity |]. reflexivity.
  - cbn. split; [| reflexivity].
    eexists. split; [reflexivity |]. cbn.
    repeat split; try lia. right. split; [lia | reflexivity].
Qed.

(** C10: a voice flow that is started and never stopped sends
    [max 1 n] packets for a limit of [n] and then has nothing pending: one
    packet for a limit of zero (the send of the start is unconditional, the
    limit is read only after a send), and [n] packets for [n >= 1]. *)
Theorem Voip_sends_up_to_limit
    (a : VoipApplication.t) (start : Time) (fuel : nat) :
  0 <= VoipApplication.m_nPackets a < 2 ^ 32 ->
  Z.max 1 (VoipApplication.m_nPackets a) <= Z.of_nat fuel ->
  sent (run fuel (boot (Voip a) start None)) = Z.max 1 (VoipApplication.m_nPackets a) /\
  m_events (sim (run fuel (boot (Voip a) start None))) = [] /\
  (VoipApplication.m_nPackets a = 0 ->
   sent (run fuel (boot (Voip a) start None)) = 1) /\
  (1 <= VoipApplication.m_nPackets a ->
   sent (run fuel (boot (Voip a) start None)) = VoipApplication.m_nPackets a).
Proof.
  intros Hn Hfuel.
  destruct fuel as [| fuel]; [lia |].
  destruct (boot_counting a start Hn) as (w1 & Hstep & Hw1 & Hone).
  cbn [Generator.run]. rewrite Hstep.
  destruct (run_counting _ fuel Hn w1 Hw1 ltac:(lia)) as [Hsent Hev].
  rewrite Hsent. repeat split; [exact Hev | lia | lia].
Qed.

End WithSeconds.

(** *** The theorems at concrete inputs *)

(** A send is due at the very time of the stop: the stop was scheduled
    first, runs first and cancels it. *)
Example stop_wins_the_race :
  let w := run nanoseconds 5 (boot flood_2Mbps 10000000000 (Some 10004096000)) in
  m_trace (sim w) =
    [Invoked EvStop 10004096000; Sent 1024 None 10000000000;
     Invoked EvStart 10000000000] /\
  m_events (sim w) = [].
Proof. vm_compute. split; reflexivity. Qed.

Lemma no_send_after_StopApplication_witness :
  no_send_after_stop
    (m_trace (sim (run nanoseconds 5
                     (boot flood_2Mbps 10000000000 (Some 10004096000))))) /\
  (stop_seen (sim (run nanoseconds 5
                     (boot flood_2Mbps 10000000000 (Some 10004096000)))) = true ->
   pending EvSend (sim (run nanoseconds 5
                          (boot flood_2Mbps 10000000000 (Some 10004096000)))) = []).
Proof.
  apply (no_send_after_StopApplication nanoseconds flood_2Mbps
           10000000000 10004096000 5).
  lia.
Defined.

Lemma sends_are_paced_witness :
  paced 10000000000 (nanoseconds (interval_seconds flood_2Mbps))
    (m_trace (sim (run nanoseconds 4 (boot flood_2Mbps 10000000000 None)))).
Proof.
  apply (sends_are_paced nanoseconds flood_2Mbps 10000000000 None 4).
  exact I.
Defined.

Example flood_is_paced_run :
  rev (send_times
         (m_trace (sim (run nanoseconds 4 (boot flood_2Mbps 10000000000 None))))) =
    [10000000000; 10004096000; 10008192000; 10012288000].
Proof. vm_compute. reflexivity. Qed.

Lemma Voip_sends_up_to_limit_witness :
  Z.of_nat (length (send_times (m_trace (sim
    (run nanoseconds 5 (boot (voip_with 160 3) 2000000000 None)))))) =
    Z.max 1 (VoipApplication.m_nPackets
               (VoipApplication.Setup Unbound 167838210 160 3 64000
                  VoipApplication.ctor)) /\
  m_events (sim (run nanoseconds 5 (boot (voip_with 160 3) 2000000000 None))) = [] /\
  (VoipApplication.m_nPackets
     (VoipApplication.Setup Unbound 167838210 160 3 64000 VoipApplication.ctor) = 0 ->
   Z.of_nat (length (send_times (m_trace (sim
     (run nanoseconds 5 (boot (voip_with 160 3) 2000000000 None)))))) = 1) /\
  (1 <= VoipApplication.m_nPackets
          (VoipApplication.Setup Unbound 167838210 160 3 64000 VoipApplication.ctor) ->
   Z.of_nat (length (send_times (m_trace (sim
     (run nanoseconds 5 (boot (voip_with 160 3) 2000000000 None)))))) =
   VoipApplication.m_nPackets
     (VoipApplication.Setup Unbound 167838210 160 3 64000 VoipApplication.ctor)).
Proof.
  apply (Voip_sends_up_to_limit nanoseconds
           (VoipApplication.Setup Unbound 167838210 160 3 64000 VoipApplication.ctor)
           2000000000 5).
  - cbn. lia.
  - cbn. lia.
Defined.

Example Voip_limit_zero_sends_one :
  let w := run nanoseconds 5 (boot (voip_with 160 0) 2000000000 None) in
  m_trace (sim w) = [Sent 160 (Some 184) 2000000000; Invoked EvStart 2000000000] /\
  m_events (sim w) = [].
Proof. vm_compute. split; reflexivity. Qed.

(** The interval of the flood of exercise 3 is the double nearest to
    0.004096; it lies below 0.004096, and which tick it becomes is the
    framework's choice: the nearest nanosecond is 4096000, the nanosecond
    below is 4095999. *)
Example flood_interval_seconds :
  interval_seconds flood_2Mbps = (8192 / 2000000)%float /\
  interval_seconds flood_2Mbps = 0x1.0c6f7a0b5ed8dp-8%float /\
  nanoseconds (interval_seconds flood_2Mbps) = 4096000 /\
  nanoseconds_below (interval_seconds flood_2Mbps) = 4095999.
Proof. vm_compute. repeat split; reflexivity. Qed.

(** The product [m_packetSize * 8] is a 32-bit one: a voice flow with
    packets of [2^29] bytes has an interval of zero seconds. *)
Example Voip_interval_wraps :
  interval_seconds (voip_with 536870912 3) = 0%float /\
  (double_of_Z (536870912 * 8) / double_of_Z 64000)%float =
    0x1.0624dd2f1a9fcp+16%float.
Proof. vm_compute. split; reflexivity. Qed.

End GeneratorProofs.

(** ** The per-flow throughput *)

Module FlowAnalysisProofs.
Import FlowAnalysis.





End FlowAnalysisProofs.

(** ** Lookup and failover *)

Module RoutingProofs.
Import Routing.

Lemma lowest_In (l : list RouteEntry) (e : RouteEntry) :
  lowest l = Some e -> In e l.
Proof.
  revert e. induction l as [| x l IH]; intros e; cbn [lowest]; [discriminate |].
  destruct (lowest l) as [b |].
  - destruct (metric x <=? metric b); intros [= <-]; [left; reflexivity |].
    right. apply IH. reflexivity.
  - intros [= <-]. left. reflexivity.
Qed.

Lemma lowest_least (l : list RouteEntry) (e : RouteEntry) :
  lowest l = Some e -> forall x, In x l -> metric e <= metric x.
Proof.
  revert e. induction l as [| y l IH]; intros e; cbn [lowest]; [discriminate |].
  destruct (lowest l) as [b |] eqn:Hb.
  - destruct (Z.leb_spec (metric y) (metric b)); intros [= <-] x [-> | Hx];
      try lia; specialize (IH b eq_refl x Hx); lia.
  - intros [= <-] x [-> | Hx]; [lia |].
    destruct l as [| z l]; [destruct Hx |].
    cbn [lowest] in Hb. destruct (lowest l) as [b |];
      [destruct (metric z <=? metric b) |]; discriminate.
Qed.

(** What [Lookup] returns is an entry of the table, for the destination,
    over a link that is Up, and of the lowest metric among such entries. *)
Lemma Lookup_sound (state : Link -> LinkState) (rt : RoutingTable) (dest : Z)
    (e : RouteEntry) :
  Lookup state rt dest = Some e ->
  In e rt /\ for_destination dest e = true /\ state (link e) = Up /\
  forall x, In x rt -> for_destination dest x = true -> state (link x) = Up ->
            metric e <= metric x.
Proof.
  unfold Lookup. intros H.
  pose proof (lowest_In _ _ H) as Hin. apply List.filter_In in Hin.
  destruct Hin as [Hin Hok]. apply andb_true_iff in Hok. destruct Hok as [Hd Hu].
  repeat split; try assumption.
  - destruct (state (link e)); [reflexivity | discriminate].
  - intros x Hx Hxd Hxu. apply (lowest_least _ _ H).
    apply List.filter_In. split; [exact Hx |]. rewrite Hxd, Hxu. reflexivity.
Qed.

(** C1: [Lookup] never returns an entry whose link is Down; and when the
    link of the metric-1 entry fails at 4.0s while the link of the metric-2
    entry stays Up, a lookup at 4.1s returns the metric-2 entry (a lookup
    before the failure returns the metric-1 entry). *)
Theorem Lookup_never_returns_down_link :
  (forall (state : Link -> LinkState) (rt : RoutingTable) (dest : Z) (e : RouteEntry),
     Lookup state rt dest = Some e -> state (link e) <> Down) /\
  link_state (devices_at 4100) link_hq_dc = Down /\
  link_state (devices_at 4100) link_hq_branch = Up /\
  metric route_direct = 1 /\ metric route_via_branch = 2 /\
  Lookup (link_state (devices_at 4100)) table_hq (Ipv4StaticRouting.ipv4 10 1 2 2) =
    Some route_via_branch /\
  Lookup (link_state (devices_at 3900)) table_hq (Ipv4StaticRouting.ipv4 10 1 2 2) =
    Some route_direct.
Proof.
  split.
  - intros state rt dest e H. destruct (Lookup_sound state rt dest e H) as (_ & _ & Hu & _).
    rewrite Hu. discriminate.
  - vm_compute. repeat split; reflexivity.
Qed.

Lemma Lookup_never_returns_down_link_witness :
  link_state (devices_at 4100) (link route_via_branch) <> Down.
Proof.
  apply (proj1 Lookup_never_returns_down_link (link_state (devices_at 4100))
           table_hq (Ipv4StaticRouting.ipv4 10 1 2 2) route_via_branch).
  vm_compute. reflexivity.
Defined.

End RoutingProofs.

(** ** The admission controller over a sequence of calls *)

Module AdmissionLogProofs.
Import RateLimiter AdmissionLog RateLimiterProofs.

Section WithResolution.

Variable second : Time.
Hypothesis second_pos : 0 < second.

Local Abbreviation wf := (wf second).
Local Abbreviation maxBytes := (maxBytes second).
Local Abbreviation AllowPacket := (AllowPacket second).
Local Abbreviation AllowPackets := (AllowPackets second).

Lemma AllowPackets_cons (c : Call) (rest : list Call) (st : t) :
  AllowPackets (c :: rest) st =
    (fst (AllowPacket (packet c) (from c) (at_time c) st) ::
       fst (AllowPackets rest (snd (AllowPacket (packet c) (from c) (at_time c) st))),
     snd (AllowPackets rest (snd (AllowPacket (packet c) (from c) (at_time c) st)))).
Proof.
  cbn [AdmissionLog.AllowPackets].
  destruct (AllowPacket (packet c) (from c) (at_time c) st) as [ok st1]. cbn [fst snd].
  destruct (AllowPackets rest st1) as [oks st2]. reflexivity.
Qed.

Lemma maxBytes_AllowPacket (p : Packet) (f : Z) (now : Time) (st : t) :
  maxBytes (snd (AllowPacket p f now st)) = maxBytes st.
Proof.
  unfold RateLimiter.AllowPacket.
  rewrite (maxBytes_Admit second), (maxBytes_ResetWindow second). reflexivity.
Qed.

Lemma wf_AllowPackets (calls : list Call) :
  forall st, wf st -> Forall (fun c => wf_packet (packet c)) calls ->
  wf (snd (AllowPackets calls st)).
Proof.
  induction calls as [| c rest IH]; intros st Hwf Hps; [exact Hwf |].
  rewrite AllowPackets_cons. cbn [snd]. inversion Hps as [| ? ? Hp Hrest]; subst.
  apply IH; [| exact Hrest]. apply (wf_AllowPacket second second_pos); assumption.
Qed.

Lemma maxBytes_AllowPackets (calls : list Call) :
  forall st, maxBytes (snd (AllowPackets calls st)) = maxBytes st.
Proof.
  induction calls as [| c rest IH]; intros st; [reflexivity |].
  rewrite AllowPackets_cons. cbn [snd]. rewrite IH. apply maxBytes_AllowPacket.
Qed.

(** The test of one call, on a well-formed limiter. *)
Lemma AllowPacket_test (p : Packet) (f : Z) (now : Time) (st : t) :
  wf st -> wf_packet p ->
  fst (AllowPacket p f now st) =
    (m_bytesInWindow (ResetWindow now st) + GetSize p <=? maxBytes st) /\
  m_bytesInWindow (snd (AllowPacket p f now st)) =
    m_bytesInWindow (ResetWindow now st) +
    (if fst (AllowPacket p f now st) then GetSize p else 0).
Proof.
  intros Hwf Hp. unfold RateLimiter.AllowPacket, RateLimiter.Admit.
  rewrite (sum_no_wrap second p _ (wf_ResetWindow second now st Hwf) Hp).
  rewrite (maxBytes_ResetWindow second).
  destruct (_ <=? _); cbn [fst snd m_bytesInWindow]; split; try reflexivity; lia.
Qed.

(** A packet that alone is larger than the bytes of a window is denied at
    any time, also on an empty or a fresh window.  The denial adds nothing
    to the window: after the call the window holds what the reset check
    left, which is nothing when the call found the window expired and the
    bytes it held before otherwise. *)
Theorem AllowPacket_denies_oversize
    (p : Packet) (f : Z) (now : Time) (st : t) :
  wf st -> wf_packet p -> maxBytes st < GetSize p ->
  fst (AllowPacket p f now st) = false /\
  m_bytesInWindow (snd (AllowPacket p f now st)) =
    m_bytesInWindow (ResetWindow now st) /\
  m_bytesInWindow (snd (AllowPacket p f now st)) =
    (if window_expired now st then 0 else m_bytesInWindow st).
Proof.
  intros Hwf Hp Hbig.
  destruct (AllowPacket_test p f now st Hwf Hp) as [Hv Hb].
  destruct (wf_ResetWindow second now st Hwf) as (_ & _ & Hbytes & _).
  assert (Hd : fst (AllowPacket p f now st) = false).
  { rewrite Hv. apply Z.leb_gt. lia. }
  assert (Hkeep : m_bytesInWindow (snd (AllowPacket p f now st)) =
                  m_bytesInWindow (ResetWindow now st)).
  { rewrite Hb, Hd. lia. }
  split; [exact Hd |]. split; [exact Hkeep |].
  rewrite Hkeep. unfold ResetWindow. destruct (window_expired now st); reflexivity.
Qed.

(** The counter of dropped packets counts the denials: after any sequence
    of calls it has grown by the number of denied calls, modulo [2^32]. *)
Theorem AllowPackets_counts_denials (calls : list Call) (st : t) :
  is_uint32 (m_droppedPackets st) ->
  GetDroppedPackets (snd (AllowPackets calls st)) =
    wrap32 (m_droppedPackets st + denied (fst (AllowPackets calls st))).
Proof.
  unfold GetDroppedPackets. revert st.
  induction calls as [| c rest IH]; intros st Hd.
  - cbn. unfold denied; cbn. rewrite Z.add_0_r. symmetry. apply wrap32_small.
    exact Hd.
  - rewrite AllowPackets_cons. cbn [fst snd].
    set (r := AllowPacket (packet c) (from c) (at_time c) st).
    assert (Hstep : m_droppedPackets (snd r) =
                    wrap32 (m_droppedPackets st + if fst r then 0 else 1)).
    { unfold r, RateLimiter.AllowPacket, RateLimiter.Admit.
      assert (Hk : m_droppedPackets (ResetWindow (at_time c) st) = m_droppedPackets st).
      { unfold ResetWindow. destruct (window_expired _ _); reflexivity. }
      destruct (_ <=? _); cbn [fst snd m_droppedPackets]; rewrite Hk.
      - rewrite Z.add_0_r. symmetry. apply wrap32_small. exact Hd.
      - reflexivity. }
    rewrite IH by (rewrite Hstep; apply wrap32_range).
    rewrite Hstep. unfold denied. rewrite (filter_cons _ (fst r)).
    unfold wrap32, UINT32_MOD.
    destruct (fst r); cbn [decide_rel]; rewrite Zplus_mod_idemp_l; f_equal.
    + destruct (decide (true = false)) as [E | _]; [discriminate E | lia].
    + destruct (decide (false = false)) as [_ | E]; [| contradiction].
      cbn [length]. lia.
Qed.

(** A limiter whose window holds no more than the bytes of a window keeps
    it so, whatever the packets and the times of the calls. *)
Theorem AllowPackets_within_budget (calls : list Call) (st : t) :
  wf st -> Forall (fun c => wf_packet (packet c)) calls ->
  m_bytesInWindow st <= maxBytes st ->
  m_bytesInWindow (snd (AllowPackets calls st)) <= maxBytes st /\
  maxBytes (snd (AllowPackets calls st)) = maxBytes st.
Proof.
  intros Hwf Hps Hle. split; [| apply maxBytes_AllowPackets].
  revert st Hwf Hps Hle.
  induction calls as [| c rest IH]; intros st Hwf Hps Hle; [exact Hle |].
  rewrite AllowPackets_cons. cbn [snd]. inversion Hps as [| ? ? Hp Hrest]; subst.
  rewrite <- (maxBytes_AllowPacket (packet c) (from c) (at_time c) st).
  apply IH; [apply (wf_AllowPacket second second_pos); assumption | exact Hrest |].
  rewrite maxBytes_AllowPacket.
  destruct (AllowPacket_test (packet c) (from c) (at_time c) st Hwf Hp) as [Hv Hb].
  rewrite Hb, Hv.
  assert (Hr : m_bytesInWindow (ResetWindow (at_time c) st) <= maxBytes st).
  { destruct (maxBytes_wf second second_pos st Hwf) as [_ Hm].
    unfold ResetWindow. destruct (window_expired _ _); cbn [m_bytesInWindow]; lia. }
  destruct (Z.leb_spec (m_bytesInWindow (ResetWindow (at_time c) st) + GetSize (packet c))
              (maxBytes st)); lia.
Qed.

(** While the calls stay inside the window, the window holds what it held
    plus the bytes of the packets admitted, and its start does not move. *)
Theorem AllowPackets_accounting (calls : list Call) (st : t) :
  wf st -> Forall (fun c => wf_packet (packet c)) calls ->
  Forall (inside_window st) calls ->
  m_bytesInWindow (snd (AllowPackets calls st)) =
    m_bytesInWindow st + admitted_bytes calls (fst (AllowPackets calls st)) /\
  m_windowStart (snd (AllowPackets calls st)) = m_windowStart st.
Proof.
  revert st. induction calls as [| c rest IH]; intros st Hwf Hps Hin.
  - cbn. split; [lia | reflexivity].
  - rewrite AllowPackets_cons. cbn [fst snd admitted_bytes].
    inversion Hps as [| ? ? Hp Hrest]; subst.
    inversion Hin as [| ? ? Hc Hinrest]; subst.
    set (r := AllowPacket (packet c) (from c) (at_time c) st).
    assert (Hkeep : ResetWindow (at_time c) st = st).
    { apply ResetWindow_inside. exact Hc. }
    destruct (AllowPacket_test (packet c) (from c) (at_time c) st Hwf Hp) as [_ Hb].
    fold r in Hb. rewrite Hkeep in Hb.
    assert (Hframe : m_windowStart (snd r) = m_windowStart st /\
                     m_windowSize (snd r) = m_windowSize st).
    { unfold r, RateLimiter.AllowPacket. rewrite Hkeep.
      destruct (Admit_frame second (packet c) st) as (_ & Hw & Hs). split; assumption. }
    destruct Hframe as [Hs Hw].
    destruct (IH (snd r)) as [IHb IHs].
    + apply (wf_AllowPacket second second_pos); assumption.
    + exact Hrest.
    + eapply Forall_impl; [exact Hinrest |]. intros c' Hc'.
      unfold inside_window in *. rewrite Hs, Hw. exact Hc'.
    + rewrite IHb, IHs, Hb, Hs. split; [lia | reflexivity].
Qed.

End WithResolution.

(** *** The theorems at concrete inputs *)

Lemma wf_packet_three_calls :
  Forall (fun c => wf_packet (packet c)) three_calls.
Proof.
  repeat constructor; unfold wf_packet, is_uint32, UINT32_MOD; simpl; lia.
Qed.

Lemma AllowPacket_denies_oversize_witness :
  fst (AllowPacket ns_per_second (mkPacket 125001) 2 20 limiter_1Mbps) = false /\
  m_bytesInWindow (snd (AllowPacket ns_per_second (mkPacket 125001) 2 20 limiter_1Mbps)) =
    m_bytesInWindow (ResetWindow 20 limiter_1Mbps) /\
  m_bytesInWindow (snd (AllowPacket ns_per_second (mkPacket 125001) 2 20 limiter_1Mbps)) =
    (if window_expired 20 limiter_1Mbps then 0 else m_bytesInWindow limiter_1Mbps).
Proof.
  apply (AllowPacket_denies_oversize ns_per_second
           (mkPacket 125001) 2 20 limiter_1Mbps).
  - apply wf_ctor.
  - unfold wf_packet, is_uint32, UINT32_MOD; simpl. lia.
  - vm_compute. reflexivity.
Defined.

(** The same packet two seconds into a window that holds 100000 bytes: the
    call resets the window and then denies the packet. *)
Example AllowPacket_oversize_after_expiry :
  AllowPacket ns_per_second (mkPacket 125001) 2 2000000000
    {| m_rateLimit := 1000000; m_windowSize := ns_per_second;
       m_bytesInWindow := 100000; m_windowStart := 0; m_droppedPackets := 0 |} =
  (false,
   {| m_rateLimit := 1000000; m_windowSize := ns_per_second;
      m_bytesInWindow := 0; m_windowStart := 2000000000; m_droppedPackets := 1 |}).
Proof. vm_compute. reflexivity. Qed.

Lemma AllowPackets_counts_denials_witness :
  GetDroppedPackets (snd (AllowPackets ns_per_second three_calls limiter_full_counter)) =
    wrap32 (m_droppedPackets limiter_full_counter +
            denied (fst (AllowPackets ns_per_second three_calls limiter_full_counter))).
Proof.
  apply (AllowPackets_counts_denials ns_per_second three_calls limiter_full_counter).
  unfold is_uint32, UINT32_MOD; simpl. lia.
Defined.

Lemma AllowPackets_within_budget_witness :
  m_bytesInWindow (snd (AllowPackets ns_per_second three_calls limiter_1Mbps)) <=
    maxBytes ns_per_second limiter_1Mbps /\
  maxBytes ns_per_second (snd (AllowPackets ns_per_second three_calls limiter_1Mbps)) =
    maxBytes ns_per_second limiter_1Mbps.
Proof.
  apply (AllowPackets_within_budget ns_per_second ns_per_second_pos
           three_calls limiter_1Mbps).
  - apply wf_ctor.
  - exact wf_packet_three_calls.
  - vm_compute. discriminate.
Defined.

Lemma AllowPackets_accounting_witness :
  m_bytesInWindow (snd (AllowPackets ns_per_second three_calls limiter_1Mbps)) =
    m_bytesInWindow limiter_1Mbps +
    admitted_bytes three_calls (fst (AllowPackets ns_per_second three_calls limiter_1Mbps)) /\
  m_windowStart (snd (AllowPackets ns_per_second three_calls limiter_1Mbps)) =
    m_windowStart limiter_1Mbps.
Proof.
  apply (AllowPackets_accounting ns_per_second ns_per_second_pos
           three_calls limiter_1Mbps).
  - apply wf_ctor.
  - exact wf_packet_three_calls.
  - repeat constructor.
Defined.

(** The three calls: the second packet is too large, and the counter of a
    limiter at [2^32 - 1] drops wraps to [0] on it. *)
Example three_calls_run :
  AllowPackets ns_per_second three_calls limiter_1Mbps =
    ([true; false; true],
     {| m_rateLimit := 1000000; m_windowSize := ns_per_second;
        m_bytesInWindow := 125000; m_windowStart := 0; m_droppedPackets := 1 |}) /\
  GetDroppedPackets (snd (AllowPackets ns_per_second three_calls limiter_full_counter)) = 0.
Proof. vm_compute. split; reflexivity. Qed.

End AdmissionLogProofs.

(** ** The admission controller and the order of rates *)

Module RateLimitOrderProofs.
Import RateLimiter RateLimiterProofs.

(** The shape of [to_double] above [2^53]: a significand of 53 bits times a
    power of two. *)
Lemma to_double_large (z : Z) :
  2 ^ 53 <= z ->
  exists q r,
    z = q * 2 ^ (Z.log2 z - 52) + r /\ 0 <= r < 2 ^ (Z.log2 z - 52) /\
    2 ^ 52 <= q < 2 ^ 53 /\ 1 <= Z.log2 z - 52 /\
    to_double z =
      (if (2 ^ (Z.log2 z - 52 - 1) <? r) || ((r =? 2 ^ (Z.log2 z - 52 - 1)) && Z.odd q)
       then q + 1 else q) * 2 ^ (Z.log2 z - 52).
Proof.
  intros Hz. assert (Hpos : 0 < z) by lia.
  destruct (Z.log2_spec z Hpos) as [Hlo Hhi].
  assert (Hlog : 53 <= Z.log2 z).
  { destruct (Z.le_gt_cases 53 (Z.log2 z)) as [H | H]; [exact H |].
    assert (2 ^ Z.succ (Z.log2 z) <= 2 ^ 53) by (apply Z.pow_le_mono_r; lia). lia. }
  set (sh := Z.log2 z - 52) in *.
  assert (Hsh : 1 <= sh) by (unfold sh; lia).
  assert (Hpow : 0 < 2 ^ sh) by (apply Z.pow_pos_nonneg; lia).
  assert (Hsplit : 2 ^ Z.log2 z = 2 ^ 52 * 2 ^ sh).
  { rewrite <- Z.pow_add_r by lia. f_equal. unfold sh. lia. }
  assert (Hsplit' : 2 ^ Z.succ (Z.log2 z) = 2 ^ 53 * 2 ^ sh).
  { rewrite <- Z.pow_add_r by lia. f_equal. unfold sh. lia. }
  pose proof (Z.div_mod z (2 ^ sh) ltac:(lia)) as Hdm.
  pose proof (Z.mod_pos_bound z (2 ^ sh) Hpow) as Hr.
  exists (z / 2 ^ sh), (z mod 2 ^ sh).
  split; [lia |]. split; [exact Hr |]. split; [| split; [exact Hsh |]].
  - split.
    + apply Z.div_le_lower_bound; lia.
    + apply Z.div_lt_upper_bound; lia.
  - unfold to_double. destruct (Z.ltb_spec z (2 ^ 53)); [lia |]. reflexivity.
Qed.

Lemma to_double_binade (z : Z) :
  2 ^ 53 <= z -> 2 ^ Z.log2 z <= to_double z <= 2 ^ (Z.log2 z + 1).
Proof.
  intros Hz. destruct (to_double_large z Hz) as (q & r & Hzq & Hr & Hq & Hsh & ->).
  assert (Hpow : 0 < 2 ^ (Z.log2 z - 52)) by (apply Z.pow_pos_nonneg; lia).
  assert (H1 : 2 ^ Z.log2 z = 2 ^ 52 * 2 ^ (Z.log2 z - 52)).
  { rewrite <- Z.pow_add_r by lia. f_equal. lia. }
  assert (H2 : 2 ^ (Z.log2 z + 1) = 2 ^ 53 * 2 ^ (Z.log2 z - 52)).
  { rewrite <- Z.pow_add_r by lia. f_equal. lia. }
  rewrite H1, H2. destruct (_ || _); nia.
Qed.

(** The conversion to [double] keeps the order. *)
Lemma to_double_mono (z z' : Z) :
  0 <= z <= z' -> to_double z <= to_double z'.
Proof.
  intros Hzz.
  destruct (Z.lt_ge_cases z' (2 ^ 53)) as [Hs' | Hl'].
  { rewrite !to_double_small by lia. lia. }
  assert (Hlog' : 53 <= Z.log2 z').
  { apply Z.log2_le_pow2; lia. }
  pose proof (to_double_binade z' Hl') as Hb'.
  assert (Hp' : 2 ^ 53 <= 2 ^ Z.log2 z') by (apply Z.pow_le_mono_r; lia).
  destruct (Z.lt_ge_cases z (2 ^ 53)) as [Hs | Hl].
  { rewrite (to_double_small z) by lia. lia. }
  pose proof (to_double_binade z Hl) as Hb.
  pose proof (Z.log2_le_mono z z' ltac:(lia)) as Hlogs.
  destruct (Z.eq_dec (Z.log2 z) (Z.log2 z')) as [Heq | Hne].
  - destruct (to_double_large z Hl) as (q & r & Hzq & Hr & Hq & Hsh & ->).
    destruct (to_double_large z' Hl') as (q' & r' & Hzq' & Hr' & Hq' & Hsh' & ->).
    rewrite <- Heq in *.
    set (P := 2 ^ (Z.log2 z - 52)) in *.
    set (half := 2 ^ (Z.log2 z - 52 - 1)) in *.
    assert (HP : 0 < P) by (apply Z.pow_pos_nonneg; lia).
    assert (Hqq : q <= q') by nia.
    destruct (Z.eq_dec q q') as [-> | Hlt].
    + assert (Hrr : r <= r') by nia.
      destruct (Z.ltb_spec half r), (Z.eqb_spec r half), (Z.odd q');
        destruct (Z.ltb_spec half r'), (Z.eqb_spec r' half);
        cbn [orb andb]; nia.
    + assert (Hstep : (q + 1) * P <= q' * P) by nia.
      destruct (_ || _), (_ || _); nia.
  - assert (Hup : 2 ^ (Z.log2 z + 1) <= 2 ^ Z.log2 z') by (apply Z.pow_le_mono_r; lia).
    lia.
Qed.

Section WithResolution.

Variable second : Time.
Hypothesis second_pos : 0 < second.

Local Abbreviation wf := (wf second).
Local Abbreviation maxBytes := (maxBytes second).
Local Abbreviation AllowPacket := (AllowPacket second).

(** A higher rate gives no fewer bytes per window. *)
Lemma maxBytes_mono (rate rate' : Z) (st : t) :
  wf st -> is_uint64 rate -> is_uint64 rate' -> rate <= rate' ->
  maxBytes (SetLimit rate st) <= maxBytes (SetLimit rate' st).
Proof.
  intros Hwf Hr Hr' Hle.
  destruct (maxBytes_wf second second_pos _ (wf_SetLimit second rate st Hr Hwf)) as [-> _].
  destruct (maxBytes_wf second second_pos _ (wf_SetLimit second rate' st Hr' Hwf)) as [-> _].
  cbn [SetLimit m_rateLimit]. unfold is_uint64, UINT64_MOD in *.
  assert (0 <= rate / 8 <= rate' / 8).
  { split; [apply Z.div_pos; lia | apply Z.div_le_mono; lia]. }
  apply to_double_mono. split.
  - pose proof (to_double_bounds (rate / 8)). lia.
  - apply to_double_mono. lia.
Qed.

(** Raising the limit never turns an admission into a denial: a packet
    that a limiter admits is admitted, at the same time and in the same
    state, by the limiter with any higher rate. *)
Theorem AllowPacket_monotone_in_limit
    (p : Packet) (from : Z) (now : Time) (rate rate' : Z) (st : t) :
  wf st -> is_uint64 rate -> is_uint64 rate' -> rate <= rate' ->
  fst (AllowPacket p from now (SetLimit rate st)) = true ->
  fst (AllowPacket p from now (SetLimit rate' st)) = true.
Proof.
  intros Hwf Hr Hr' Hle.
  pose proof (maxBytes_mono rate rate' st Hwf Hr Hr' Hle) as Hm.
  unfold RateLimiter.AllowPacket, RateLimiter.Admit.
  rewrite !(maxBytes_ResetWindow second).
  assert (Hb : forall r, m_bytesInWindow (ResetWindow now (SetLimit r st)) =
                         m_bytesInWindow (ResetWindow now st)).
  { intros r. unfold ResetWindow, window_expired. cbn [SetLimit m_windowSize m_windowStart].
    destruct (_ <=? _); reflexivity. }
  rewrite !Hb.
  destruct (Z.leb_spec (wrap64 (m_bytesInWindow (ResetWindow now st) + GetSize p))
              (maxBytes (SetLimit rate st))) as [H1 | H1]; [| discriminate].
  intros _.
  destruct (Z.leb_spec (wrap64 (m_bytesInWindow (ResetWindow now st) + GetSize p))
              (maxBytes (SetLimit rate' st))) as [H2 | H2]; [reflexivity | lia].
Qed.

End WithResolution.

Lemma AllowPacket_monotone_in_limit_witness :
  fst (AllowPacket ns_per_second (mkPacket 200000) 7 5
         (SetLimit 3000000 limiter_1Mbps)) = true.
Proof.
  apply (AllowPacket_monotone_in_limit ns_per_second ns_per_second_pos
           (mkPacket 200000) 7 5 2000000 3000000 limiter_1Mbps).
  - apply wf_ctor.
  - unfold is_uint64, UINT64_MOD. lia.
  - unfold is_uint64, UINT64_MOD. lia.
  - lia.
  - vm_compute. reflexivity.
Defined.

End RateLimitOrderProofs.

(** ** The controller on any table *)

Module PbrTablesProofs.
Import Ipv4StaticRouting PbrController PbrTables PbrControllerProofs.

Lemma watched_entry_for (state : bool) : watched (entry_for state) = true.
Proof. destruct state; reflexivity. Qed.

(** One run of [Toggle] on any table, whatever entries it holds for the
    watched destination (none, one or several, anywhere in the table): it
    leaves exactly one, the one for the flag of the controller, at the end
    of the table; the routes to other destinations are kept, in their
    order; and the flag is flipped. *)
Theorem Toggle_replaces_watched_routes (c : t) (rt : Ipv4StaticRouting.t) :
  Z.of_nat (length rt) < 2 ^ 31 ->
  watched_routes (snd (Toggle c rt)) = [entry_for (m_state c)] /\
  other_routes (snd (Toggle c rt)) = other_routes rt /\
  snd (Toggle c rt) = other_routes rt ++ [entry_for (m_state c)] /\
  m_state (fst (Toggle c rt)) = negb (m_state c) /\
  (length (snd (Toggle c rt)) <= length rt + 1)%nat.
Proof.
  intros Hlen. rewrite (Toggle_table c rt Hlen). cbn [fst snd m_state].
  fold (entry_for (m_state c)).
  rewrite watched_routes_snoc by apply watched_entry_for.
  rewrite other_routes_snoc by apply watched_entry_for.
  repeat split. rewrite length_app. pose proof (other_routes_length rt). simpl. lia.
Qed.

(** The table and the flag after [k + 1] runs of [Toggle], from any flag
    and any table. *)
Lemma toggles_from (c : t) (rt : Ipv4StaticRouting.t) (k : nat) :
  Z.of_nat (length rt) + 1 < 2 ^ 31 ->
  toggles (S k) c rt =
    ({| m_state := if Nat.even k then negb (m_state c) else m_state c |},
     other_routes rt ++ [entry_for (if Nat.even k then m_state c else negb (m_state c))]).
Proof.
  intros Hlen. induction k as [| k IH].
  - cbn [toggles]. rewrite Toggle_table by lia. reflexivity.
  - change (toggles (S (S k)) c rt)
      with (let '(c1, rt1) := toggles (S k) c rt in Toggle c1 rt1).
    rewrite IH. cbv iota beta.
    rewrite Toggle_table.
    + rewrite other_routes_snoc by apply watched_entry_for.
      cbn [m_state]. rewrite Nat.even_succ, <- Nat.negb_even.
      fold (entry_for (if Nat.even k then negb (m_state c) else m_state c)).
      destruct (Nat.even k); cbn [negb]; rewrite ?negb_involutive; reflexivity.
    + rewrite length_app. pose proof (other_routes_length rt). simpl. lia.
Qed.

(** From the first run on the controller has period two: two more runs of
    [Toggle] bring back the same table and the same flag, and the table
    never holds more than the routes to other destinations and one entry
    for the watched one. *)
Theorem toggles_period_two (c : t) (rt : Ipv4StaticRouting.t) (k : nat) :
  Z.of_nat (length rt) + 1 < 2 ^ 31 ->
  toggles (S k + 2) c rt = toggles (S k) c rt /\
  length (snd (toggles (S k) c rt)) = S (length (other_routes rt)).
Proof.
  intros Hlen. replace (S k + 2)%nat with (S (S (S k))) by lia.
  rewrite !toggles_from by exact Hlen.
  rewrite !Nat.even_succ, <- !Nat.negb_even, <- Nat.negb_odd.
  rewrite !Nat.odd_succ.
  split.
  - destruct (Nat.even k); reflexivity.
  - cbn [snd]. rewrite length_app. simpl. lia.
Qed.

Lemma Toggle_replaces_watched_routes_witness :
  watched_routes (snd (Toggle ctor crowded_routes)) = [entry_for (m_state ctor)] /\
  other_routes (snd (Toggle ctor crowded_routes)) = other_routes crowded_routes /\
  snd (Toggle ctor crowded_routes) =
    other_routes crowded_routes ++ [entry_for (m_state ctor)] /\
  m_state (fst (Toggle ctor crowded_routes)) = negb (m_state ctor) /\
  (length (snd (Toggle ctor crowded_routes)) <= length crowded_routes + 1)%nat.
Proof.
  apply (Toggle_replaces_watched_routes ctor crowded_routes). simpl. lia.
Defined.

Lemma toggles_period_two_witness :
  toggles (S 1 + 2) ctor crowded_routes = toggles (S 1) ctor crowded_routes /\
  length (snd (toggles (S 1) ctor crowded_routes)) =
    S (length (other_routes crowded_routes)).
Proof.
  apply (toggles_period_two ctor crowded_routes 1). simpl. lia.
Defined.

(** The crowded table after one run: its three routes to other
    destinations, then the route through the primary next hop. *)
Example Toggle_crowded_run :
  map GetGateway (snd (Toggle ctor crowded_routes)) = [0; 0; 0; primaryHop] /\
  map GetInterface (snd (Toggle ctor crowded_routes)) = [1; 2; 3; 1].
Proof. vm_compute. split; reflexivity. Qed.

End PbrTablesProofs.

(** ** The flood from its start to its stop *)

Module FloodRunProofs.
Import Simulator Generator GeneratorInv FloodRun GeneratorProofs.

Section WithSeconds.

Variable Seconds : float -> Time.

Local Abbreviation invoke := (invoke Seconds).
Local Abbreviation step := (step Seconds).
Local Abbreviation run := (run Seconds).
Local Abbreviation flooding := (flooding Seconds).

Lemma wrap32_succ (z : Z) : wrap32 (wrap32 z + 1) = wrap32 (z + 1).
Proof. unfold wrap32. apply Zplus_mod_idemp_l. Qed.

(** What a start or a send of a running flood does: one packet at the
    current time, the counter one higher, and the next send scheduled one
    interval later under a fresh handle. *)
Lemma invoke_flood (impl : EventImpl) (a : DDoSAttacker.t) (s : Simulator.t) :
  impl = EvStart \/ (impl = EvSend /\ DDoSAttacker.m_running a = true) ->
  exists a',
    invoke impl {| sim := s; app := Flood a |} =
      {| sim :=
           {| Now := Now s;
              m_uid := S (m_uid s);
              m_events :=
                Insert (mkEvent (Now s + Seconds (DDoSAttacker.interval_seconds a))
                          (m_uid s) EvSend) (m_events s);
              m_trace := Sent (DDoSAttacker.m_packetSize a) None (Now s) :: m_trace s |};
         app := Flood a' |} /\
    DDoSAttacker.m_running a' = true /\
    DDoSAttacker.m_sendEvent a' = Some (m_uid s) /\
    DDoSAttacker.m_packetsSent a' =
      wrap32 ((if decide (impl = EvStart) then 0 else DDoSAttacker.m_packetsSent a) + 1) /\
    DDoSAttacker.interval_seconds a' = DDoSAttacker.interval_seconds a.
Proof.
  intros [-> | [-> Hrun]]; unfold Generator.invoke; cbn [app sim lift].
  - unfold DDoSAttacker.StartApplication, DDoSAttacker.SendAttackPacket,
      DDoSAttacker.ScheduleNextPacket; cbn.
    eexists. split; [reflexivity |]. cbn. auto.
  - unfold DDoSAttacker.SendAttackPacket, DDoSAttacker.ScheduleNextPacket; cbn.
    rewrite Hrun. cbn. eexists. split; [reflexivity |]. cbn. auto.
Qed.

(** The first event of the run is the start: it sends one packet and
    leaves the flood with its next send and its stop pending. *)
Lemma boot_flooding (a : DDoSAttacker.t) (start stop : Time) :
  start <= stop ->
  exists w1, step (boot (Flood a) start (Some stop)) = Some w1 /\
             flooding start stop (Seconds (DDoSAttacker.interval_seconds a)) w1 /\
             sent w1 = 1.
Proof.
  intros Hle. unfold Generator.step.
  rewrite (boot_events (Flood a) start (Some stop) Hle), !Z.add_0_l.
  cbn [ev_impl ev_ts app boot].
  change (m_trace (sim (boot (Flood a) start (Some stop)))) with (@nil Obs).
  change (m_uid (sim (boot (Flood a) start (Some stop)))) with 2%nat.
  match goal with
  | |- context [invoke EvStart {| sim := ?s; app := _ |}] =>
      destruct (invoke_flood EvStart a s (or_introl eq_refl))
        as (a' & -> & Hrun & Hid & Hps & Hint)
  end.
  eexists. split; [reflexivity |]. cbn [app sim].
  split; [| reflexivity].
  exists a', 2%nat. unfold sent. cbn [app sim m_trace m_events Now send_times length].
  rewrite Hint, Hps.
  repeat split; try reflexivity; try assumption; try lia.
  f_equal. f_equal. lia.
Qed.

(** One turn of the scheduler on a flood between its start and its stop:
    while the next send is due before the stop it is that send, and the
    flood goes on; otherwise it is the stop, which cancels the send. *)
Lemma step_flooding (start stop delta : Time) (w : World) :
  flooding start stop delta w ->
  exists w',
    step w = Some w' /\
    if start + sent w * delta <? stop
    then flooding start stop delta w' /\ sent w' = sent w + 1
    else stopped stop w' /\ sent w' = sent w.
Proof.
  intros (a & u & Happ & Hrun & Hid & Hps & Hint & Hone & Hseen & Hnow & Hev).
  destruct w as [s g]. cbn [app sim] in *. subst g.
  unfold Generator.step; cbn [sim app]. rewrite Hev. cbn [Insert ev_ts].
  destruct (Z.ltb_spec (start + sent {| sim := s; app := Flood a |} * delta) stop)
    as [Hlt | Hge].
  - cbn [ev_impl ev_ts].
    match goal with
    | |- context [invoke EvSend {| sim := ?s1; app := _ |}] =>
        destruct (invoke_flood EvSend a s1 (or_intror (conj eq_refl Hrun)))
          as (a' & -> & Hrun' & Hid' & Hps' & Hint')
    end.
    eexists. split; [reflexivity |].
    assert (Hsent : sent {| sim :=
                {| Now := start + sent {| sim := s; app := Flood a |} * delta;
                   m_uid := S (m_uid s);
                   m_events :=
                     Insert (mkEvent (start + sent {| sim := s; app := Flood a |} * delta +
                                      Seconds (DDoSAttacker.interval_seconds a))
                               (m_uid s) EvSend) [mkEvent stop 1 EvStop];
                   m_trace :=
                     Sent (DDoSAttacker.m_packetSize a) None
                       (start + sent {| sim := s; app := Flood a |} * delta) ::
                     Invoked EvSend (start + sent {| sim := s; app := Flood a |} * delta) ::
                     m_trace s |};
              app := Flood a' |} = sent {| sim := s; app := Flood a |} + 1).
    { unfold sent. cbn [sim m_trace send_times length]. lia. }
    cbn [Now m_uid m_events m_trace] in *.
    split; [| exact Hsent].
    exists a', (m_uid s). rewrite Hsent. cbn [app sim Now m_events].
    rewrite Hint', Hint, Hps', Hps.
    destruct (decide (EvSend = EvStart)) as [E | _]; [discriminate E |].
    rewrite wrap32_succ.
    repeat split; try reflexivity; try assumption; try lia.
    f_equal. f_equal. lia.
  - cbn [ev_impl ev_ts].
    eexists. split; [reflexivity |].
    unfold Generator.invoke; cbn [app sim lift].
    unfold DDoSAttacker.StopApplication. rewrite Hid.
    cbn [fst snd sim app].
    assert (Hrunning : IsRunning (Some u)
              {| Now := stop; m_uid := m_uid s;
                 m_events := [mkEvent (start + sent {| sim := s; app := Flood a |} * delta)
                                u EvSend];
                 m_trace := Invoked EvStop stop :: m_trace s |} = true).
    { unfold IsRunning. apply bool_decide_eq_true. constructor. reflexivity. }
    rewrite Hrunning. unfold Cancel; cbn [m_events Now m_uid m_trace].
    rewrite filter_cons_False by (cbn; intros H; apply H; reflexivity).
    split.
    + unfold stopped, sent, stop_seen.
      cbn [sim app m_events m_trace Now running packetsSent
           DDoSAttacker.m_running DDoSAttacker.m_packetsSent
           send_times length existsb is_stop orb].
      repeat split. exact Hps.
    + reflexivity.
Qed.

(** The next send is due before the stop exactly while fewer than
    [sends_until] packets have been sent. *)
Lemma before_stop_iff (start stop delta j : Z) :
  0 < delta -> start <= stop -> 1 <= j ->
  (start + j * delta <? stop) = (j <? sends_until start stop delta).
Proof.
  intros Hd Hle Hj. unfold sends_until.
  pose proof (Z.div_mod (stop - start + delta - 1) delta ltac:(lia)) as Hdm.
  pose proof (Z.mod_pos_bound (stop - start + delta - 1) delta Hd) as Hr.
  set (q := (stop - start + delta - 1) / delta) in *.
  destruct (Z.ltb_spec (start + j * delta) stop) as [H1 | H1];
    destruct (Z.ltb_spec j (Z.max 1 q)) as [H2 | H2]; try reflexivity; exfalso; nia.
Qed.

Lemma run_stopped (stop : Time) (fuel : nat) (w : World) :
  stopped stop w -> run fuel w = w.
Proof.
  intros (Hev & _). destruct fuel as [| fuel]; [reflexivity |].
  cbn [Generator.run]. unfold Generator.step. rewrite Hev. reflexivity.
Qed.

Lemma run_flooding (start stop delta : Time) (fuel : nat) :
  0 < delta -> start <= stop ->
  forall w, flooding start stop delta w ->
    sent w <= sends_until start stop delta ->
    sends_until start stop delta - sent w + 1 <= Z.of_nat fuel ->
    stopped stop (run fuel w) /\
    sent (run fuel w) = sends_until start stop delta.
Proof.
  intros Hd Hle. induction fuel as [| fuel IH]; intros w Hw Hsent Hfuel; [lia |].
  assert (Hone : 1 <= sent w) by (destruct Hw as (a & u & H); tauto).
  cbn [Generator.run].
  destruct (step_flooding start stop delta w Hw) as (w' & -> & Hstep).
  rewrite (before_stop_iff start stop delta (sent w) Hd Hle Hone) in Hstep.
  destruct (Z.ltb_spec (sent w) (sends_until start stop delta)) as [Hlt | Hge].
  - destruct Hstep as [Hw' Hs']. apply IH; [exact Hw' | lia | lia].
  - destruct Hstep as [Hw' Hs']. rewrite (run_stopped stop fuel w' Hw').
    split; [exact Hw' | lia].
Qed.

(** A flood that starts at [start] and is stopped at [stop] sends its
    first packet at the start and one more every interval that ends before
    the stop; the stop then cancels the send that is pending, nothing is
    left to run, and the counter of the flood, which has 32 bits, is the
    number of packets sent modulo [2^32]. *)
Theorem Flood_sends_until_stop
    (a : DDoSAttacker.t) (start stop : Time) (fuel : nat) :
  start <= stop ->
  0 < Seconds (DDoSAttacker.interval_seconds a) ->
  sends_until start stop (Seconds (DDoSAttacker.interval_seconds a)) + 1
    <= Z.of_nat fuel ->
  stopped stop (run fuel (boot (Flood a) start (Some stop))) /\
  sent (run fuel (boot (Flood a) start (Some stop))) =
    sends_until start stop (Seconds (DDoSAttacker.interval_seconds a)) /\
  packetsSent (app (run fuel (boot (Flood a) start (Some stop)))) =
    wrap32 (sends_until start stop (Seconds (DDoSAttacker.interval_seconds a))).
Proof.
  intros Hle Hd Hfuel.
  destruct fuel as [| fuel]; [unfold sends_until in Hfuel; lia |].
  destruct (boot_flooding a start stop Hle) as (w1 & Hstep & Hw1 & Hone).
  cbn [Generator.run]. rewrite Hstep.
  assert (Hrun : stopped stop (run fuel w1) /\
                 sent (run fuel w1) =
                   sends_until start stop (Seconds (DDoSAttacker.interval_seconds a))).
  { apply (run_flooding start stop _ fuel Hd Hle w1 Hw1).
    - rewrite Hone. unfold sends_until. lia.
    - rewrite Hone. lia. }
  destruct Hrun as [Hst Hs]. split; [exact Hst |]. split; [exact Hs |].
  destruct Hst as (_ & _ & _ & _ & Hps). rewrite Hps, Hs. reflexivity.
Qed.

Lemma run_flooding_zero (start stop : Time) (fuel : nat) :
  start < stop ->
  forall w, flooding start stop 0 w ->
    flooding start stop 0 (run fuel w) /\
    sent (run fuel w) = sent w + Z.of_nat fuel.
Proof.
  intros Hlt. induction fuel as [| fuel IH]; intros w Hw.
  - cbn [Generator.run]. split; [exact Hw | lia].
  - cbn [Generator.run].
    destruct (step_flooding start stop 0 w Hw) as (w' & -> & Hstep).
    replace (start + sent w * 0 <? stop) with true in Hstep
      by (symmetry; apply Z.ltb_lt; lia).
    destruct Hstep as [Hw' Hs']. destruct (IH w' Hw') as [Hrun Hsent].
    split; [exact Hrun | lia].
Qed.

(** A flood whose interval is no tick at all never reaches its stop: every
    turn of the scheduler is one more send at the instant of the start, the
    clock does not move, and the stop stays pending. *)
Theorem Flood_zero_interval_never_stops
    (a : DDoSAttacker.t) (start stop : Time) (fuel : nat) :
  start < stop ->
  Seconds (DDoSAttacker.interval_seconds a) = 0 ->
  sent (run (S fuel) (boot (Flood a) start (Some stop))) = Z.of_nat (S fuel) /\
  Now (sim (run (S fuel) (boot (Flood a) start (Some stop)))) = start /\
  stop_seen (sim (run (S fuel) (boot (Flood a) start (Some stop)))) = false /\
  running (app (run (S fuel) (boot (Flood a) start (Some stop)))) = true /\
  pending EvStop (sim (run (S fuel) (boot (Flood a) start (Some stop)))) =
    [mkEvent stop 1 EvStop].
Proof.
  intros Hlt Hzero.
  destruct (boot_flooding a start stop ltac:(lia)) as (w1 & Hstep & Hw1 & Hone).
  cbn [Generator.run]. rewrite Hstep. rewrite Hzero in Hw1.
  destruct (run_flooding_zero start stop fuel Hlt w1 Hw1) as [Hrun Hsent].
  destruct Hrun as (a' & u & Happ & Hr & _ & _ & _ & _ & Hseen & Hnow & Hev).
  rewrite Hsent, Hone, Happ.
  repeat split; try assumption; try lia.
  unfold pending. rewrite Hev. cbn [Insert ev_ts].
  match goal with
  | |- context [?x <? stop] => destruct (Z.ltb_spec x stop); [| lia]
  end.
  rewrite filter_cons_False by (cbn; discriminate).
  rewrite filter_cons_True by reflexivity. reflexivity.
Qed.

(** *** The counter of packets *)

Lemma invoke_packetsSent (impl : EventImpl) (w : World) :
  packetsSent (app (invoke impl w)) =
    match impl with
    | EvStart => wrap32 (0 + 1)
    | EvSend => wrap32 (packetsSent (app w) + 1)
    | EvStop => packetsSent (app w)
    end.
Proof.
  destruct w as [s g]. unfold Generator.invoke. cbn [app sim].
  destruct impl, g as [a | a]; cbn [lift];
    unfold VoipApplication.StartApplication, VoipApplication.SendPacket,
      VoipApplication.ScheduleTx, VoipApplication.StopApplication,
      DDoSAttacker.StartApplication, DDoSAttacker.SendAttackPacket,
      DDoSAttacker.ScheduleNextPacket, DDoSAttacker.StopApplication;
    cbn;
    repeat match goal with
      | |- context [if ?b then _ else _] => destruct b; cbn
      end; reflexivity.
Qed.

Lemma step_counted (w w' : World) :
  started w -> step w = Some w' ->
  packetsSent (app w) = wrap32 (sent w) ->
  packetsSent (app w') = wrap32 (sent w').
Proof.
  intros (Hstart & _) Hstep Hc. unfold Generator.step in Hstep.
  destruct (m_events (sim w)) as [| e q] eqn:Hev; [discriminate |].
  injection Hstep as <-. rewrite invoke_packetsSent. cbn [app].
  destruct (ev_impl e) eqn:Himpl.
  - exfalso. rewrite (pending_cons EvStart e q (sim w) Hev) in Hstart.
    destruct (decide (ev_impl e = EvStart)) as [_ | Hne]; [discriminate | congruence].
  - destruct (invoke_stop_shape Seconds
                {| sim := {| Now := ev_ts e; m_uid := m_uid (sim w); m_events := q;
                             m_trace := Invoked EvStop (ev_ts e) :: m_trace (sim w) |};
                   app := app w |}) as (Ht & _).
    unfold sent. rewrite Ht. cbn [sim m_trace send_times]. exact Hc.
  - destruct (invoke_send_shape Seconds EvSend
                {| sim := {| Now := ev_ts e; m_uid := m_uid (sim w); m_events := q;
                             m_trace := Invoked EvSend (ev_ts e) :: m_trace (sim w) |};
                   app := app w |} ltac:(discriminate)) as (size & tos & Ht & _).
    unfold sent. rewrite Ht. cbn [sim m_trace send_times length].
    rewrite Hc. unfold sent. rewrite wrap32_succ. f_equal. lia.
Qed.

Lemma run_counted (fuel : nat) :
  forall w, started w -> packetsSent (app w) = wrap32 (sent w) ->
    packetsSent (app (run fuel w)) = wrap32 (sent (run fuel w)).
Proof.
  induction fuel as [| fuel IH]; intros w Hw Hc; [exact Hc |].
  cbn [Generator.run]. destruct (step w) as [w' |] eqn:Hstep; [| exact Hc].
  apply IH; [exact (step_started Seconds w w' Hw Hstep) |].
  exact (step_counted w w' Hw Hstep Hc).
Qed.

(** From its start on, the counter of a generator of either variant is
    the number of packets it has handed to its socket in this run, modulo
    [2^32]: this is the number its stop reports. *)
Theorem packetsSent_counts_sends
    (g : Generator.t) (start : Time) (stop : option Time) (fuel : nat) :
  boot_ok start stop ->
  packetsSent (app (run (S fuel) (boot g start stop))) =
    wrap32 (sent (run (S fuel) (boot g start stop))).
Proof.
  intros Hok.
  destruct (boot_step Seconds g start stop Hok) as (w1 & Hstep & Hw1 & Hsends & _).
  cbn [Generator.run]. rewrite Hstep.
  apply run_counted; [exact Hw1 |].
  unfold Generator.step in Hstep. rewrite (boot_events g start stop Hok) in Hstep.
  match type of Hstep with
  | Some ?x = Some w1 => assert (Hw : w1 = x) by congruence
  end.
  unfold sent. rewrite Hsends. rewrite Hw, invoke_packetsSent. reflexivity.
Qed.

End WithSeconds.

(** *** Intervals that are no time at all, or no number *)

Lemma Prim2SF_double_of_Z (z : Z) :
  0 < z < 2 ^ 64 ->
  exists m e, Prim2SF (double_of_Z z) = S754_finite false m e.
Proof.
  intros Hz. destruct z as [| p | p]; try lia.
  unfold double_of_Z. destruct (Z.lt_ge_cases (Z.pos p) (2 ^ 53)) as [Hs | Hl].
  - destruct (binary_normalize_small p Hs) as (m & e & -> & Hv & _).
    exists m, e. apply Prim2SF_SF2Prim. exact Hv.
  - destruct (binary_normalize_large p (conj Hl (proj2 Hz))) as (m & e & -> & Hv & _).
    exists m, e. apply Prim2SF_SF2Prim. exact Hv.
Qed.

Lemma interval_seconds_quotient (g : Generator.t) :
  interval_seconds g = (double_of_Z (packet_bits g) / double_of_Z (bit_rate g))%float.
Proof. destruct g; reflexivity. Qed.

Lemma packet_bits_range (g : Generator.t) : 0 <= packet_bits g < 2 ^ 32.
Proof.
  destruct g; unfold packet_bits, wrap32, UINT32_MOD; apply Z.mod_pos_bound; lia.
Qed.

(** The interval of a generator whose rate is zero (as it is before
    [Setup]) is infinite, or not a number when its packets have no bits;
    the interval of a generator whose packets have no bits, of size zero or
    a multiple of [2^29] bytes, is zero seconds. *)
Theorem interval_seconds_degenerate (g : Generator.t) :
  0 <= bit_rate g < 2 ^ 64 ->
  (bit_rate g = 0 -> 0 < packet_bits g -> interval_seconds g = infinity) /\
  (bit_rate g = 0 -> packet_bits g = 0 -> interval_seconds g = nan) /\
  (0 < bit_rate g -> packet_bits g = 0 -> interval_seconds g = 0%float).
Proof.
  intros Hrate. pose proof (packet_bits_range g) as Hbits.
  rewrite interval_seconds_quotient.
  repeat split.
  - intros Hr Hb. rewrite Hr. apply Prim2SF_inj. rewrite div_spec.
    destruct (Prim2SF_double_of_Z (packet_bits g) ltac:(lia)) as (m & e & ->).
    reflexivity.
  - intros Hr Hb. rewrite Hr, Hb. reflexivity.
  - intros Hr Hb. rewrite Hb. apply Prim2SF_inj. rewrite div_spec.
    destruct (Prim2SF_double_of_Z (bit_rate g) ltac:(lia)) as (m & e & ->).
    reflexivity.
Qed.

(** *** The theorems at concrete inputs *)

Lemma Flood_sends_until_stop_witness :
  stopped 10010000000
    (run nanoseconds 5
       (boot (Flood (DDoSAttacker.Setup 167838210 9 2000000 DDoSAttacker.ctor))
          10000000000 (Some 10010000000))) /\
  sent (run nanoseconds 5
          (boot (Flood (DDoSAttacker.Setup 167838210 9 2000000 DDoSAttacker.ctor))
             10000000000 (Some 10010000000))) =
    sends_until 10000000000 10010000000
      (nanoseconds (DDoSAttacker.interval_seconds
                      (DDoSAttacker.Setup 167838210 9 2000000 DDoSAttacker.ctor))) /\
  packetsSent
    (app (run nanoseconds 5
            (boot (Flood (DDoSAttacker.Setup 167838210 9 2000000 DDoSAttacker.ctor))
               10000000000 (Some 10010000000)))) =
    wrap32 (sends_until 10000000000 10010000000
              (nanoseconds (DDoSAttacker.interval_seconds
                              (DDoSAttacker.Setup 167838210 9 2000000
                                 DDoSAttacker.ctor)))).
Proof.
  apply (Flood_sends_until_stop nanoseconds
           (DDoSAttacker.Setup 167838210 9 2000000 DDoSAttacker.ctor)
           10000000000 10010000000 5).
  - lia.
  - vm_compute. reflexivity.
  - vm_compute. discriminate.
Defined.

(** Ten milliseconds of the flood of exercise 3: packets at 0, 4.096 and
    8.192 ms, and none at 12.288 ms. *)
Example flood_ten_milliseconds :
  sends_until 10000000000 10010000000
    (nanoseconds (DDoSAttacker.interval_seconds
                    (DDoSAttacker.Setup 167838210 9 2000000 DDoSAttacker.ctor))) = 3 /\
  rev (send_times (m_trace (sim
    (run nanoseconds 5
       (boot (Flood (DDoSAttacker.Setup 167838210 9 2000000 DDoSAttacker.ctor))
          10000000000 (Some 10010000000)))))) =
    [10000000000; 10004096000; 10008192000].
Proof. vm_compute. split; reflexivity. Qed.

Lemma Flood_zero_interval_never_stops_witness :
  sent (run nanoseconds 4 (boot (Flood flood_too_fast) 10 (Some 20))) = Z.of_nat 4 /\
  Now (sim (run nanoseconds 4 (boot (Flood flood_too_fast) 10 (Some 20)))) = 10 /\
  stop_seen (sim (run nanoseconds 4 (boot (Flood flood_too_fast) 10 (Some 20)))) = false /\
  running (app (run nanoseconds 4 (boot (Flood flood_too_fast) 10 (Some 20)))) = true /\
  pending EvStop (sim (run nanoseconds 4 (boot (Flood flood_too_fast) 10 (Some 20)))) =
    [mkEvent 20 1 EvStop].
Proof.
  apply (Flood_zero_interval_never_stops nanoseconds flood_too_fast 10 20 3).
  - lia.
  - vm_compute. reflexivity.
Defined.

Lemma packetsSent_counts_sends_witness :
  packetsSent (app (run nanoseconds 3 (boot flood_2Mbps 0 (Some 5000000)))) =
    wrap32 (sent (run nanoseconds 3 (boot flood_2Mbps 0 (Some 5000000)))).
Proof.
  apply (packetsSent_counts_sends nanoseconds flood_2Mbps 0 (Some 5000000) 2).
  cbn. lia.
Defined.

Lemma interval_seconds_degenerate_witness :
  (bit_rate flood_unset = 0 -> 0 < packet_bits flood_unset ->
   interval_seconds flood_unset = infinity) /\
  (bit_rate flood_unset = 0 -> packet_bits flood_unset = 0 ->
   interval_seconds flood_unset = nan) /\
  (0 < bit_rate flood_unset -> packet_bits flood_unset = 0 ->
   interval_seconds flood_unset = 0%float).
Proof.
  apply (interval_seconds_degenerate flood_unset). cbn. lia.
Defined.

(** Before [Setup] the interval of a flood is infinite and that of a voice
    flow is not a number; a voice flow set up with packets of no bytes has
    an interval of zero seconds. *)
Example intervals_before_Setup :
  interval_seconds flood_unset = infinity /\
  interval_seconds voip_unset = nan /\
  interval_seconds (voip_with 0 1500) = 0%float.
Proof. vm_compute. repeat split; reflexivity. Qed.

End FloodRunProofs.

(** ** The voice flow from its start to its stop *)

Module VoiceRunProofs.
Import Simulator Generator GeneratorInv FloodRun VoiceRun GeneratorProofs FloodRunProofs.

Section WithSeconds.

Variable Seconds : float -> Time.

Local Abbreviation invoke := (invoke Seconds).
Local Abbreviation step := (step Seconds).
Local Abbreviation run := (run Seconds).
Local Abbreviation voicing := (voicing Seconds).

(** What a start or a send of a running voice flow does: one packet at the
    current time, the counter one higher, and, while the counter is below
    the limit, the next send scheduled one interval later. *)
Lemma invoke_voip (impl : EventImpl) (a : VoipApplication.t) (s : Simulator.t) (ps : Z) :
  (impl = EvStart /\ ps = wrap32 (0 + 1)) \/
  (impl = EvSend /\ VoipApplication.m_running a = true /\
   ps = wrap32 (VoipApplication.m_packetsSent a + 1)) ->
  exists a',
    invoke impl {| sim := s; app := Voip a |} =
      {| sim :=
           {| Now := Now s;
              m_uid := if ps <? VoipApplication.m_nPackets a
                       then S (m_uid s) else m_uid s;
              m_events :=
                if ps <? VoipApplication.m_nPackets a
                then Insert (mkEvent (Now s + Seconds (VoipApplication.interval_seconds a))
                               (m_uid s) EvSend) (m_events s)
                else m_events s;
              m_trace :=
                Sent (VoipApplication.m_packetSize a) (Some 184) (Now s) :: m_trace s |};
         app := Voip a' |} /\
    VoipApplication.m_running a' = true /\
    VoipApplication.m_nPackets a' = VoipApplication.m_nPackets a /\
    VoipApplication.m_packetsSent a' = ps /\
    VoipApplication.interval_seconds a' = VoipApplication.interval_seconds a /\
    (ps < VoipApplication.m_nPackets a ->
     VoipApplication.m_sendEvent a' = Some (m_uid s)).
Proof.
  intros [[-> ->] | (-> & Hrun & ->)]; unfold Generator.invoke; cbn [app sim lift];
    unfold VoipApplication.StartApplication, VoipApplication.SendPacket,
      VoipApplication.ScheduleTx;
    cbn [VoipApplication.m_packetsSent VoipApplication.m_nPackets
         VoipApplication.m_packetSize VoipApplication.m_running];
    rewrite ?Hrun;
    match goal with
    | |- context [?x <? VoipApplication.m_nPackets a] =>
        destruct (Z.ltb_spec x (VoipApplication.m_nPackets a)) as [Hlt | Hge]
    end;
    cbn; eexists; (split; [reflexivity |]); cbn; repeat split; auto;
    intros H; exfalso; lia.
Qed.

(** The first event of the run is the start: it sends one packet. *)
Lemma boot_voicing (a : VoipApplication.t) (start stop : Time) :
  start <= stop -> 0 <= VoipApplication.m_nPackets a < 2 ^ 32 ->
  exists w1, step (boot (Voip a) start (Some stop)) = Some w1 /\
             voicing start stop (Seconds (VoipApplication.interval_seconds a))
               (VoipApplication.m_nPackets a) w1 /\
             sent w1 = 1.
Proof.
  intros Hle Hn. unfold Generator.step.
  rewrite (boot_events (Voip a) start (Some stop) Hle), !Z.add_0_l.
  cbn [ev_impl ev_ts app boot].
  change (m_trace (sim (boot (Voip a) start (Some stop)))) with (@nil Obs).
  change (m_uid (sim (boot (Voip a) start (Some stop)))) with 2%nat.
  match goal with
  | |- context [invoke EvStart {| sim := ?s; app := _ |}] =>
      destruct (invoke_voip EvStart a s (wrap32 (0 + 1)) (or_introl (conj eq_refl eq_refl)))
        as (a' & -> & Hrun & Hlim & Hps & Hint & Hid)
  end.
  change (wrap32 (0 + 1)) with 1 in *.
  eexists. split; [reflexivity |]. cbn [app sim].
  split; [| reflexivity].
  exists a'. unfold sent. cbn [app sim m_trace m_events Now send_times length].
  rewrite Hint, Hps, Hlim.
  repeat split; try reflexivity; try assumption; try lia.
  destruct (Z.ltb_spec 1 (VoipApplication.m_nPackets a)) as [Hlt | Hge].
  - left. split; [exact Hlt |]. exists 2%nat. split; [apply Hid; exact Hlt |].
    f_equal. f_equal. lia.
  - right. split; [exact Hge | reflexivity].
Qed.

(** One turn of the scheduler on a voice flow between its start and its
    stop: while the counter is below the limit and the next send is due
    before the stop it is that send; otherwise it is the stop. *)
Lemma step_voicing (start stop delta : Time) (n : Z) (w : World) :
  0 <= n < 2 ^ 32 ->
  voicing start stop delta n w ->
  exists w',
    step w = Some w' /\
    if (sent w <? n) && (start + sent w * delta <? stop)
    then voicing start stop delta n w' /\ sent w' = sent w + 1
    else stopped stop w' /\ sent w' = sent w.
Proof.
  intros Hn (a & Happ & Hrun & Hlim & Hint & Hps & Hrange & Hseen & Hev).
  destruct w as [s g]. cbn [app sim] in *. subst g.
  set (j := sent {| sim := s; app := Voip a |}) in *.
  assert (Hj : Z.of_nat (length (send_times (m_trace s))) = j) by reflexivity.
  unfold Generator.step; cbn [sim app].
  destruct Hev as [(Hlt & u & Hid & Hev) | (Hge & Hev)]; rewrite Hev.
  - replace (j <? n) with true by (symmetry; apply Z.ltb_lt; exact Hlt).
    cbn [andb Insert ev_ts].
    destruct (Z.ltb_spec (start + j * delta) stop) as [Hbefore | Hafter].
    + cbn [ev_impl ev_ts].
      match goal with
      | |- context [invoke EvSend {| sim := ?s1; app := _ |}] =>
          destruct (invoke_voip EvSend a s1 (wrap32 (VoipApplication.m_packetsSent a + 1))
                      (or_intror (conj eq_refl (conj Hrun eq_refl))))
            as (a' & -> & Hrun' & Hlim' & Hps' & Hint' & Hid')
      end.
      rewrite Hps in *.
      rewrite (RateLimiterProofs.wrap32_small (j + 1)) in * by lia.
      rewrite Hlim in *.
      eexists. split; [reflexivity |].
      cbn [Now m_uid m_events m_trace].
      assert (Hsent : forall s', m_trace s' =
                        Sent (VoipApplication.m_packetSize a) (Some 184) (start + j * delta) ::
                        Invoked EvSend (start + j * delta) :: m_trace s ->
                      forall g', sent {| sim := s'; app := g' |} = j + 1).
      { intros s' Htr g'. unfold sent. cbn [sim]. rewrite Htr.
        cbn [send_times length]. lia. }
      split; [| apply Hsent; reflexivity].
      exists a'. rewrite Hsent by reflexivity. cbn [app sim m_events m_trace].
      rewrite Hint', Hint, Hps', Hlim'.
      repeat split; try reflexivity; try assumption; try lia.
      destruct (Z.ltb_spec (j + 1) n) as [Hmore | Hlast].
      * left. split; [exact Hmore |]. exists (m_uid s).
        split; [apply Hid'; exact Hmore |]. f_equal. f_equal. lia.
      * right. split; [exact Hlast | reflexivity].
    + cbn [ev_impl ev_ts].
      eexists. split; [reflexivity |].
      unfold Generator.invoke; cbn [app sim lift].
      unfold VoipApplication.StopApplication. rewrite Hid.
      cbn [fst snd sim app].
      assert (Hrunning : IsRunning (Some u)
                {| Now := stop; m_uid := m_uid s;
                   m_events := [mkEvent (start + j * delta) u EvSend];
                   m_trace := Invoked EvStop stop :: m_trace s |} = true).
      { unfold IsRunning. apply bool_decide_eq_true. constructor. reflexivity. }
      rewrite Hrunning. unfold Cancel; cbn [m_events Now m_uid m_trace].
      rewrite filter_cons_False by (cbn; intros H; apply H; reflexivity).
      split; [| reflexivity].
      unfold stopped, sent, stop_seen.
      cbn [lift fst snd sim app m_events m_trace Now running packetsSent
           VoipApplication.m_running VoipApplication.m_packetsSent
           send_times length existsb is_stop orb].
      rewrite Hj, Hps, RateLimiterProofs.wrap32_small by lia. repeat split.
  - replace (j <? n) with false by (symmetry; apply Z.ltb_ge; exact Hge).
    cbn [andb ev_impl ev_ts].
    eexists. split; [reflexivity |].
    unfold Generator.invoke; cbn [app sim lift].
    unfold VoipApplication.StopApplication.
    assert (Hidle : IsRunning (VoipApplication.m_sendEvent a)
              {| Now := stop; m_uid := m_uid s; m_events := [];
                 m_trace := Invoked EvStop stop :: m_trace s |} = false).
    { unfold IsRunning. destruct (VoipApplication.m_sendEvent a); [| reflexivity].
      apply bool_decide_eq_false. intros H. inversion H. }
    rewrite Hidle. cbn [fst snd sim app].
    split; [| reflexivity].
    unfold stopped, sent, stop_seen.
    cbn [lift fst snd sim app m_events m_trace Now running packetsSent
         VoipApplication.m_running VoipApplication.m_packetsSent
         send_times length existsb is_stop orb].
    rewrite Hj, Hps, RateLimiterProofs.wrap32_small by lia. repeat split.
Qed.

Lemma continues_iff (start stop delta n j : Z) :
  0 < delta -> start <= stop -> 1 <= j ->
  (j <? n) && (start + j * delta <? stop) = (j <? voice_sends n start stop delta).
Proof.
  intros Hd Hle Hj. rewrite (before_stop_iff start stop delta j Hd Hle Hj).
  unfold voice_sends.
  destruct (Z.ltb_spec j n), (Z.ltb_spec j (sends_until start stop delta)),
    (Z.ltb_spec j (Z.min (Z.max 1 n) (sends_until start stop delta)));
    cbn [andb]; try reflexivity; exfalso; lia.
Qed.

Lemma run_voicing (start stop delta : Time) (n : Z) (fuel : nat) :
  0 <= n < 2 ^ 32 -> 0 < delta -> start <= stop ->
  forall w, voicing start stop delta n w ->
    sent w <= voice_sends n start stop delta ->
    voice_sends n start stop delta - sent w + 1 <= Z.of_nat fuel ->
    stopped stop (run fuel w) /\
    sent (run fuel w) = voice_sends n start stop delta.
Proof.
  intros Hn Hd Hle. induction fuel as [| fuel IH]; intros w Hw Hsent Hfuel; [lia |].
  assert (Hone : 1 <= sent w) by (destruct Hw as (a & H); tauto).
  cbn [Generator.run].
  destruct (step_voicing start stop delta n w Hn Hw) as (w' & -> & Hstep).
  rewrite (continues_iff start stop delta n (sent w) Hd Hle Hone) in Hstep.
  destruct (Z.ltb_spec (sent w) (voice_sends n start stop delta)) as [Hlt | Hge].
  - destruct Hstep as [Hw' Hs']. apply IH; [exact Hw' | lia | lia].
  - destruct Hstep as [Hw' Hs']. rewrite (run_stopped Seconds stop fuel w' Hw').
    split; [exact Hw' | lia].
Qed.

(** A voice flow that is started and stopped sends as many packets as its
    limit and its time both allow: [max 1 n] for a limit of [n], unless the
    stop comes first, and then the packets due before the stop.  After the
    stop nothing is left to run. *)
Theorem Voip_sends_until_limit_or_stop
    (a : VoipApplication.t) (start stop : Time) (fuel : nat) :
  start <= stop ->
  0 <= VoipApplication.m_nPackets a < 2 ^ 32 ->
  0 < Seconds (VoipApplication.interval_seconds a) ->
  voice_sends (VoipApplication.m_nPackets a) start stop
    (Seconds (VoipApplication.interval_seconds a)) + 1 <= Z.of_nat fuel ->
  stopped stop (run fuel (boot (Voip a) start (Some stop))) /\
  sent (run fuel (boot (Voip a) start (Some stop))) =
    voice_sends (VoipApplication.m_nPackets a) start stop
      (Seconds (VoipApplication.interval_seconds a)).
Proof.
  intros Hle Hn Hd Hfuel.
  assert (Hmin : 1 <= voice_sends (VoipApplication.m_nPackets a) start stop
                        (Seconds (VoipApplication.interval_seconds a))).
  { unfold voice_sends, sends_until. lia. }
  destruct fuel as [| fuel]; [lia |].
  destruct (boot_voicing a start stop Hle Hn) as (w1 & Hstep & Hw1 & Hone).
  cbn [Generator.run]. rewrite Hstep.
  apply (run_voicing start stop _ _ fuel Hn Hd Hle w1 Hw1); rewrite Hone; lia.
Qed.

End WithSeconds.

Lemma Voip_sends_until_limit_or_stop_witness :
  stopped 2100000000
    (run nanoseconds 5 (boot (voip_with 160 3) 2000000000 (Some 2100000000))) /\
  sent (run nanoseconds 5 (boot (voip_with 160 3) 2000000000 (Some 2100000000))) =
    voice_sends 3 2000000000 2100000000 (nanoseconds (interval_seconds (voip_with 160 3))).
Proof.
  apply (Voip_sends_until_limit_or_stop nanoseconds
           (VoipApplication.Setup Unbound 167838210 160 3 64000 VoipApplication.ctor)
           2000000000 2100000000 5).
  - lia.
  - cbn. lia.
  - vm_compute. reflexivity.
  - vm_compute. discriminate.
Defined.

(** The voice flow of exercise 2 (160 bytes at 64kbps, one packet every
    20 ms) over 100 ms: three packets under a limit of three, five under
    the limit of 1500. *)
Example voice_hundred_milliseconds :
  sent (run nanoseconds 5 (boot (voip_with 160 3) 2000000000 (Some 2100000000))) = 3 /\
  sent (run nanoseconds 9 (boot (voip_with 160 1500) 2000000000 (Some 2100000000))) = 5 /\
  voice_sends 1500 2000000000 2100000000
    (nanoseconds (interval_seconds (voip_with 160 1500))) = 5.
Proof. vm_compute. repeat split; reflexivity. Qed.

End VoiceRunProofs.

(** ** The statistics loops beyond the throughput *)

Module FlowReportsProofs.
Import FlowAnalysis FlowReports.

(** *** The order of doubles *)

Lemma SFcompare_trans (a b c : spec_float) :
  SFleb a b = true -> SFltb b c = true -> SFltb a c = true.
Proof.
  unfold SFleb, SFltb.
  destruct a as [sa | sa | | sa ma ea], b as [sb | sb | | sb mb eb],
    c as [sc | sc | | sc mc ec]; cbn [SFcompare];
    try discriminate;
    repeat match goal with s : bool |- _ => destruct s end;
    try discriminate; try reflexivity;
    repeat match goal with
      | |- context [PosDef.Pos.compare_cont Eq ?x ?y] =>
          change (PosDef.Pos.compare_cont Eq x y) with (Pos.compare x y)
      end;
    destruct (Z.compare_spec ea eb), (Z.compare_spec eb ec), (Z.compare_spec ea ec);
    cbn [CompOpp]; try discriminate; try reflexivity; try lia; subst;
    destruct (Pos.compare_spec ma mb), (Pos.compare_spec mb mc), (Pos.compare_spec ma mc);
    cbn [CompOpp]; try discriminate; try reflexivity; try lia.
Qed.

Lemma ltb_leb_trans (a b c : float) :
  (a <=? b)%float = true -> (b <? c)%float = true -> (a <? c)%float = true.
Proof. rewrite leb_spec, !ltb_spec. apply SFcompare_trans. Qed.

(** A value no larger passes every test "below a threshold" the larger
    value passes. *)
Lemma below_mono (a b c : float) :
  (a <=? b)%float = true -> (a <? c)%float = false -> (b <? c)%float = false.
Proof.
  intros Hab Hac. destruct (b <? c)%float eqn:Hbc; [| reflexivity].
  rewrite (ltb_leb_trans a b c Hab Hbc) in Hac. discriminate.
Qed.

(** *** The grades *)

Ltac settle_thresholds :=
  repeat match goal with
    | H : false = false -> _ |- _ => specialize (H eq_refl); rewrite H; clear H
    | H : true = false -> _ |- _ => clear H
    end.

(** The grade of the voice flows does not get worse when both the delay
    and the loss get no larger. *)
Theorem quality_monotone (d1 l1 d2 l2 : float) :
  (d1 <=? d2)%float = true -> (l1 <=? l2)%float = true ->
  rank (quality d1 l1) <= rank (quality d2 l2).
Proof.
  intros Hd Hl. unfold quality.
  pose proof (below_mono d1 d2 150 Hd) as D1.
  pose proof (below_mono d1 d2 300 Hd) as D2.
  pose proof (below_mono d1 d2 400 Hd) as D3.
  pose proof (below_mono l1 l2 1 Hl) as L1.
  pose proof (below_mono l1 l2 3 Hl) as L2.
  pose proof (below_mono l1 l2 5 Hl) as L3.
  destruct (d1 <? 150)%float, (d1 <? 300)%float, (d1 <? 400)%float,
    (l1 <? 1)%float, (l1 <? 3)%float, (l1 <? 5)%float;
    settle_thresholds;
    destruct (d2 <? 150)%float, (d2 <? 300)%float, (d2 <? 400)%float,
      (l2 <? 1)%float, (l2 <? 3)%float, (l2 <? 5)%float;
    cbn [andb rank]; lia.
Qed.

(** The same for the business impact of exercise 4. *)
Theorem business_impact_monotone (d1 l1 d2 l2 : float) :
  (d1 <=? d2)%float = true -> (l1 <=? l2)%float = true ->
  BusinessImpact.severity (BusinessImpact.business_impact d1 l1) <=
  BusinessImpact.severity (BusinessImpact.business_impact d2 l2).
Proof.
  intros Hd Hl. unfold BusinessImpact.business_impact.
  pose proof (below_mono d1 d2 100 Hd) as D1.
  pose proof (below_mono d1 d2 250 Hd) as D2.
  pose proof (below_mono l1 l2 1 Hl) as L1.
  pose proof (below_mono l1 l2 5 Hl) as L2.
  destruct (d1 <? 100)%float, (d1 <? 250)%float,
    (l1 <? 1)%float, (l1 <? 5)%float;
    settle_thresholds;
    destruct (d2 <? 100)%float, (d2 <? 250)%float,
      (l2 <? 1)%float, (l2 <? 5)%float;
    cbn [andb BusinessImpact.severity]; lia.
Qed.

(** *** The integer means *)

Section WithClock.

Variable GetSeconds : Time -> float.
Variable GetMilliSeconds : Time -> Z.

Local Abbreviation avgDelay := (avgDelay GetMilliSeconds).
Local Abbreviation avgJitter := (avgJitter GetMilliSeconds).
Local Abbreviation qos_flow := (qos_flow GetSeconds GetMilliSeconds).
Local Abbreviation qos_loop := (qos_loop GetSeconds GetMilliSeconds).

(** Under the test [rxPackets > 0] neither mean divides by zero. *)
Lemma means_defined (s : FlowStats) :
  is_uint32 (rxPackets s) -> 0 < rxPackets s ->
  avgDelay s = Some (Z.quot (GetMilliSeconds (delaySum s)) (rxPackets s)) /\
  avgJitter s =
    Some (if 1 <? rxPackets s
          then Z.quot (GetMilliSeconds (jitterSum s)) (rxPackets s - 1)
          else 0).
Proof.
  intros Hr Hpos. unfold is_uint32, UINT32_MOD in Hr.
  unfold FlowReports.avgDelay, FlowReports.avgJitter, int_div. split.
  - destruct (Z.eqb_spec (rxPackets s) 0); [lia | reflexivity].
  - destruct (Z.ltb_spec 1 (rxPackets s)); [| reflexivity].
    unfold wrap32, UINT32_MOD. rewrite Z.mod_small by lia.
    destruct (Z.eqb_spec (rxPackets s - 1) 0); [lia | reflexivity].
Qed.

Lemma count_cons {A : Type} (test : A -> bool) (x : A) (l : list A) :
  count test (x :: l) = (if test x then 1 else 0) + count test l.
Proof.
  unfold count. cbn [List.filter]. destruct (test x); cbn [length]; lia.
Qed.

(** The loop of exercise 2 divides no integer by zero, whatever the flows,
    and counts every flow that received a packet in exactly one of its two
    classes: as a voice flow when its destination port is 5060, as a bulk
    flow otherwise.  A flow that received nothing is in neither. *)
Theorem qos_loop_divides_safely (stats : list (FiveTuple * FlowStats)) (tot : QosTotals) :
  Forall (fun flow => is_uint32 (rxPackets (snd flow))) stats ->
  exists tot',
    qos_loop tot stats = Some tot' /\
    voipFlows tot' = voipFlows tot +
      count (fun flow => isVoip (fst flow) && (0 <? rxPackets (snd flow))) stats /\
    ftpFlows tot' = ftpFlows tot +
      count (fun flow => negb (isVoip (fst flow)) && (0 <? rxPackets (snd flow))) stats.
Proof.
  revert tot. induction stats as [| [t s] rest IH]; intros tot Hr.
  - exists tot. unfold count. cbn. repeat split; lia.
  - inversion Hr as [| ? ? Hs Hrest]; subst. cbn [fst snd] in Hs.
    cbn [FlowReports.qos_loop]. rewrite !count_cons. cbn [fst snd].
    unfold FlowReports.qos_flow.
    destruct (Z.ltb_spec 0 (rxPackets s)) as [Hpos | Hzero].
    + destruct (means_defined s Hs Hpos) as [-> ->].
      destruct (isVoip t); cbn [andb negb];
        match goal with
        | |- context [FlowReports.qos_loop _ _ ?x rest] =>
            destruct (IH x Hrest) as (tot' & Hrun & Hv & Hf)
        end;
        exists tot'; cbn [voipFlows ftpFlows] in Hv, Hf;
        (split; [exact Hrun | split; lia]).
    + destruct (IH tot Hrest) as (tot' & Hrun & Hv & Hf).
      exists tot'. rewrite !andb_false_r. split; [exact Hrun | split; lia].
Qed.

End WithClock.

(** *** The theorems at concrete inputs *)

Lemma quality_monotone_witness :
  rank (quality 21 0) <= rank (quality 160 2).
Proof. apply (quality_monotone 21 0 160 2); reflexivity. Defined.

Lemma business_impact_monotone_witness :
  BusinessImpact.severity (BusinessImpact.business_impact 90 0) <=
  BusinessImpact.severity (BusinessImpact.business_impact 120 2).
Proof. apply (business_impact_monotone 90 0 120 2); reflexivity. Defined.

Lemma qos_loop_divides_safely_witness :
  exists tot',
    qos_loop seconds_of_ns milliseconds_of_ns qos_zero
      [voice_flow; bulk_flow; silent_flow] = Some tot' /\
    voipFlows tot' = voipFlows qos_zero +
      count (fun flow => isVoip (fst flow) && (0 <? rxPackets (snd flow)))
        [voice_flow; bulk_flow; silent_flow] /\
    ftpFlows tot' = ftpFlows qos_zero +
      count (fun flow => negb (isVoip (fst flow)) && (0 <? rxPackets (snd flow)))
        [voice_flow; bulk_flow; silent_flow].
Proof.
  apply (qos_loop_divides_safely seconds_of_ns milliseconds_of_ns
           [voice_flow; bulk_flow; silent_flow] qos_zero).
  repeat constructor; unfold is_uint32, UINT32_MOD; simpl; lia.
Defined.

(** The three flows: one voice flow with a mean delay of 21 ms, graded
    EXCELLENT, and one bulk flow. *)
Example qos_loop_run :
  option_map (fun tot => (voipAvgDelay tot, voipFlows tot, ftpFlows tot, summary_quality tot))
    (qos_loop seconds_of_ns milliseconds_of_ns qos_zero
       [voice_flow; bulk_flow; silent_flow]) =
  Some (21%float, 1, 1, Some EXCELLENT).
Proof. vm_compute. reflexivity. Qed.

End FlowReportsProofs.

(** ** The security analysis of exercise 3 *)

Module SecurityAnalysisProofs.
Import FlowAnalysis FlowReports SecurityAnalysis FlowReportsProofs.

(** *** Addresses as numbers *)

Lemma lor_low (hi lo k : Z) :
  0 <= k -> 0 <= lo < 2 ^ k -> Z.lor (Z.shiftl hi k) lo = hi * 2 ^ k + lo.
Proof.
  intros Hk Hlo. rewrite Z.shiftl_mul_pow2 by exact Hk.
  assert (Hland : Z.land (hi * 2 ^ k) lo = 0).
  { apply Z.bits_inj'. intros n Hn. rewrite Z.land_spec, Z.bits_0.
    destruct (Z.lt_ge_cases n k) as [Hlt | Hge].
    - rewrite Z.mul_pow2_bits_low by lia. reflexivity.
    - assert (Hbit : Z.testbit lo n = false).
      { destruct (Z.eq_dec lo 0) as [-> | Hnz]; [apply Z.bits_0 |].
        apply Z.bits_above_log2; [lia |].
        apply Z.lt_le_trans with k; [apply Z.log2_lt_pow2; lia | lia]. }
      rewrite Hbit, andb_false_r. reflexivity. }
  rewrite <- Z.lxor_lor by exact Hland.
  symmetry. apply Z.add_nocarry_lxor. exact Hland.
Qed.

Lemma ipv4_value (a b c d : Z) :
  0 <= b < 256 -> 0 <= c < 256 -> 0 <= d < 256 ->
  Ipv4StaticRouting.ipv4 a b c d = a * 2 ^ 24 + b * 2 ^ 16 + c * 2 ^ 8 + d.
Proof.
  intros Hb Hc Hd. unfold Ipv4StaticRouting.ipv4.
  rewrite (lor_low c d 8) by lia.
  rewrite (lor_low b (c * 2 ^ 8 + d) 16) by lia.
  rewrite (lor_low a (b * 2 ^ 16 + (c * 2 ^ 8 + d)) 24) by lia.
  lia.
Qed.

(** *** Which sources count as attackers *)

(** With up to 246 attackers, every address of an attacker's network is
    taken for an attacker's, and no address of the client's network
    10.1.1.0/24 or of the server's network 10.1.2.0/24 is. *)
Theorem attack_sources_classified (i h : Z) (t : FiveTuple) :
  0 <= i <= 245 -> 0 <= h <= 255 ->
  (sourceAddress t = attacker_subnet i + h -> isAttack t = true) /\
  (sourceAddress t = Ipv4StaticRouting.ipv4 10 1 1 h -> isAttack t = false) /\
  (sourceAddress t = Ipv4StaticRouting.ipv4 10 1 2 h -> isAttack t = false).
Proof.
  intros Hi Hh. unfold isAttack, attacker_subnet.
  rewrite (ipv4_value 10 1 10 0) by lia.
  repeat split; intros ->.
  - rewrite (ipv4_value 10 1 (10 + i) 0) by lia. apply Z.leb_le. lia.
  - rewrite (ipv4_value 10 1 1 h) by lia. apply Z.leb_gt. lia.
  - rewrite (ipv4_value 10 1 2 h) by lia. apply Z.leb_gt. lia.
Qed.

(** *** The totals of the loop *)

Section WithClock.

Variable GetMilliSeconds : Time -> Z.
Variable client : Z.

Local Abbreviation security_flow := (security_flow GetMilliSeconds client).
Local Abbreviation security_loop := (security_loop GetMilliSeconds client).
Local Abbreviation counted_legitimate := (counted_legitimate client).
Local Abbreviation counted_attack := (counted_attack client).

Lemma total_cons (field : FlowStats -> Z) (test : FiveTuple * FlowStats -> bool)
    (flow : FiveTuple * FlowStats) (stats : list (FiveTuple * FlowStats)) :
  total field test (flow :: stats) =
    (if test flow then field (snd flow) else 0) + total field test stats.
Proof.
  unfold total. cbn [List.filter]. destruct (test flow); cbn [map fold_right]; lia.
Qed.

Lemma wrap64_add_l (a b : Z) : wrap64 (wrap64 a + b) = wrap64 (a + b).
Proof. unfold wrap64. apply Zplus_mod_idemp_l. Qed.

Lemma wrap64_range (z : Z) : is_uint64 (wrap64 z).
Proof. unfold is_uint64, wrap64, UINT64_MOD. apply Z.mod_pos_bound. lia. Qed.

Ltac finish_step :=
  repeat match goal with |- _ /\ _ => split end;
  first [apply wrap64_range | assumption | reflexivity | lia].

Lemma wrap64_id (z : Z) : is_uint64 z -> wrap64 (z + 0) = z.
Proof.
  intros H. unfold is_uint64, UINT64_MOD in H. unfold wrap64, UINT64_MOD.
  rewrite Z.add_0_r. apply Z.mod_small. lia.
Qed.

(** One turn: it divides no integer by zero, and a flow adds to the totals
    of one class at most. *)
Lemma security_flow_step (tot : Totals) (flow : FiveTuple * FlowStats) :
  in_range tot ->
  exists tot1,
    security_flow tot flow = Some tot1 /\ in_range tot1 /\
    legitimateTx tot1 =
      wrap64 (legitimateTx tot + if counted_legitimate flow then txPackets (snd flow) else 0) /\
    legitimateRx tot1 =
      wrap64 (legitimateRx tot + if counted_legitimate flow then rxPackets (snd flow) else 0) /\
    attackTx tot1 =
      wrap64 (attackTx tot + if counted_attack flow then txPackets (snd flow) else 0) /\
    attackRx tot1 =
      wrap64 (attackRx tot + if counted_attack flow then rxPackets (snd flow) else 0) /\
    legitimateFlows tot1 = legitimateFlows tot +
      if counted_legitimate flow && (0 <? rxPackets (snd flow)) then 1 else 0.
Proof.
  intros (R1 & R2 & R3 & R4). destruct flow as [t s].
  unfold SecurityAnalysis.counted_legitimate, SecurityAnalysis.counted_attack.
  cbn [fst snd]. unfold SecurityAnalysis.security_flow.
  destruct (isLegitimate client t); cbn [negb andb].
  - destruct (Z.ltb_spec 0 (rxPackets s)) as [Hpos | Hzero].
    + unfold avgDelay, int_div.
      destruct (Z.eqb_spec (rxPackets s) 0) as [E | _]; [lia |].
      eexists. split; [reflexivity |].
      cbn [legitimateTx legitimateRx attackTx attackRx legitimateFlows].
      rewrite !wrap64_id by assumption.
      unfold in_range; cbn [legitimateTx legitimateRx attackTx attackRx].
      finish_step.
    + eexists. split; [reflexivity |].
      cbn [legitimateTx legitimateRx attackTx attackRx legitimateFlows].
      rewrite !wrap64_id by assumption.
      unfold in_range; cbn [legitimateTx legitimateRx attackTx attackRx].
      finish_step.
  - destruct (isAttack t).
    + eexists. split; [reflexivity |].
      cbn [legitimateTx legitimateRx attackTx attackRx legitimateFlows].
      rewrite !wrap64_id by assumption.
      unfold in_range; cbn [legitimateTx legitimateRx attackTx attackRx].
      finish_step.
    + exists tot. rewrite !wrap64_id by assumption.
      unfold in_range. finish_step.
Qed.

Lemma security_loop_from (stats : list (FiveTuple * FlowStats)) (tot : Totals) :
  in_range tot ->
  exists tot',
    security_loop tot stats = Some tot' /\
    legitimateTx tot' =
      wrap64 (legitimateTx tot + total txPackets counted_legitimate stats) /\
    legitimateRx tot' =
      wrap64 (legitimateRx tot + total rxPackets counted_legitimate stats) /\
    attackTx tot' =
      wrap64 (attackTx tot + total txPackets counted_attack stats) /\
    attackRx tot' =
      wrap64 (attackRx tot + total rxPackets counted_attack stats) /\
    legitimateFlows tot' = legitimateFlows tot +
      count (fun flow => counted_legitimate flow && (0 <? rxPackets (snd flow))) stats.
Proof.
  revert tot. induction stats as [| flow rest IH]; intros tot Hr.
  - exists tot. destruct Hr as (R1 & R2 & R3 & R4).
    unfold total, count. cbn [List.filter map fold_right length Z.of_nat].
    rewrite !wrap64_id by assumption. repeat split; lia.
  - destruct (security_flow_step tot flow Hr)
      as (tot1 & Hstep & Hr1 & S1 & S2 & S3 & S4 & S5).
    destruct (IH tot1 Hr1) as (tot' & Hrun & H1 & H2 & H3 & H4 & H5).
    exists tot'. cbn [SecurityAnalysis.security_loop]. rewrite Hstep.
    split; [exact Hrun |].
    rewrite !total_cons, count_cons.
    rewrite H1, H2, H3, H4, H5, S1, S2, S3, S4, S5, !wrap64_add_l.
    repeat split; try (f_equal; lia); lia.
Qed.

(** The loop of exercise 3 divides no integer by zero, and its totals are
    the sums, modulo [2^64], over the flows of each class: the client's are
    the flows from the client's address, an attacker's the flows from any
    other address at or above 10.1.10.0; a flow of neither class adds to no
    total. *)
Theorem security_loop_totals (stats : list (FiveTuple * FlowStats)) :
  exists tot,
    security_loop security_zero stats = Some tot /\
    legitimateTx tot = wrap64 (total txPackets counted_legitimate stats) /\
    legitimateRx tot = wrap64 (total rxPackets counted_legitimate stats) /\
    attackTx tot = wrap64 (total txPackets counted_attack stats) /\
    attackRx tot = wrap64 (total rxPackets counted_attack stats) /\
    legitimateFlows tot =
      count (fun flow => counted_legitimate flow && (0 <? rxPackets (snd flow))) stats.
Proof.
  apply (security_loop_from stats security_zero).
  unfold in_range, security_zero, is_uint64, UINT64_MOD; cbn. lia.
Qed.

End WithClock.

(** *** The theorems at concrete inputs *)

Lemma attack_sources_classified_witness :
  (sourceAddress (fst flood_flow) = attacker_subnet 0 + 1 ->
   isAttack (fst flood_flow) = true) /\
  (sourceAddress (fst flood_flow) = Ipv4StaticRouting.ipv4 10 1 1 1 ->
   isAttack (fst flood_flow) = false) /\
  (sourceAddress (fst flood_flow) = Ipv4StaticRouting.ipv4 10 1 2 1 ->
   isAttack (fst flood_flow) = false).
Proof. apply (attack_sources_classified 0 1 (fst flood_flow)); lia. Defined.

(** The three flows: the reply of the server is in neither class. *)
Example security_loop_run :
  option_map (fun tot => (legitimateTx tot, legitimateRx tot, attackTx tot, attackRx tot,
                          legitimateDelay tot, legitimateFlows tot,
                          legitimateLoss tot, blocked tot))
    (security_loop milliseconds_of_ns (Ipv4StaticRouting.ipv4 10 1 1 1) security_zero
       [client_flow; reply_flow; flood_flow]) =
  Some (10, 8, 1000, 400, 26%float, 1, 2, 600).
Proof. vm_compute. reflexivity. Qed.

End SecurityAnalysisProofs.

(** ** The eavesdropper of exercise 3 *)

Module EavesdroppingProofs.
Import EavesdroppingNode.

Lemma call_keeps_count (e : t) (c : Call) :
  m_interceptedPackets (call e c) = m_interceptedPackets e.
Proof. destruct c; reflexivity. Qed.

(** An [EavesdroppingNode] intercepts nothing: whatever the program does
    with it (set its node, start it, stop it, in any order and number), the
    count it reports stays at zero, because the handler that counts is not
    connected to anything. *)
Theorem EavesdroppingNode_intercepts_nothing (cs : list Call) :
  GetInterceptedPackets (calls cs ctor) = 0.
Proof.
  unfold GetInterceptedPackets, calls.
  change 0 with (m_interceptedPackets ctor) at 1.
  generalize ctor. induction cs as [| c rest IH]; intros e; [reflexivity |].
  cbn [fold_left]. rewrite IH. apply call_keeps_count.
Qed.

Lemma sniff_from (sizes : list Z) (g : Z) :
  is_uint32 g -> Sniffer.sniff sizes g = wrap32 (g + Z.of_nat (length sizes)).
Proof.
  unfold Sniffer.sniff. revert g.
  induction sizes as [| size rest IH]; intros g Hg.
  - cbn. rewrite Z.add_0_r. unfold is_uint32, UINT32_MOD in Hg.
    unfold wrap32, UINT32_MOD. symmetry. apply Z.mod_small. lia.
  - cbn [fold_left]. unfold Sniffer.PacketSnifferCallback at 2.
    rewrite IH.
    + unfold wrap32, UINT32_MOD. rewrite Zplus_mod_idemp_l. f_equal.
      cbn [length]. lia.
    + unfold is_uint32, wrap32, UINT32_MOD. apply Z.mod_pos_bound. lia.
Qed.

(** The callback counts every packet it is given: after [n] packets the
    global counter, which starts at zero, is [n] modulo [2^32], whatever
    the sizes of the packets. *)
Theorem PacketSnifferCallback_counts (sizes : list Z) :
  Sniffer.sniff sizes Sniffer.g_eavesdroppedPackets_init =
    wrap32 (Z.of_nat (length sizes)).
Proof.
  rewrite sniff_from; [reflexivity |].
  unfold is_uint32, UINT32_MOD, Sniffer.g_eavesdroppedPackets_init. lia.
Qed.

End EavesdroppingProofs.

(** ** The latency callbacks of exercise 1 (multi-site) *)

Module LatencyTraceProofs.
Import stdpp.gmap.
Local Open Scope Z_scope.
Import LatencyTrace.

Lemma transmissions_lookup (txs : list (Z * Time)) (k : Z) :
  forall (m : SentTimes) (found : option Time),
    m !! k = found ->
    transmissions txs m !! k =
      fold_left (fun found tx => if key (fst tx) =? k then Some (snd tx) else found)
        txs found.
Proof.
  unfold transmissions.
  induction txs as [| [uid now] rest IH]; intros m found Hm; [exact Hm |].
  cbn [fold_left fst snd]. apply IH. unfold TxCallback.
  destruct (Z.eqb_spec (key uid) k) as [-> | Hne].
  - apply lookup_insert_eq.
  - rewrite lookup_insert_ne by exact Hne. exact Hm.
Qed.

(** For a packet that is received, the callback logs the time since the
    last transmission recorded under the key of the packet, and logs
    nothing when there is none; transmissions under other keys do not
    matter, and an earlier transmission under the same key is forgotten.
    The key is the identifier modulo [2^32]. *)
Theorem RxCallback_reports_last_transmission
    (txs : list (Z * Time)) (uid : Z) (now : Time) :
  RxCallback uid now (transmissions txs ∅) =
    option_map (fun sent => now - sent) (last_sent (key uid) txs).
Proof.
  unfold RxCallback, last_sent.
  rewrite (transmissions_lookup txs (key uid) ∅ None) by apply lookup_empty.
  destruct (fold_left _ txs None); reflexivity.
Qed.

(** Two transmissions and a reception: the packet sent twice is measured
    from its second transmission, a packet whose identifier differs by
    [2^32] shares its entry, and a packet never sent is not logged. *)
Example RxCallback_run :
  RxCallback 7 500 (transmissions [(7, 100); (8, 150); (7, 300)] ∅) = Some 200 /\
  RxCallback (7 + 2 ^ 32) 500 (transmissions [(7, 100); (8, 150); (7, 300)] ∅) = Some 200 /\
  RxCallback 9 500 (transmissions [(7, 100); (8, 150); (7, 300)] ∅) = None.
Proof. vm_compute. repeat split; reflexivity. Qed.

End LatencyTraceProofs.

(** ** The packets of a generator *)

Module PacketMarksProofs.
Import Simulator Generator PacketMarks.

Section WithSeconds.

Variable Seconds : float -> Time.

Local Abbreviation invoke := (invoke Seconds).
Local Abbreviation step := (step Seconds).
Local Abbreviation run := (run Seconds).

(** A callback observes at most one packet, the packet of the generator,
    and does not change what that packet is. *)
Lemma invoke_packet (impl : EventImpl) (w : World) :
  packet_of (app (invoke impl w)) = packet_of (app w) /\
  (m_trace (sim (invoke impl w)) = m_trace (sim w) \/
   m_trace (sim (invoke impl w)) =
     Sent (fst (packet_of (app w))) (snd (packet_of (app w))) (Now (sim w)) ::
     m_trace (sim w)).
Proof.
  destruct w as [s g]. unfold Generator.invoke. cbn [app sim].
  destruct impl, g as [a | a]; cbn [lift];
    unfold VoipApplication.StartApplication, VoipApplication.SendPacket,
      VoipApplication.ScheduleTx, VoipApplication.StopApplication,
      DDoSAttacker.StartApplication, DDoSAttacker.SendAttackPacket,
      DDoSAttacker.ScheduleNextPacket, DDoSAttacker.StopApplication;
    cbn;
    repeat match goal with
      | |- context [if ?b then _ else _] => destruct b; cbn
      | |- context [match ?x with Some _ => _ | None => _ end] => destruct x; cbn
      end; auto;
    match goal with
    | |- context [Cancel ?id s] => destruct id; cbn; auto
    end.
Qed.

Lemma step_packets (pk : Z * option Z) (w w' : World) :
  step w = Some w' ->
  packet_of (app w) = pk -> all_packets pk (m_trace (sim w)) ->
  packet_of (app w') = pk /\ all_packets pk (m_trace (sim w')).
Proof.
  intros Hstep Hpk Hall. unfold Generator.step in Hstep.
  destruct (m_events (sim w)) as [| e q]; [discriminate |].
  match type of Hstep with
  | Some (invoke ?i ?w0) = Some w' =>
      assert (Hw : w' = invoke i w0) by congruence;
      destruct (invoke_packet i w0) as [Hp Ht]
  end.
  rewrite Hw. cbn [app sim m_trace Now] in Hp, Ht. rewrite Hp, Hpk in *.
  split; [reflexivity |].
  destruct Ht as [-> | ->]; unfold all_packets in *.
  - constructor; [exact I | exact Hall].
  - constructor; [destruct pk; reflexivity |]. constructor; [exact I | exact Hall].
Qed.

Lemma run_packets (pk : Z * option Z) (fuel : nat) :
  forall w, packet_of (app w) = pk -> all_packets pk (m_trace (sim w)) ->
    all_packets pk (m_trace (sim (run fuel w))).
Proof.
  induction fuel as [| fuel IH]; intros w Hpk Hall; [exact Hall |].
  cbn [Generator.run]. destruct (step w) as [w' |] eqn:Hstep; [| exact Hall].
  destruct (step_packets pk w w' Hstep Hpk Hall) as [Hpk' Hall'].
  apply IH; assumption.
Qed.

(** Every packet a generator sends, in any run, has the size the generator
    is set up with; every packet of a voice flow carries the
    type-of-service mark [0xB8], and no packet of a flood carries a mark. *)
Theorem packets_are_marked
    (g : Generator.t) (start : Time) (stop : option Time) (fuel : nat) :
  all_packets (packet_of g) (m_trace (sim (run fuel (boot g start stop)))).
Proof.
  apply run_packets.
  - destruct stop; reflexivity.
  - destruct stop; constructor.
Qed.

End WithSeconds.

(** Three packets of the voice flow of exercise 2. *)
Example voice_packets_run :
  filter (fun o => is_sent o = true)
    (m_trace (sim (run nanoseconds 3 (boot (voip_with 160 1500) 0 None)))) =
  [Sent 160 (Some 184) 40000000; Sent 160 (Some 184) 20000000; Sent 160 (Some 184) 0].
Proof. vm_compute. reflexivity. Qed.

End PacketMarksProofs.


(** ** The admission controller in terms of its rate *)

Module RateLimitByRateProofs.
Import RateLimiter RateLimiterProofs RateLimitOrderProofs TopRate.

(** A significand of 53 bits times a power of two is a double. *)
Lemma to_double_representable (m e : Z) :
  2 ^ 52 <= m < 2 ^ 53 -> 1 <= e -> to_double (m * 2 ^ e) = m * 2 ^ e.
Proof.
  intros Hm He.
  assert (Hpow : 2 <= 2 ^ e).
  { change 2 with (2 ^ 1) at 1. apply Z.pow_le_mono_r; lia. }
  assert (Hlo : 2 ^ (52 + e) = 2 ^ 52 * 2 ^ e) by (apply Z.pow_add_r; lia).
  assert (Hhi : 2 ^ Z.succ (52 + e) = 2 ^ 53 * 2 ^ e).
  { replace (Z.succ (52 + e)) with (53 + e) by lia. apply Z.pow_add_r; lia. }
  assert (Hlog : Z.log2 (m * 2 ^ e) = 52 + e).
  { apply Z.log2_unique; [lia |]. rewrite Hlo, Hhi. nia. }
  assert (Hhalf : 0 < 2 ^ (e - 1)) by (apply Z.pow_pos_nonneg; lia).
  unfold to_double. destruct (Z.ltb_spec (m * 2 ^ e) (2 ^ 53)) as [Hlt | _]; [nia |].
  rewrite Hlog. replace (52 + e - 52) with e by lia.
  rewrite Z.div_mul, Z.mod_mul by lia.
  destruct (Z.ltb_spec (2 ^ (e - 1)) 0) as [H | _]; [lia |].
  destruct (Z.eqb_spec 0 (2 ^ (e - 1))) as [H | _]; [lia |].
  reflexivity.
Qed.

(** Converting a double to [double] changes nothing. *)
Lemma to_double_idem (z : Z) : 0 <= z -> to_double (to_double z) = to_double z.
Proof.
  intros Hz. destruct (Z.lt_ge_cases z (2 ^ 53)) as [Hs | Hl].
  { rewrite (to_double_small z) by lia. apply to_double_small. lia. }
  destruct (to_double_large z Hl) as (q & r & _ & _ & Hq & Hsh & ->).
  set (e := Z.log2 z - 52) in *.
  destruct (_ || _).
  - destruct (Z.eq_dec (q + 1) (2 ^ 53)) as [Htop | Hbelow].
    + rewrite Htop.
      replace (2 ^ 53 * 2 ^ e) with (2 ^ 52 * 2 ^ (e + 1))
        by (rewrite Z.pow_add_r by lia; lia).
      apply to_double_representable; lia.
    + apply to_double_representable; lia.
  - apply to_double_representable; lia.
Qed.

Section WithResolution.

Variable second : Time.
Hypothesis second_pos : 0 < second.

Local Abbreviation wf := (wf second).
Local Abbreviation maxBytes := (maxBytes second).
Local Abbreviation Offer := (Offer second).

(** The bound of the admission test is the byte rate, [GetBitRate() / 8],
    as a double. *)
Lemma maxBytes_of_rate (st : t) :
  wf st -> maxBytes st = to_double (m_rateLimit st / 8).
Proof.
  intros Hwf. destruct (maxBytes_wf second second_pos st Hwf) as [-> _].
  apply to_double_idem. destruct Hwf as (Hrate & _). unfold_ranges.
  apply Z.div_pos; lia.
Qed.

(** C2, as the code has it.  The limit in bytes per second is
    [L = GetBitRate() / 8] and the window is the second the constructor
    sets.  Of a stream of packets of one size [S > 0] offered within one
    window, the first [floor (D / S)] are allowed and every later one is
    denied, where [D] is [L] as a double; for [L] below [2^53] that is
    [floor (L * W / S)] with [W] the window in seconds. *)
Theorem Offer_allows_floor_of_rate
    (p : Packet) (from : Z) (times : list Time) (st : t) :
  wf st -> wf_packet p -> 0 < GetSize p ->
  opens_window times st ->
  fst (Offer p from times st) =
    verdicts (length times) (to_double (m_rateLimit st / 8) / GetSize p) /\
  Z.of_nat (length (filter (fun ok => ok = true) (fst (Offer p from times st)))) =
    Z.min (Z.of_nat (length times)) (to_double (m_rateLimit st / 8) / GetSize p) /\
  (m_rateLimit st / 8 < 2 ^ 53 ->
   fst (Offer p from times st) =
     verdicts (length times)
       (m_rateLimit st / 8 * GetSeconds second (m_windowSize st) / GetSize p) /\
   Z.of_nat (length (filter (fun ok => ok = true) (fst (Offer p from times st)))) =
     Z.min (Z.of_nat (length times))
       (m_rateLimit st / 8 * GetSeconds second (m_windowSize st) / GetSize p)).
Proof.
  intros Hwf Hp Hsz Hopen.
  destruct (Offer_up_to_maxBytes second second_pos p from times st Hwf Hp Hsz Hopen)
    as [Hv Hc].
  rewrite (maxBytes_of_rate st Hwf) in Hv, Hc.
  split; [exact Hv |]. split; [exact Hc |].
  intros Hsmall.
  assert (Hw : GetSeconds second (m_windowSize st) = 1).
  { destruct Hwf as (_ & -> & _). apply GetSeconds_window. exact second_pos. }
  rewrite Hw, Z.mul_1_r.
  rewrite (to_double_small (m_rateLimit st / 8) Hsmall) in Hv, Hc.
  split; [exact Hv | exact Hc].
Qed.

End WithResolution.

(** *** The theorem at concrete inputs *)

Lemma Offer_allows_floor_of_rate_witness :
  fst (Offer ns_per_second (mkPacket 50000) 7 [0; 10; 20; 999999999] limiter_1Mbps) =
    verdicts 4 (to_double (m_rateLimit limiter_1Mbps / 8) / 50000) /\
  Z.of_nat (length (filter (fun ok => ok = true)
    (fst (Offer ns_per_second (mkPacket 50000) 7 [0; 10; 20; 999999999] limiter_1Mbps)))) =
    Z.min 4 (to_double (m_rateLimit limiter_1Mbps / 8) / 50000) /\
  (m_rateLimit limiter_1Mbps / 8 < 2 ^ 53 ->
   fst (Offer ns_per_second (mkPacket 50000) 7 [0; 10; 20; 999999999] limiter_1Mbps) =
     verdicts 4
       (m_rateLimit limiter_1Mbps / 8 *
        GetSeconds ns_per_second (m_windowSize limiter_1Mbps) / 50000) /\
   Z.of_nat (length (filter (fun ok => ok = true)
     (fst (Offer ns_per_second (mkPacket 50000) 7 [0; 10; 20; 999999999] limiter_1Mbps)))) =
     Z.min 4
       (m_rateLimit limiter_1Mbps / 8 *
        GetSeconds ns_per_second (m_windowSize limiter_1Mbps) / 50000)).
Proof.
  apply (Offer_allows_floor_of_rate ns_per_second ns_per_second_pos
           (mkPacket 50000) 7 [0; 10; 20; 999999999] limiter_1Mbps).
  - apply wf_ctor.
  - unfold wf_packet, is_uint32, UINT32_MOD; simpl. lia.
  - simpl. lia.
  - split; [reflexivity |]. repeat constructor.
Defined.

(** 1Mbps is 125000 bytes per second: two packets of 50000 bytes pass. *)
Example Offer_at_1Mbps :
  m_rateLimit limiter_1Mbps / 8 *
    GetSeconds ns_per_second (m_windowSize limiter_1Mbps) / 50000 = 2 /\
  fst (Offer ns_per_second (mkPacket 50000) 7 [0; 10; 20; 999999999] limiter_1Mbps) =
    [true; true; false; false].
Proof. vm_compute. split; reflexivity. Qed.

Lemma opens_window_repeat (n : nat) (now : Time) (st : t) :
  m_bytesInWindow (ResetWindow now st) = 0 ->
  now - m_windowStart (ResetWindow now st) < m_windowSize st ->
  opens_window (repeat now n) st.
Proof.
  intros Hempty Hin. destruct n as [| n]; [exact I |].
  cbn [repeat opens_window]. split; [exact Hempty |].
  constructor; [exact Hin |].
  induction n as [| n IH]; cbn [repeat]; constructor; assumption.
Qed.

Lemma wf_limiter_top_rate : wf ns_per_second limiter_top_rate.
Proof.
  apply wf_SetLimit; [unfold_ranges; lia | apply wf_ctor].
Qed.

(** C2, the claim as written fails.  At [2^64 - 1] bits per second the
    limit is [L = 2^61 - 1] bytes per second, and for packets of
    [S = 2^31] bytes [floor (L * W / S)] is [2^30 - 1].  The double of [L]
    is [2^61]: of a burst of [2^30] packets all [2^30] are allowed, and a
    window that holds [2^30 - 1] of them admits one more. *)
Lemma Offer_top_rate_allows_one_more :
  m_rateLimit limiter_top_rate / 8 = 2 ^ 61 - 1 /\
  m_rateLimit limiter_top_rate / 8 *
    GetSeconds ns_per_second (m_windowSize limiter_top_rate) / GetSize large_packet =
    2 ^ 30 - 1 /\
  maxBytes ns_per_second limiter_top_rate = 2 ^ 61 /\
  Z.of_nat (length burst) = 2 ^ 30 /\
  Z.of_nat (length (filter (fun ok => ok = true)
    (fst (Offer ns_per_second large_packet 7 burst limiter_top_rate)))) = 2 ^ 30 /\
  m_bytesInWindow limiter_top_rate_filled = (2 ^ 30 - 1) * GetSize large_packet /\
  fst (AllowPacket ns_per_second large_packet 7 0 limiter_top_rate_filled) = true.
Proof.
  assert (Hmax : maxBytes ns_per_second limiter_top_rate = 2 ^ 61)
    by (vm_compute; reflexivity).
  assert (Hlen : Z.of_nat (length burst) = 2 ^ 30).
  { unfold burst. rewrite List.repeat_length. unfold burst_length.
    apply Z2Nat.id. lia. }
  split; [vm_compute; reflexivity |].
  split; [vm_compute; reflexivity |].
  split; [exact Hmax |].
  split; [exact Hlen |].
  split; [| split; vm_compute; reflexivity].
  assert (Hopen : opens_window burst limiter_top_rate).
  { apply opens_window_repeat; vm_compute; reflexivity. }
  assert (Hp : wf_packet large_packet).
  { unfold wf_packet, large_packet; cbn [GetSize]. unfold_ranges. lia. }
  assert (Hsz : 0 < GetSize large_packet) by (cbn [large_packet GetSize]; lia).
  destruct (Offer_up_to_maxBytes ns_per_second ns_per_second_pos large_packet 7 burst
              limiter_top_rate wf_limiter_top_rate Hp Hsz Hopen) as [_ Hc].
  rewrite Hc, Hlen, Hmax. vm_compute. reflexivity.
Qed.

End RateLimitByRateProofs.

(** ** The divisor of the throughput in the three loops *)

Module ThroughputDivisorProofs.
Import FlowAnalysis FlowAnalysisProofs FlowReportsProofs DelayedFlow.




(** One nanosecond between the send and the receipt: all three loops
    divide by the same positive duration. *)
Example delayed_flow_divisors :
  (0 <? duration seconds_of_ns delayed_flow)%float = true /\
  duration seconds_of_ns delayed_flow = 0x1.12e0c00000000p-30%float /\
  multi_site_divisor seconds_of_ns delayed_flow = duration seconds_of_ns delayed_flow /\
  qos_divisor seconds_of_ns delayed_flow = duration seconds_of_ns delayed_flow /\
  multi_hop_divisor seconds_of_ns delayed_flow = duration seconds_of_ns delayed_flow.
Proof. vm_compute. repeat split; reflexivity. Qed.

End ThroughputDivisorProofs.

(** ** The interval between two sends *)

Module SendIntervalProofs.
Import Simulator Generator GeneratorInv FloodRun SendInterval GeneratorProofs.

(** The interval of either variant: the 32-bit product over the rate. *)
Lemma interval_seconds_bits (g : Generator.t) :
  interval_seconds g = (double_of_Z (packet_bits g) / double_of_Z (bit_rate g))%float.
Proof. destruct g; reflexivity. Qed.

(** Below [2^29] bytes the product [m_packetSize * 8] does not wrap. *)
Lemma packet_bits_no_wrap (g : Generator.t) :
  0 <= packet_size g < 2 ^ 29 -> packet_bits g = packet_size g * 8.
Proof.
  destruct g as [a | a]; unfold packet_size, packet_bits; cbn [PacketMarks.packet_of fst];
    intros H; apply RateLimiterProofs.wrap32_small; lia.
Qed.

(** After its start a generator keeps the pace of its interval. *)
Lemma run_boot_pacing (Seconds : float -> Time)
    (g : Generator.t) (start : Time) (stop : option Time) (fuel : nat) :
  boot_ok start stop ->
  pacing Seconds start (Seconds (interval_seconds g))
    (run Seconds (S fuel) (boot g start stop)).
Proof.
  intros Hok.
  destruct (boot_step Seconds g start stop Hok) as (w1 & Hstep & Hw1 & Hsend & Hi & Hdue).
  cbn [Generator.run]. rewrite Hstep. apply run_pacing.
  split; [exact Hw1 |]. split; [| rewrite Hi; reflexivity].
  unfold on_pace, paced. rewrite Hsend. cbn.
  repeat split; [f_equal; lia | discriminate |].
  intros e He. rewrite (Hdue e He). lia.
Qed.

Lemma run_boot_paced (Seconds : float -> Time)
    (g : Generator.t) (start : Time) (stop : option Time) (fuel : nat) :
  boot_ok start stop ->
  paced start (Seconds (double_of_Z (packet_bits g) / double_of_Z (bit_rate g))%float)
    (m_trace (sim (run Seconds fuel (boot g start stop)))).
Proof.
  intros Hok. rewrite <- interval_seconds_bits. destruct fuel as [| fuel].
  - destruct stop; apply paced_nil.
  - destruct (run_boot_pacing Seconds g start stop fuel Hok) as (_ & (H & _) & _).
    exact H.
Qed.

Lemma flood_2Mbps_interval :
  (double_of_Z (packet_bits flood_2Mbps) / double_of_Z (bit_rate flood_2Mbps))%float =
    0x1.0c6f7a0b5ed8dp-8%float /\
  nanoseconds 0x1.0c6f7a0b5ed8dp-8%float = 4096000 /\
  nanoseconds_below 0x1.0c6f7a0b5ed8dp-8%float = 4095999.
Proof. vm_compute. repeat split; reflexivity. Qed.

(** C8, as the code has it.  In every run of a generator the sends are at
    the start and then one interval apart each, without drift, whatever the
    framework's conversion [Seconds] of a double to a [Time] is; the
    interval is [Seconds (B / (double) rate)], where [B] is the 32-bit
    product [m_packetSize * 8], which is the product itself for packets
    below [2^29] bytes.  For the flood of 1024 bytes at 2Mbps the double is
    the one nearest to 0.004096, slightly below it: the sends are exactly
    4096000 ns apart when the conversion is to the nearest nanosecond, and
    4095999 ns apart when it is to the nanosecond below. *)
Theorem sends_one_interval_apart (Seconds : float -> Time)
    (g : Generator.t) (start : Time) (stop : option Time) (fuel : nat) :
  boot_ok start stop ->
  paced start (Seconds (double_of_Z (packet_bits g) / double_of_Z (bit_rate g))%float)
    (m_trace (sim (run Seconds fuel (boot g start stop)))) /\
  (0 <= packet_size g < 2 ^ 29 ->
   paced start (Seconds (double_of_Z (packet_size g * 8) / double_of_Z (bit_rate g))%float)
     (m_trace (sim (run Seconds fuel (boot g start stop))))) /\
  packet_size flood_2Mbps = 1024 /\ bit_rate flood_2Mbps = 2000000 /\
  interval_seconds flood_2Mbps = 0x1.0c6f7a0b5ed8dp-8%float /\
  (fst (exact_ratio (interval_seconds flood_2Mbps)) * 1000000 <?
     4096 * snd (exact_ratio (interval_seconds flood_2Mbps))) = true /\
  paced start 4096000
    (m_trace (sim (run nanoseconds fuel (boot flood_2Mbps start stop)))) /\
  paced start 4095999
    (m_trace (sim (run nanoseconds_below fuel (boot flood_2Mbps start stop)))).
Proof.
  intros Hok. destruct flood_2Mbps_interval as (Hd & Hn & Hb).
  split; [apply run_boot_paced; exact Hok |].
  split.
  { intros Hsize. rewrite <- (packet_bits_no_wrap g Hsize).
    apply run_boot_paced. exact Hok. }
  split; [reflexivity |]. split; [reflexivity |].
  split; [vm_compute; reflexivity |]. split; [vm_compute; reflexivity |].
  split.
  - rewrite <- Hn, <- Hd. apply run_boot_paced. exact Hok.
  - rewrite <- Hb, <- Hd. apply run_boot_paced. exact Hok.
Qed.

(** *** The theorem at concrete inputs *)

Lemma sends_one_interval_apart_witness :
  paced 10000000000
    (nanoseconds (double_of_Z (packet_bits flood_2Mbps) /
                  double_of_Z (bit_rate flood_2Mbps))%float)
    (m_trace (sim (run nanoseconds 4 (boot flood_2Mbps 10000000000 None)))) /\
  (0 <= packet_size flood_2Mbps < 2 ^ 29 ->
   paced 10000000000
     (nanoseconds (double_of_Z (packet_size flood_2Mbps * 8) /
                   double_of_Z (bit_rate flood_2Mbps))%float)
     (m_trace (sim (run nanoseconds 4 (boot flood_2Mbps 10000000000 None))))) /\
  packet_size flood_2Mbps = 1024 /\ bit_rate flood_2Mbps = 2000000 /\
  interval_seconds flood_2Mbps = 0x1.0c6f7a0b5ed8dp-8%float /\
  (fst (exact_ratio (interval_seconds flood_2Mbps)) * 1000000 <?
     4096 * snd (exact_ratio (interval_seconds flood_2Mbps))) = true /\
  paced 10000000000 4096000
    (m_trace (sim (run nanoseconds 4 (boot flood_2Mbps 10000000000 None)))) /\
  paced 10000000000 4095999
    (m_trace (sim (run nanoseconds_below 4 (boot flood_2Mbps 10000000000 None)))).
Proof.
  apply (sends_one_interval_apart nanoseconds flood_2Mbps 10000000000 None 4).
  exact I.
Defined.

(** The flood of exercise 3 from 10 s on, under the two conversions. *)
Example flood_send_log :
  send_log (run nanoseconds 4 (boot flood_2Mbps 10000000000 None)) =
    [10000000000; 10004096000; 10008192000; 10012288000] /\
  send_log (run nanoseconds_below 4 (boot flood_2Mbps 10000000000 None)) =
    [10000000000; 10004095999; 10008191998; 10012287997].
Proof. vm_compute. split; reflexivity. Qed.

(** C8, the claim as written fails.  A voice flow with packets of [2^29]
    bytes at 64kbps: [packetSize * 8 / rate] is 67108.864 seconds, but the
    32-bit product is zero, the interval is zero seconds and the three
    packets leave at the same time. *)
Lemma Voip_large_packets_leave_together :
  packet_size (voip_with 536870912 3) = 536870912 /\
  bit_rate (voip_with 536870912 3) = 64000 /\
  nanoseconds (double_of_Z (536870912 * 8) / double_of_Z 64000)%float =
    67108864000000 /\
  packet_bits (voip_with 536870912 3) = 0 /\
  interval_seconds (voip_with 536870912 3) = 0%float /\
  send_log (run nanoseconds 5 (boot (voip_with 536870912 3) 2000000000 None)) =
    [2000000000; 2000000000; 2000000000] /\
  send_log (run nanoseconds_below 5 (boot (voip_with 536870912 3) 2000000000 None)) =
    [2000000000; 2000000000; 2000000000].
Proof. vm_compute. repeat split; reflexivity. Qed.

End SendIntervalProofs.
